(** * Verification of the Datasette plugin scaffolding script

    The development embeds [src/init_plugin.py] in Rocq.  The function
    [create_plugin] computes a few strings and paths and then performs a
    straight-line sequence of effects (prints, [Path.mkdir], [Path.write_text]);
    the first effect that raises aborts the rest.  It is modelled as the list of
    effects it performs, executed by [run] on a world made of a filesystem and
    the text printed so far.

    Modelling assumptions on the platform: POSIX paths on Linux (a component
    holds at most 255 bytes, a path fewer than 4096), a filesystem of
    directories and regular files (no symbolic links, no permissions, no
    quotas).  A [string] is a sequence of bytes: the bytes of a command line
    argument, of a file name, of a file's content.  Python decodes and encodes
    them as UTF-8; the [str] methods used by the script search for and replace
    ASCII characters only, which act on the bytes as they act on the decoded
    characters.  Bytes that are not UTF-8 reach the script as lone surrogates,
    which file names accept and [write_text] refuses.  Standard output is
    taken to accept every text. *)

From Stdlib Require Import String Ascii List Bool Arith Lia.
From stdpp Require Import gmap strings list fin_maps.
Import ListNotations.
Local Open Scope string_scope.
Local Open Scope list_scope.

(** ** Python [str] methods *)

Module Str.

(** [s.startswith(prefix)] *)
Fixpoint startswith (s prefix : string) {struct prefix} : bool :=
  match prefix with
  | EmptyString => true
  | String p prefix' =>
      match s with
      | EmptyString => false
      | String c s' => if Ascii.eqb c p then startswith s' prefix' else false
      end
  end.

(** The text that follows [prefix] in [s], when [s] starts with it. *)
Fixpoint after_prefix (s prefix : string) {struct prefix} : option string :=
  match prefix with
  | EmptyString => Some s
  | String p prefix' =>
      match s with
      | EmptyString => None
      | String c s' => if Ascii.eqb c p then after_prefix s' prefix' else None
      end
  end.

(** The left-to-right scan of [s.replace(old, new)] for a non-empty [old]:
    at an occurrence of [old] emit [new] and resume after the occurrence,
    otherwise copy one character.  [fuel] bounds the length of [s]. *)
Fixpoint replace_scan (fuel : nat) (s old new : string) : string :=
  match fuel with
  | O => s
  | S fuel' =>
      match after_prefix s old with
      | Some rest => new +:+ replace_scan fuel' rest old new
      | None =>
          match s with
          | EmptyString => EmptyString
          | String c s' => String c (replace_scan fuel' s' old new)
          end
      end
  end.

(** [s.replace("", new)] puts [new] before every character and at the end. *)
Fixpoint replace_empty (s new : string) : string :=
  match s with
  | EmptyString => new
  | String c s' => new +:+ String c (replace_empty s' new)
  end.

(** [s.replace(old, new)]: every non-overlapping occurrence, leftmost first. *)
Definition replace (s old new : string) : string :=
  match old with
  | EmptyString => replace_empty s new
  | String _ _ => replace_scan (String.length s) s old new
  end.

(** [sep.join(parts)] *)
Fixpoint join (sep : string) (parts : list string) : string :=
  match parts with
  | [] => EmptyString
  | [x] => x
  | x :: rest => x +:+ sep +:+ join sep rest
  end.

(** [s.split(sep)] for a one-character separator. *)
Fixpoint split (s : string) (sep : ascii) : list string :=
  match s with
  | EmptyString => [EmptyString]
  | String c s' =>
      if Ascii.eqb c sep then EmptyString :: split s' sep
      else match split s' sep with
           | [] => [String c EmptyString]
           | h :: t => String c h :: t
           end
  end.

(** [s.removeprefix(prefix)] *)
Definition removeprefix (s prefix : string) : string :=
  match after_prefix s prefix with
  | Some rest => rest
  | None => s
  end.

(** [c in s] for a character [c] *)
Fixpoint contains (s : string) (c : ascii) : bool :=
  match s with
  | EmptyString => false
  | String x s' => Ascii.eqb x c || contains s' c
  end.

Fixpoint map_chars (f : ascii -> ascii) (s : string) : string :=
  match s with
  | EmptyString => EmptyString
  | String c s' => String (f c) (map_chars f s')
  end.

Definition upper_char (c : ascii) : ascii :=
  let n := nat_of_ascii c in
  if Nat.leb 97 n && Nat.leb n 122 then ascii_of_nat (n - 32) else c.

Definition lower_char (c : ascii) : ascii :=
  let n := nat_of_ascii c in
  if Nat.leb 65 n && Nat.leb n 90 then ascii_of_nat (n + 32) else c.

(** [s.upper()] and [s.lower()] on ASCII text *)
Definition upper (s : string) : string := map_chars upper_char s.
Definition lower (s : string) : string := map_chars lower_char s.

End Str.

Definition dq : string := String "034"%char EmptyString.
Definition nl : string := String "010"%char EmptyString.

(** A triple-quoted literal whose lines all end in a newline. *)
Definition unlines (ls : list string) : string :=
  fold_right (fun l acc => l +:+ nl +:+ acc) EmptyString ls.

(** ** The UTF-8 codec *)

Module Utf8.

(** What a well-formed sequence still requires after the bytes read so far
    (Unicode, table 3-7; RFC 3629). *)
Inductive Pending : Type :=
| Start
| Cont1
| Cont2
| Cont3
| AfterE0
| AfterED
| AfterF0
| AfterF4.

Definition between (lo hi n : nat) : bool := Nat.leb lo n && Nat.leb n hi.

Definition next (q : Pending) (c : ascii) : option Pending :=
  let n := nat_of_ascii c in
  match q with
  | Start =>
      if Nat.leb n 127 then Some Start
      else if between 194 223 n then Some Cont1
      else if Nat.eqb n 224 then Some AfterE0
      else if between 225 236 n || between 238 239 n then Some Cont2
      else if Nat.eqb n 237 then Some AfterED
      else if Nat.eqb n 240 then Some AfterF0
      else if between 241 243 n then Some Cont3
      else if Nat.eqb n 244 then Some AfterF4
      else None
  | Cont1 => if between 128 191 n then Some Start else None
  | Cont2 => if between 128 191 n then Some Cont1 else None
  | Cont3 => if between 128 191 n then Some Cont2 else None
  | AfterE0 => if between 160 191 n then Some Cont1 else None
  | AfterED => if between 128 159 n then Some Cont1 else None
  | AfterF0 => if between 144 191 n then Some Cont2 else None
  | AfterF4 => if between 128 143 n then Some Cont2 else None
  end.

Fixpoint scan (q : Pending) (s : string) : option Pending :=
  match s with
  | EmptyString => Some q
  | String c s' =>
      match next q c with
      | Some q' => scan q' s'
      | None => None
      end
  end.

(** The bytes are the UTF-8 encoding of some text: [s.encode()] succeeds on
    the [str] they were decoded to. *)
Definition valid (s : string) : bool :=
  match scan Start s with
  | Some Start => true
  | _ => false
  end.

End Utf8.

(** ** [pathlib.PurePosixPath] *)

Module Pathlib.

(** A parsed path: the root ([EmptyString], "/" or "//") and the components
    after it. *)
Record Path : Type := mkPath { root : string; tail : list string }.

(** [posixpath.splitroot] without the (always empty) drive:
    [if p[:1] != "/": return "", p]
    [elif p[1:2] != "/" or p[2:3] == "/": return "/", p[1:]]
    [else: return "//", p[2:]] *)
Definition splitroot (p : string) : string * string :=
  match Str.after_prefix p "/" with
  | None => (EmptyString, p)
  | Some p1 =>
      match Str.after_prefix p1 "/" with
      | None => ("/", p1)
      | Some p2 => if Str.startswith p2 "/" then ("/", p1) else ("//", p2)
      end
  end.

Definition keep_component (x : string) : bool :=
  negb (String.eqb x EmptyString) && negb (String.eqb x ".").

(** [Path(s)]: empty and "." components are dropped, ".." is kept. *)
Definition parse (s : string) : Path :=
  let '(r, rel) := splitroot s in
  mkPath r (List.filter keep_component (Str.split rel "/")).

(** [p / key]: an absolute [key] replaces [p]. *)
Definition joinpath (p : Path) (key : string) : Path :=
  let k := parse key in
  match root k with
  | EmptyString => mkPath (root p) (tail p ++ tail k)
  | _ => k
  end.

(** [str(p)] *)
Definition to_string (p : Path) : string :=
  match root p, tail p with
  | EmptyString, [] => "."
  | r, t => r +:+ Str.join "/" t
  end.

#[global] Instance Path_eq_dec : EqDecision Path.
Proof. solve_decision. Defined.

(** [p.parent] *)
Definition parent (p : Path) : Path :=
  mkPath (root p) (removelast (tail p)).

End Pathlib.

Import Pathlib.
Notation "p </> key" := (joinpath p key) (at level 40, left associativity).

(** ** The operating system: filesystem and standard output *)

Module Os.

Inductive Node : Type :=
| Dir
| File (content : string).

(** The exceptions that the calls below raise: four subclasses of [OSError],
    the plain [OSError] with [errno.ENAMETOOLONG], the [ValueError] of a path
    with an embedded null byte and the [UnicodeEncodeError] of a text that
    cannot be encoded. *)
Inductive Exception : Type :=
| FileNotFoundError
| FileExistsError
| NotADirectoryError
| IsADirectoryError
| FileNameTooLong
| ValueError
| UnicodeEncodeError.

Inductive Outcome : Type :=
| Done
| Raised (e : Exception).

(** Entries are keyed by their location: the component names from the
    filesystem root down, "." and ".." resolved.  The root directory [[]]
    always exists. *)
Record World : Type := mkWorld {
  cwd : list string;
  fs : gmap (list string) Node;
  stdout : list string
}.

(** The limits of [<limits.h>] on Linux: the bytes of a component, and the
    bytes of a path with its terminating null byte. *)
Definition NAME_MAX : nat := 255.
Definition PATH_MAX : nat := 4096.

Definition NUL : ascii := "000"%char.

(** What a system call does with the path before it resolves it: Python
    refuses an embedded null byte, the kernel a path that does not fit
    [PATH_MAX]. *)
Definition check_path (p : Path) : option Exception :=
  if Str.contains (to_string p) NUL then Some ValueError
  else if Nat.leb PATH_MAX (String.length (to_string p)) then Some FileNameTooLong
  else None.

Definition node_at (m : gmap (list string) Node) (loc : list string) : option Node :=
  match loc with
  | [] => Some Dir
  | _ => m !! loc
  end.

(** Kernel path resolution: follow [comps] from the directory [cur]; every
    directory passed through must exist, ".." steps to the parent, and a
    directory is not searched for a name longer than [NAME_MAX]. *)
Fixpoint walk (m : gmap (list string) Node) (cur comps : list string)
  : Exception + list string :=
  match comps with
  | [] => inr cur
  | c :: rest =>
      match node_at m cur with
      | None => inl FileNotFoundError
      | Some (File _) => inl NotADirectoryError
      | Some Dir =>
          if String.eqb c ".." then walk m (removelast cur) rest
          else if Nat.ltb NAME_MAX (String.length c) then inl FileNameTooLong
          else walk m (cur ++ [c]) rest
      end
  end.

(** Where resolution of [p] starts. *)
Definition start (w : World) (p : Path) : list string :=
  match root p with
  | EmptyString => cwd w
  | _ => []
  end.

(** The entry that [p] names, if [os.stat(p)] finds one. *)
Definition stat (w : World) (p : Path) : option Node :=
  match check_path p with
  | Some _ => None
  | None =>
      match walk (fs w) (start w p) (tail p) with
      | inr loc => node_at (fs w) loc
      | inl _ => None
      end
  end.

(** [p.is_dir()] *)
Definition is_dir (w : World) (p : Path) : bool :=
  match stat w p with
  | Some Dir => true
  | _ => false
  end.

(** [p.read_text()] when [p] names a regular file. *)
Definition read_text (w : World) (p : Path) : option string :=
  match stat w p with
  | Some (File c) => Some c
  | _ => None
  end.

Definition set_node (w : World) (loc : list string) (n : Node) : World :=
  mkWorld (cwd w) (<[loc := n]> (fs w)) (stdout w).

(** Resolve the directory that holds the last component of a path. *)
Definition walk_parent (w : World) (p : Path) (init : list string)
  : Exception + list string :=
  match walk (fs w) (start w p) init with
  | inl e => inl e
  | inr d =>
      match node_at (fs w) d with
      | None => inl FileNotFoundError
      | Some (File _) => inl NotADirectoryError
      | Some Dir => inr d
      end
  end.

(** [os.mkdir(p)] *)
Definition os_mkdir (p : Path) (w : World) : Exception + World :=
  match check_path p with
  | Some e => inl e
  | None =>
      match rev (tail p) with
      | [] => inl FileExistsError
      | last :: rinit =>
          match walk_parent w p (rev rinit) with
          | inl e => inl e
          | inr d =>
              if String.eqb last ".." then inl FileExistsError
              else if Nat.ltb NAME_MAX (String.length last) then inl FileNameTooLong
              else match fs w !! (d ++ [last]) with
                   | Some _ => inl FileExistsError
                   | None => inr (set_node w (d ++ [last]) Dir)
                   end
          end
      end
  end.

(** [open(p, "w")]: the location of the regular file that is opened; the
    file is created when it is missing and emptied when it exists. *)
Definition os_open (p : Path) (w : World) : Exception + list string :=
  match check_path p with
  | Some e => inl e
  | None =>
      match rev (tail p) with
      | [] => inl IsADirectoryError
      | last :: rinit =>
          match walk_parent w p (rev rinit) with
          | inl e => inl e
          | inr d =>
              if String.eqb last ".." then inl IsADirectoryError
              else if Nat.ltb NAME_MAX (String.length last) then inl FileNameTooLong
              else match fs w !! (d ++ [last]) with
                   | Some Dir => inl IsADirectoryError
                   | _ => inr (d ++ [last])
                   end
          end
      end
  end.

(** [Path.mkdir(parents, exist_ok)]:
    [try: os.mkdir(self)]
    [except FileNotFoundError:]
    [    if not parents or self.parent == self: raise]
    [    self.parent.mkdir(parents=True, exist_ok=True)]
    [    self.mkdir(parents=False, exist_ok=exist_ok)]
    [except OSError:]
    [    if not exist_ok or not self.is_dir(): raise]
    A [ValueError] is no [OSError] and passes through.
    [fuel] bounds the number of components of [p]. *)
Fixpoint mkdir_fuel (fuel : nat) (p : Path) (parents exist_ok : bool) (w : World)
  : World * Outcome :=
  match os_mkdir p w with
  | inr w' => (w', Done)
  | inl FileNotFoundError =>
      if negb parents || bool_decide (parent p = p) then (w, Raised FileNotFoundError)
      else match fuel with
           | O => (w, Raised FileNotFoundError)
           | S fuel' =>
               match mkdir_fuel fuel' (parent p) true true w with
               | (w1, Done) => mkdir_fuel fuel' p false exist_ok w1
               | (w1, Raised e) => (w1, Raised e)
               end
           end
  | inl ValueError => (w, Raised ValueError)
  | inl e => if exist_ok && is_dir w p then (w, Done) else (w, Raised e)
  end.

Definition mkdir (p : Path) (parents exist_ok : bool) (w : World) : World * Outcome :=
  mkdir_fuel (List.length (tail p)) p parents exist_ok w.

(** [p.write_text(data)]:
    [with self.open(mode="w") as f: return f.write(data)]
    The text is encoded when it is written: a text that cannot be encoded
    leaves the file that was opened empty. *)
Definition write_text (p : Path) (data : string) (w : World) : World * Outcome :=
  match os_open p w with
  | inl e => (w, Raised e)
  | inr loc =>
      if Utf8.valid data then (set_node w loc (File data), Done)
      else (set_node w loc (File EmptyString), Raised UnicodeEncodeError)
  end.

(** [print(s)] *)
Definition print (s : string) (w : World) : World :=
  mkWorld (cwd w) (fs w) (stdout w ++ [s]).

End Os.

Import Os.

(** ** Effects and their execution *)

Inductive Action : Type :=
| Print (s : string)
| Mkdir (p : Path) (parents exist_ok : bool)
| WriteText (p : Path) (data : string).

Definition step (a : Action) (w : World) : World * Outcome :=
  match a with
  | Print s => (print s w, Done)
  | Mkdir p parents exist_ok => mkdir p parents exist_ok w
  | WriteText p data => write_text p data w
  end.

(** Statements run in order; an exception ends the run where it is raised. *)
Fixpoint run (prog : list Action) (w : World) : World * Outcome :=
  match prog with
  | [] => (w, Done)
  | a :: rest =>
      match step a w with
      | (w', Done) => run rest w'
      | (w', Raised e) => (w', Raised e)
      end
  end.

(** ** The generator: [create_plugin] of [init_plugin.py] *)

(** [module_name.replace("datasette_", "")], the key of the entry point *)
Definition entry_point_key (module_name : string) : string :=
  Str.replace module_name "datasette_" EmptyString.

Definition pyproject_lines (name module_name : string) : list string :=
  [ "[project]";
    "name = " +:+ dq +:+ name +:+ dq;
    "version = " +:+ dq +:+ "0.1.0" +:+ dq;
    "description = " +:+ dq +:+ "A Datasette plugin" +:+ dq;
    "readme = " +:+ dq +:+ "README.md" +:+ dq;
    "requires-python = " +:+ dq +:+ ">=3.10" +:+ dq;
    "license = {text = " +:+ dq +:+ "Apache-2.0" +:+ dq +:+ "}";
    "authors = [";
    "    {name = " +:+ dq +:+ "Your Name" +:+ dq +:+ ", email = " +:+ dq +:+ "you@example.com" +:+ dq +:+ "}";
    "]";
    "dependencies = [";
    "    " +:+ dq +:+ "datasette" +:+ dq;
    "]";
    "[dependency-groups]";
    "dev = [";
    "    " +:+ dq +:+ "pytest" +:+ dq +:+ ",";
    "    " +:+ dq +:+ "pytest-asyncio" +:+ dq;
    "]";
    EmptyString;
    "[project.entry-points.datasette]";
    entry_point_key module_name +:+ " = " +:+ dq +:+ module_name +:+ dq;
    EmptyString;
    "[build-system]";
    "requires = [" +:+ dq +:+ "setuptools>=61.0" +:+ dq +:+ "]";
    "build-backend = " +:+ dq +:+ "setuptools.build_meta" +:+ dq ].

Definition readme_lines (name : string) : list string :=
  [ "# " +:+ name;
    EmptyString;
    "A Datasette plugin.";
    EmptyString;
    "## Installation";
    EmptyString;
    "```bash";
    "pip install " +:+ name;
    "```";
    EmptyString;
    "Or install directly from this repository:";
    EmptyString;
    "```bash";
    "pip install -e .";
    "```";
    EmptyString;
    "## Usage";
    EmptyString;
    "This plugin adds [describe functionality here].";
    EmptyString;
    "## Configuration";
    EmptyString;
    "Add to your `datasette.yaml`:";
    EmptyString;
    "```yaml";
    "plugins:";
    "  " +:+ name +:+ ":";
    "    option1: value1";
    "```";
    EmptyString;
    "## Development";
    EmptyString;
    "```bash";
    "pip install -e " +:+ dq +:+ ".[test]" +:+ dq;
    "pytest";
    "```" ].

Definition init_py_lines (name : string) : list string :=
  [ dq +:+ dq +:+ dq;
    name;
    EmptyString;
    "A Datasette plugin.";
    dq +:+ dq +:+ dq;
    EmptyString;
    "from datasette import hookimpl";
    EmptyString;
    "__version__ = " +:+ dq +:+ "0.1.0" +:+ dq;
    EmptyString;
    EmptyString;
    "@hookimpl";
    "def prepare_connection(conn):";
    "    " +:+ dq +:+ dq +:+ dq +:+ "Register custom SQL functions." +:+ dq +:+ dq +:+ dq;
    "    # Example: Register a custom function";
    "    # conn.create_function(" +:+ dq +:+ "my_function" +:+ dq +:+ ", 1, lambda x: x.upper())";
    "    pass";
    EmptyString;
    EmptyString;
    "# Uncomment and customize the hooks you need:";
    EmptyString;
    "# @hookimpl";
    "# def register_routes():";
    "#     " +:+ dq +:+ dq +:+ dq +:+ "Register custom URL routes." +:+ dq +:+ dq +:+ dq;
    "#     return [";
    "#         (r" +:+ dq +:+ "^/-/my-page$" +:+ dq +:+ ", my_page_view),";
    "#     ]";
    EmptyString;
    EmptyString;
    "# async def my_page_view(datasette, request):";
    "#     from datasette import Response";
    "#     return Response.html(" +:+ dq +:+ "<h1>My Custom Page</h1>" +:+ dq +:+ ")";
    EmptyString;
    EmptyString;
    "# @hookimpl";
    "# def startup(datasette):";
    "#     " +:+ dq +:+ dq +:+ dq +:+ "Run on server startup." +:+ dq +:+ dq +:+ dq;
    "#     async def inner():";
    "#         config = datasette.plugin_config(" +:+ dq +:+ name +:+ dq +:+ ") or {}";
    "#         # Initialize plugin";
    "#         pass";
    "#     return inner";
    EmptyString;
    EmptyString;
    "# @hookimpl";
    "# def menu_links(datasette, actor):";
    "#     " +:+ dq +:+ dq +:+ dq +:+ "Add items to the navigation menu." +:+ dq +:+ dq +:+ dq;
    "#     return [";
    "#         {" +:+ dq +:+ "href" +:+ dq +:+ ": datasette.urls.path(" +:+ dq +:+ "/-/my-page" +:+ dq +:+ "), " +:+ dq +:+ "label" +:+ dq +:+ ": " +:+ dq +:+ "My Feature" +:+ dq +:+ "}";
    "#     ]";
    EmptyString;
    EmptyString;
    "# @hookimpl";
    "# def render_cell(value, column, table, database, datasette, request):";
    "#     " +:+ dq +:+ dq +:+ dq +:+ "Customize cell rendering in table view." +:+ dq +:+ dq +:+ dq;
    "#     return None  # Return None to use default rendering" ].

Definition test_py_lines (name : string) : list string :=
  [ dq +:+ dq +:+ dq +:+ "Tests for " +:+ name +:+ "." +:+ dq +:+ dq +:+ dq;
    EmptyString;
    "from datasette.app import Datasette";
    "import pytest";
    EmptyString;
    EmptyString;
    "@pytest.mark.asyncio";
    "async def test_plugin_is_installed():";
    "    " +:+ dq +:+ dq +:+ dq +:+ "Test that the plugin is properly installed." +:+ dq +:+ dq +:+ dq;
    "    datasette = Datasette(memory=True)";
    "    response = await datasette.client.get(" +:+ dq +:+ "/-/plugins.json" +:+ dq +:+ ")";
    "    assert response.status_code == 200";
    "    installed_plugins = {p[" +:+ dq +:+ "name" +:+ dq +:+ "] for p in response.json()}";
    "    assert " +:+ dq +:+ name +:+ dq +:+ " in installed_plugins";
    EmptyString;
    EmptyString;
    "# Add more tests for your plugin functionality:";
    EmptyString;
    "# @pytest.mark.asyncio";
    "# async def test_custom_route():";
    "#     datasette = Datasette(memory=True)";
    "#     response = await datasette.client.get(" +:+ dq +:+ "/-/my-page" +:+ dq +:+ ")";
    "#     assert response.status_code == 200";
    EmptyString;
    EmptyString;
    "# @pytest.mark.asyncio";
    "# async def test_custom_sql_function():";
    "#     datasette = Datasette(memory=True)";
    "#     response = await datasette.client.get(";
    "#         " +:+ dq +:+ "/_memory.json?sql=select+my_function('test')" +:+ dq;
    "#     )";
    "#     assert response.status_code == 200" ].

Definition pytest_ini_lines : list string :=
  [ "[pytest]";
    "asyncio_mode = auto" ].

Definition gitignore_lines : list string :=
  [ "__pycache__/";
    "*.py[cod]";
    "*$py.class";
    "*.egg-info/";
    "dist/";
    "build/";
    ".eggs/";
    "*.egg";
    ".pytest_cache/";
    ".coverage";
    "htmlcov/";
    ".venv/";
    "venv/" ].

Definition pyproject (name module_name : string) : string :=
  unlines (pyproject_lines name module_name).
Definition readme (name : string) : string := unlines (readme_lines name).
Definition init_py (name : string) : string := unlines (init_py_lines name).
Definition test_py (name : string) : string := unlines (test_py_lines name).
Definition pytest_ini : string := unlines pytest_ini_lines.
Definition gitignore : string := unlines gitignore_lines.

Definition warning : string :=
  "Warning: Plugin name should start with 'datasette-'".

(** [module_name = name.replace("-", "_")] *)
Definition module_name (name : string) : string := Str.replace name "-" "_".

Definition plugin_dir (name : string) (output_dir : Path) : Path :=
  output_dir </> name.
Definition module_dir (name : string) (output_dir : Path) : Path :=
  plugin_dir name output_dir </> module_name name.
Definition tests_dir (name : string) (output_dir : Path) : Path :=
  plugin_dir name output_dir </> "tests".

Definition create_plugin (name : string) (output_dir : Path) : list Action :=
  (* Validate name *)
  (if negb (Str.startswith name "datasette-") then [Print warning] else []) ++
  (* Create directory structure *)
  map (fun d => Mkdir d true true)
      [plugin_dir name output_dir; module_dir name output_dir; tests_dir name output_dir] ++
  [ WriteText (plugin_dir name output_dir </> "pyproject.toml")
              (pyproject name (module_name name));
    WriteText (plugin_dir name output_dir </> "README.md") (readme name);
    WriteText (module_dir name output_dir </> "__init__.py") (init_py name);
    WriteText (tests_dir name output_dir </> "__init__.py") EmptyString;
    WriteText (tests_dir name output_dir </> ("test_" +:+ module_name name +:+ ".py"))
              (test_py name);
    WriteText (plugin_dir name output_dir </> "pytest.ini") pytest_ini;
    WriteText (plugin_dir name output_dir </> ".gitignore") gitignore;
    Print ("Created plugin at: " +:+ to_string (plugin_dir name output_dir));
    Print (nl +:+ "Next steps:");
    Print ("  cd " +:+ to_string (plugin_dir name output_dir));
    Print "  pip install -e '.[test]'";
    Print "  pytest" ].

(** ** Notions used in the statements *)

(** [old] occurs in [s] as a substring. *)
Definition occurs (old s : string) : Prop :=
  exists pre post, s = pre +:+ old +:+ post.

Definition hyphen_to_underscore (c : ascii) : ascii :=
  if Ascii.eqb c "-" then "_"%char else c.

(** A name that is one ordinary path component. *)
Definition is_component (s : string) : bool :=
  negb (String.eqb s EmptyString) && negb (String.eqb s ".")
  && negb (String.eqb s "..") && negb (Str.contains s "/").

(** The files that the generator writes directly in the project root. *)
Definition root_file_names : list string :=
  ["pyproject.toml"; "README.md"; "pytest.ini"; ".gitignore"].

(** The seven output files, in the order in which they are written. *)
Definition output_files (name : string) (output_dir : Path) : list Path :=
  [ plugin_dir name output_dir </> "pyproject.toml";
    plugin_dir name output_dir </> "README.md";
    module_dir name output_dir </> "__init__.py";
    tests_dir name output_dir </> "__init__.py";
    tests_dir name output_dir </> ("test_" +:+ module_name name +:+ ".py");
    plugin_dir name output_dir </> "pytest.ini";
    plugin_dir name output_dir </> ".gitignore" ].

(** Every path that the generator hands to the system, in the order of the
    source. *)
Definition script_paths (name : string) (output_dir : Path) : list Path :=
  [plugin_dir name output_dir; module_dir name output_dir; tests_dir name output_dir]
  ++ output_files name output_dir.

(** What the platform asks of a name that is one component for a run to go
    through: the longest file name made from it, "test_" + module + ".py",
    fits [NAME_MAX]; the name is UTF-8, so that the texts can be encoded;
    every path handed to the system is free of null bytes and fits
    [PATH_MAX]; and the path of the project root is UTF-8, so that the
    closing messages can be encoded whatever the error handler of standard
    output is. *)
Definition platform_accepts (name : string) (output_dir : Path) : Prop :=
  String.length name + 8 <= NAME_MAX
  /\ Utf8.valid name = true
  /\ Forall (fun p => check_path p = None) (script_paths name output_dir)
  /\ Utf8.valid (to_string (plugin_dir name output_dir)) = true.

Definition mkdir_calls (prog : list Action) : list Action :=
  List.filter (fun a => match a with Mkdir _ _ _ => true | _ => false end) prog.

Definition written (prog : list Action) : list (Path * string) :=
  flat_map (fun a => match a with WriteText p data => [(p, data)] | _ => [] end) prog.

Definition printed (prog : list Action) : list string :=
  flat_map (fun a => match a with Print s => [s] | _ => [] end) prog.

Definition is_fs_action (a : Action) : Prop :=
  match a with
  | Print _ => False
  | _ => True
  end.

Definition exist_ok_everywhere (prog : list Action) : Prop :=
  Forall (fun a => match a with Mkdir _ _ ok => ok = true | _ => True end) prog.

(** [p] lies strictly below the directory path [d], component by component. *)
Definition inside (d p : Path) : Prop :=
  root p = root d /\ exists rel, rel <> [] /\ tail p = tail d ++ rel.

(** The location of the entry that [p] resolves to. *)
Definition locate (w : World) (p : Path) : option (list string) :=
  match walk (fs w) (start w p) (tail p) with
  | inr loc => Some loc
  | inl _ => None
  end.

(** Nothing exists at [loc] or below it. *)
Definition absent_below (w : World) (loc : list string) : Prop :=
  forall suffix, fs w !! (loc ++ suffix) = None.

(** The system accepts the path [p] and its names, and no regular file lies
    on the way to [p]: each component of [p] is either missing or a directory.
    Components ".." are excluded so that prefixes of the path are prefixes of
    the location. *)
Definition unobstructed (w : World) (p : Path) : Prop :=
  check_path p = None
  /\ Forall (fun c => String.length c <= NAME_MAX) (tail p)
  /\ ~ In ".." (tail p)
  /\ node_at (fs w) (start w p) = Some Dir
  /\ forall k c, node_at (fs w) (start w p ++ take k (tail p)) <> Some (File c).

(** Entries are never removed and never change kind. *)
Definition extends (m m' : gmap (list string) Node) : Prop :=
  forall loc n, m !! loc = Some n ->
    match n with
    | Dir => m' !! loc = Some Dir
    | File _ => exists c', m' !! loc = Some (File c')
    end.

(** Existing entries are kept as they are; new entries are directories. *)
Definition adds_dirs (m m' : gmap (list string) Node) : Prop :=
  forall loc,
    match m !! loc with
    | Some n => m' !! loc = Some n
    | None => m' !! loc = None \/ m' !! loc = Some Dir
    end.

(** A world for the examples: an empty output directory [/out], nothing
    printed yet. *)
Definition example_out : Path := parse "/out".
Definition example_world : World :=
  mkWorld [] (<[ ["out"] := Dir ]> ∅) [].

(** The texts written into [output_files], in the same order. *)
Definition output_texts (name : string) : list string :=
  [ pyproject name (module_name name); readme name; init_py name; EmptyString;
    test_py name; pytest_ini; gitignore ].

(** The project tree on a filesystem [m], with the project root at location
    [P]: three directories and seven files. *)
Definition project_tree (name : string) (P : list string)
    (m : gmap (list string) Node) : gmap (list string) Node :=
  let module := module_name name in
  <[P ++ [".gitignore"] := File gitignore]>
  (<[P ++ ["pytest.ini"] := File pytest_ini]>
  (<[P ++ ["tests"; "test_" +:+ module +:+ ".py"] := File (test_py name)]>
  (<[P ++ ["tests"; "__init__.py"] := File EmptyString]>
  (<[P ++ [module; "__init__.py"] := File (init_py name)]>
  (<[P ++ ["README.md"] := File (readme name)]>
  (<[P ++ ["pyproject.toml"] := File (pyproject name module)]>
  (<[P ++ ["tests"] := Dir]>
  (<[P ++ [module] := Dir]>
  (<[P := Dir]> m))))))))).

(** The entries of the project tree, relative to the project root: the three
    directories, then the seven files. *)
Definition tree_entries (name : string) : list (list string) :=
  let module := module_name name in
  [ []; [module]; ["tests"];
    ["pyproject.toml"]; ["README.md"]; [module; "__init__.py"]; ["tests"; "__init__.py"];
    ["tests"; "test_" +:+ module +:+ ".py"]; ["pytest.ini"]; [".gitignore"] ].

(** The state of a run on a fresh target once the three directories are
    there: besides what world [w0] had, the only directories are the project
    root [P], the module directory and the tests directory. *)
Definition tree_ready (w0 : World) (P : list string) (module : string) (s : World) : Prop :=
  cwd s = cwd w0
  /\ extends (fs w0) (fs s)
  /\ (forall sub, In sub [[]; [module]; ["tests"]] -> fs s !! (P ++ sub) = Some Dir)
  /\ (forall loc, fs s !! loc = Some Dir ->
      (exists sub, In sub [[]; [module]; ["tests"]] /\ loc = P ++ sub)
      \/ fs w0 !! loc = Some Dir).


(** The filesystem steps and the closing messages of [create_plugin], in the
    order of the source. *)
Definition fs_steps (name : string) (output_dir : Path) : list Action :=
  [ Mkdir (plugin_dir name output_dir) true true;
    Mkdir (module_dir name output_dir) true true;
    Mkdir (tests_dir name output_dir) true true;
    WriteText (plugin_dir name output_dir </> "pyproject.toml")
              (pyproject name (module_name name));
    WriteText (plugin_dir name output_dir </> "README.md") (readme name);
    WriteText (module_dir name output_dir </> "__init__.py") (init_py name);
    WriteText (tests_dir name output_dir </> "__init__.py") EmptyString;
    WriteText (tests_dir name output_dir </> ("test_" +:+ module_name name +:+ ".py"))
              (test_py name);
    WriteText (plugin_dir name output_dir </> "pytest.ini") pytest_ini;
    WriteText (plugin_dir name output_dir </> ".gitignore") gitignore ].

Definition success_messages (name : string) (output_dir : Path) : list string :=
  [ "Created plugin at: " +:+ to_string (plugin_dir name output_dir);
    nl +:+ "Next steps:";
    "  cd " +:+ to_string (plugin_dir name output_dir);
    "  pip install -e '.[test]'";
    "  pytest" ].

(** The world [w] with [out] as the text printed so far. *)
Definition with_stdout (w : World) (out : list string) : World :=
  mkWorld (cwd w) (fs w) out.

(** What a file written with [text] holds once the writes of [later] have
    been done, when [same] tells which of them go to the same file: the text
    of the last of these, or [text]. *)
Fixpoint last_text {A : Type} (same : A -> bool) (later : list (A * string))
    (text : string) : string :=
  match later with
  | [] => text
  | (q, d) :: rest => last_text same rest (if same q then d else text)
  end.

(** What each file of a sequence of writes, given by their locations, holds
    in the end. *)
Fixpoint finals (files : list (list string * string)) : list string :=
  match files with
  | [] => []
  | (loc, text) :: later =>
      last_text (fun q => bool_decide (q = loc)) later text :: finals later
  end.

(** The empty relative path, "." *)
Definition here : Path := mkPath EmptyString [].

(** The components of the seven output files that come from the name: those
    below the output directory for a relative name, all of them for an
    absolute one. *)
Definition relative_locations (name : string) : list (list string) :=
  map tail (output_files name here).

(** What the seven output files hold after a run that completed, for a name
    without ".." components. *)
Definition final_texts (name : string) : list string :=
  finals (combine (relative_locations name) (output_texts name)).

(** Every entry lies in a directory, under a name that fits [NAME_MAX]: the
    filesystem is a tree. *)
Definition well_formed (m : gmap (list string) Node) : Prop :=
  forall loc x n, m !! (loc ++ [x]) = Some n ->
    node_at m loc = Some Dir /\ String.length x <= NAME_MAX.

(** The exception of a system call on a path that leads past a regular file:
    the path is refused when the system does not accept it, and is not a
    directory's otherwise. *)
Definition past_file (p : Path) : Exception :=
  match check_path p with
  | Some e => e
  | None => NotADirectoryError
  end.

(** ** The command line entry point: [main] of [init_plugin.py] *)

(** Components with ".." resolved: it drops the component before it, and
    nothing at the root. *)
Definition normalize (comps : list string) : list string :=
  fold_left (fun acc c => if String.eqb c ".." then removelast acc else acc ++ [c])
            comps [].

(** [p.resolve()] where there are no symbolic links: the absolute path, from
    the working directory when [p] is relative, with ".." resolved. *)
Definition resolve (w : World) (p : Path) : Path :=
  mkPath "/" (normalize (start w p ++ tail p)).

(** [p.exists()] *)
Definition path_exists (w : World) (p : Path) : bool :=
  match stat w p with
  | Some _ => true
  | None => false
  end.

(** The result of [parser.parse_args()]: the positional [name] and the value
    of [--path] (default "."). *)
Record Args : Type := mkArgs { args_name : string; args_path : string }.

(** [main], from the parsed arguments on:
    [output_dir = Path(args.path).resolve()]
    [if not output_dir.exists(): output_dir.mkdir(parents=True)]
    [create_plugin(args.name, output_dir)] *)
Definition main (args : Args) (w : World) : World * Outcome :=
  let output_dir := resolve w (parse (args_path args)) in
  match (if path_exists w output_dir then (w, Done)
         else mkdir output_dir true false w) with
  | (w1, Done) => run (create_plugin (args_name args) output_dir) w1
  | (w1, Raised e) => (w1, Raised e)
  end.

(** Worlds for the example of a name with ".." components,
    "../../../__init__": an output directory close to the root directory and
    one four levels down, each with the directory that the path of the test
    file passes through. *)
Definition example_shallow : World :=
  mkWorld []
    (<[ ["__init__"; "tests"; "test_.."] := Dir ]>
     (<[ ["__init__"; "tests"] := Dir ]>
     (<[ ["__init__"] := Dir ]>
     (<[ ["out"] := Dir ]> ∅)))) [].
Definition example_deep : World :=
  mkWorld []
    (<[ ["a"; "__init__"; "tests"; "test_.."] := Dir ]>
     (<[ ["a"; "__init__"; "tests"] := Dir ]>
     (<[ ["a"; "__init__"] := Dir ]>
     (<[ ["a"; "b"; "c"; "d"] := Dir ]>
     (<[ ["a"; "b"; "c"] := Dir ]>
     (<[ ["a"; "b"] := Dir ]>
     (<[ ["a"] := Dir ]> ∅))))))) [].

(** A world with the nested directory [/out/a/b]. *)
Definition example_nested : World :=
  mkWorld []
    (<[ ["out"; "a"; "b"] := Dir ]>
     (<[ ["out"; "a"] := Dir ]>
     (<[ ["out"] := Dir ]> ∅))) [].

(** Worlds for the examples of [main]: a home directory as working directory,
    and a root directory that holds a regular file [/out]. *)
Definition example_home : World :=
  mkWorld ["home"] (<[ ["home"] := Dir ]> ∅) [].
Definition example_file_world : World :=
  mkWorld [] (<[ ["out"] := File "notes" ]> ∅) [].

(** * Facts about the string operations *)

#[local] Arguments String.append !_ _ / : simpl nomatch.

Section StrFacts.

Lemma append_nil_r (s : string) : s +:+ EmptyString = s.
Proof. induction s as [|c s IH]; simpl; [reflexivity | now rewrite IH]. Qed.

Lemma append_assoc (a b c : string) : (a +:+ b) +:+ c = a +:+ (b +:+ c).
Proof. induction a as [|x a IH]; simpl; [reflexivity | now rewrite IH]. Qed.

Lemma append_length (a b : string) :
  String.length (a +:+ b) = String.length a + String.length b.
Proof. induction a as [|x a IH]; simpl; [reflexivity | now rewrite IH]. Qed.

Lemma append_inv_head (a b c : string) : a +:+ b = a +:+ c -> b = c.
Proof. induction a as [|x a IH]; simpl; intros H; [assumption | injection H; auto]. Qed.

Lemma after_prefix_Some (s prefix rest : string) :
  Str.after_prefix s prefix = Some rest <-> s = prefix +:+ rest.
Proof.
  revert s. induction prefix as [|p prefix IH]; intros s; simpl.
  - split; intros H; [now injection H | now subst].
  - destruct s as [|c s].
    + split; intros H; discriminate.
    + destruct (Ascii.eqb_spec c p) as [->|Hne].
      * rewrite IH. simpl. split; intros H; [now subst | now injection H].
      * simpl. split; intros H; [discriminate | injection H; intros; congruence].
Qed.

Lemma after_prefix_startswith (s prefix : string) :
  Str.startswith s prefix = true <-> exists rest, Str.after_prefix s prefix = Some rest.
Proof.
  revert s. induction prefix as [|p prefix IH]; intros s; simpl.
  - split; [eauto | reflexivity].
  - destruct s as [|c s].
    + split; [discriminate | intros [r Hr]; discriminate].
    + destruct (Ascii.eqb c p); [apply IH |].
      split; [discriminate | intros [r Hr]; discriminate].
Qed.

Lemma startswith_spec (s prefix : string) :
  Str.startswith s prefix = true <-> exists rest, s = prefix +:+ rest.
Proof.
  rewrite after_prefix_startswith.
  split; intros [r Hr]; exists r; now apply after_prefix_Some.
Qed.

Lemma after_prefix_None (s prefix : string) :
  Str.after_prefix s prefix = None <-> Str.startswith s prefix = false.
Proof.
  destruct (Str.startswith s prefix) eqn:E.
  - apply after_prefix_startswith in E as [r ->]. split; discriminate.
  - split; [reflexivity | intros _].
    destruct (Str.after_prefix s prefix) eqn:E'; [|reflexivity].
    assert (Str.startswith s prefix = true) by (apply after_prefix_startswith; eauto).
    congruence.
Qed.

Lemma removeprefix_spec (s prefix : string) :
  (forall rest, s = prefix +:+ rest -> Str.removeprefix s prefix = rest)
  /\ (Str.startswith s prefix = false -> Str.removeprefix s prefix = s).
Proof.
  unfold Str.removeprefix. split.
  - intros rest H. apply after_prefix_Some in H. now rewrite H.
  - intros H. apply after_prefix_None in H. now rewrite H.
Qed.

(** *** The scan of [replace] does not depend on spare fuel *)

Variables old new : string.
Hypothesis old_nonempty : old <> EmptyString.

Lemma after_prefix_shorter (s rest : string) :
  Str.after_prefix s old = Some rest -> String.length rest < String.length s.
Proof using old_nonempty.
  intros H. apply after_prefix_Some in H. subst s. rewrite append_length.
  destruct old; [congruence | simpl; lia].
Qed.

Lemma replace_scan_fuel (f f' : nat) (s : string) :
  String.length s <= f -> String.length s <= f' ->
  Str.replace_scan f s old new = Str.replace_scan f' s old new.
Proof using old_nonempty.
  revert f' s. induction f as [|f IH]; intros f' s Hf Hf'.
  - destruct s; [|simpl in Hf; lia].
    destruct f'; simpl; [reflexivity|].
    destruct old; [congruence | reflexivity].
  - destruct f' as [|f'].
    + destruct s; [|simpl in Hf'; lia]. simpl.
      destruct old; [congruence | reflexivity].
    + simpl. destruct (Str.after_prefix s old) as [rest|] eqn:E.
      * apply after_prefix_shorter in E. f_equal. apply IH; lia.
      * destruct s as [|c s]; [reflexivity|]. simpl in Hf, Hf'.
        f_equal. apply IH; lia.
Qed.

Lemma replace_unfold (s : string) :
  Str.replace s old new = Str.replace_scan (String.length s) s old new.
Proof using old_nonempty. unfold Str.replace. destruct old; [congruence | reflexivity]. Qed.

Lemma replace_nil : Str.replace EmptyString old new = EmptyString.
Proof using old_nonempty. now rewrite replace_unfold. Qed.

(** At an occurrence of [old] the scan emits [new] and resumes after it. *)
Lemma replace_hit (rest : string) :
  Str.replace (old +:+ rest) old new = new +:+ Str.replace rest old new.
Proof using old_nonempty.
  rewrite !replace_unfold.
  assert (E : Str.after_prefix (old +:+ rest) old = Some rest)
    by now apply after_prefix_Some.
  pose proof (after_prefix_shorter _ _ E) as Hlt.
  destruct (String.length (old +:+ rest)) as [|n] eqn:En; [lia|].
  simpl. rewrite E. f_equal. apply replace_scan_fuel; lia.
Qed.

(** Elsewhere it copies one character. *)
Lemma replace_miss (c : ascii) (s : string) :
  Str.startswith (String c s) old = false ->
  Str.replace (String c s) old new = String c (Str.replace s old new).
Proof using old_nonempty.
  intros H. apply after_prefix_None in H. rewrite !replace_unfold.
  cbn [String.length Str.replace_scan]. now rewrite H.
Qed.

(** Text without an occurrence of [old] is left as it is. *)
Lemma replace_absent (s : string) :
  ~ occurs old s -> Str.replace s old new = s.
Proof using old_nonempty.
  induction s as [|c s IH]; intros Hno; [apply replace_nil|].
  rewrite replace_miss.
  - f_equal. apply IH. intros (pre & post & ->).
    apply Hno. now exists (String c pre), post.
  - destruct (Str.startswith (String c s) old) eqn:E; [|reflexivity].
    apply startswith_spec in E as [rest E]. exfalso. apply Hno.
    exists EmptyString, rest. exact E.
Qed.

End StrFacts.

(** Replacing one character by another is a character-wise map. *)
Lemma replace_char (a b : ascii) (s : string) :
  Str.replace s (String a EmptyString) (String b EmptyString)
  = Str.map_chars (fun c => if Ascii.eqb c a then b else c) s.
Proof.
  assert (Hne : String a EmptyString <> EmptyString) by discriminate.
  induction s as [|c s IH]; [now apply replace_nil|].
  cbn [Str.map_chars]. destruct (Ascii.eqb_spec c a) as [->|Hca].
  - change (String a s) with (String a EmptyString +:+ s).
    rewrite replace_hit by assumption. rewrite IH. reflexivity.
  - rewrite replace_miss; [now rewrite IH | assumption |].
    simpl. destruct (Ascii.eqb_spec c a); [contradiction | reflexivity].
Qed.

Lemma module_name_map (name : string) :
  module_name name = Str.map_chars hyphen_to_underscore name.
Proof. apply replace_char. Qed.

Lemma map_chars_app (f : ascii -> ascii) (a b : string) :
  Str.map_chars f (a +:+ b) = Str.map_chars f a +:+ Str.map_chars f b.
Proof. induction a as [|c a IH]; simpl; [reflexivity | now rewrite IH]. Qed.

Lemma map_chars_length (f : ascii -> ascii) (s : string) :
  String.length (Str.map_chars f s) = String.length s.
Proof. induction s as [|c s IH]; simpl; [reflexivity | now rewrite IH]. Qed.

Lemma map_chars_compose (f g : ascii -> ascii) (s : string) :
  Str.map_chars f (Str.map_chars g s) = Str.map_chars (fun c => f (g c)) s.
Proof. induction s as [|c s IH]; simpl; [reflexivity | now rewrite IH]. Qed.

Lemma map_chars_ext (f g : ascii -> ascii) (s : string) :
  (forall c, f c = g c) -> Str.map_chars f s = Str.map_chars g s.
Proof. intros H. induction s as [|c s IH]; simpl; [reflexivity | now rewrite H, IH]. Qed.

Lemma contains_app (a b : string) (c : ascii) :
  Str.contains (a +:+ b) c = Str.contains a c || Str.contains b c.
Proof. induction a as [|x a IH]; simpl; [reflexivity | now rewrite IH, orb_assoc]. Qed.

Lemma contains_map_chars (f : ascii -> ascii) (s : string) (c : ascii) :
  (forall x, Ascii.eqb (f x) c = false) -> Str.contains (Str.map_chars f s) c = false.
Proof. intros H. induction s as [|x s IH]; simpl; [reflexivity | now rewrite H, IH]. Qed.

Lemma hyphen_to_underscore_no_hyphen (c : ascii) :
  Ascii.eqb (hyphen_to_underscore c) "-" = false.
Proof.
  unfold hyphen_to_underscore. destruct (Ascii.eqb c "-") eqn:E; [reflexivity | exact E].
Qed.

Lemma hyphen_upper (c : ascii) :
  hyphen_to_underscore (Str.upper_char c) = Str.upper_char (hyphen_to_underscore c).
Proof. destruct c as [[] [] [] [] [] [] [] []]; reflexivity. Qed.

Lemma hyphen_lower (c : ascii) :
  hyphen_to_underscore (Str.lower_char c) = Str.lower_char (hyphen_to_underscore c).
Proof. destruct c as [[] [] [] [] [] [] [] []]; reflexivity. Qed.

(** * Facts about path resolution and the filesystem calls *)

Section Resolution.

Implicit Types (m : gmap (list string) Node) (w : World) (p : Path).

Lemma extends_refl m : extends m m.
Proof. intros loc [|c] H; eauto. Qed.

Lemma extends_trans m1 m2 m3 : extends m1 m2 -> extends m2 m3 -> extends m1 m3.
Proof.
  intros H12 H23 loc n H. specialize (H12 loc n H). destruct n as [|c].
  - exact (H23 loc Dir H12).
  - destruct H12 as [c' H12]. exact (H23 loc (File c') H12).
Qed.

Lemma adds_dirs_refl m : adds_dirs m m.
Proof. intros loc. destruct (m !! loc); auto. Qed.

Lemma adds_dirs_trans m1 m2 m3 : adds_dirs m1 m2 -> adds_dirs m2 m3 -> adds_dirs m1 m3.
Proof.
  intros H12 H23 loc. specialize (H12 loc). specialize (H23 loc).
  destruct (m1 !! loc) as [n|].
  - now rewrite H12 in H23.
  - destruct H12 as [H12|H12]; rewrite H12 in H23; auto.
Qed.

Lemma adds_dirs_extends m m' : adds_dirs m m' -> extends m m'.
Proof.
  intros H loc n Hn. specialize (H loc). rewrite Hn in H.
  destruct n; eauto.
Qed.

Lemma adds_dirs_insert m loc : m !! loc = None -> adds_dirs m (<[loc := Dir]> m).
Proof.
  intros Hnone loc'. destruct (decide (loc = loc')) as [<-|Hne].
  - rewrite Hnone, lookup_insert_eq. now right.
  - rewrite lookup_insert_ne by assumption. destruct (m !! loc'); auto.
Qed.

Lemma extends_insert_file m loc data :
  m !! loc <> Some Dir -> extends m (<[loc := File data]> m).
Proof.
  intros Hnd loc' n Hn. destruct (decide (loc = loc')) as [<-|Hne].
  - rewrite lookup_insert_eq. destruct n; [congruence | eauto].
  - rewrite lookup_insert_ne by assumption. destruct n; eauto.
Qed.

Lemma node_at_extends m m' loc :
  extends m m' -> node_at m loc = Some Dir -> node_at m' loc = Some Dir.
Proof. intros H. destruct loc; simpl; [auto | apply (H _ Dir)]. Qed.

Lemma node_at_extends_file m m' loc c :
  extends m m' -> node_at m loc = Some (File c) -> exists c', node_at m' loc = Some (File c').
Proof. intros H. destruct loc; simpl; [discriminate | apply (H _ (File c))]. Qed.

(** Resolution only looks at directories, which [extends] keeps. *)
Lemma walk_extends m m' cur comps loc :
  extends m m' -> walk m cur comps = inr loc -> walk m' cur comps = inr loc.
Proof.
  intros Hext. revert cur. induction comps as [|c rest IH]; intros cur; simpl; [auto|].
  destruct (node_at m cur) as [[|data]|] eqn:E; try discriminate.
  rewrite (node_at_extends _ _ _ Hext E).
  destruct (String.eqb c ".."); [apply IH|].
  destruct (Nat.ltb NAME_MAX (String.length c)); [discriminate | apply IH].
Qed.

Lemma walk_app m cur a b :
  walk m cur (a ++ b)
  = match walk m cur a with
    | inr mid => walk m mid b
    | inl e => inl e
    end.
Proof.
  revert cur. induction a as [|c a IH]; intros cur; simpl; [reflexivity|].
  destruct (node_at m cur) as [[|data]|]; try reflexivity.
  destruct (String.eqb c ".."); [apply IH|].
  destruct (Nat.ltb NAME_MAX (String.length c)); [reflexivity | apply IH].
Qed.

(** Without ".." the location reached is the start followed by the components. *)
Lemma walk_plain m cur comps loc :
  ~ In ".." comps -> walk m cur comps = inr loc -> loc = cur ++ comps.
Proof.
  revert cur. induction comps as [|c rest IH]; intros cur Hno; simpl.
  - intros [= <-]. now rewrite app_nil_r.
  - destruct (node_at m cur) as [[|data]|]; try discriminate.
    destruct (String.eqb_spec c "..") as [->|Hc].
    + exfalso. apply Hno. now left.
    + destruct (Nat.ltb NAME_MAX (String.length c)); [discriminate|].
      intros H. apply IH in H; [|intros Hin; apply Hno; now right].
      now rewrite <- app_assoc in H.
Qed.

(** The names followed by a resolution that succeeds fit [NAME_MAX]. *)
Lemma walk_names m cur comps loc :
  walk m cur comps = inr loc ->
  Forall (fun c => c = ".." \/ String.length c <= NAME_MAX) comps.
Proof.
  revert cur. induction comps as [|c rest IH]; intros cur; simpl; [constructor|].
  destruct (node_at m cur) as [[|data]|]; try discriminate.
  destruct (String.eqb_spec c "..") as [->|Hc].
  - intros Hw. constructor; [now left | eauto].
  - destruct (Nat.ltb_spec NAME_MAX (String.length c)); [discriminate|].
    intros Hw. constructor; [now right | eauto].
Qed.

Lemma walk_step m cur c :
  c <> ".." -> String.length c <= NAME_MAX -> node_at m cur = Some Dir ->
  walk m cur [c] = inr (cur ++ [c]).
Proof.
  intros Hc Hlen Hd. simpl. rewrite Hd.
  destruct (String.eqb_spec c ".."); [contradiction|].
  destruct (Nat.ltb_spec NAME_MAX (String.length c)); [lia | reflexivity].
Qed.

Lemma walk_step_inv m cur c loc :
  walk m cur [c] = inr loc -> node_at m cur = Some Dir.
Proof. simpl. destruct (node_at m cur) as [[|data]|]; [reflexivity | discriminate..]. Qed.

Lemma stat_extends_dir w w' p :
  extends (fs w) (fs w') -> cwd w' = cwd w ->
  stat w p = Some Dir -> stat w' p = Some Dir.
Proof.
  unfold stat, start. intros Hext ->.
  destruct (check_path p); [discriminate|].
  destruct (walk (fs w) _ (tail p)) as [e|loc] eqn:E; [discriminate|].
  rewrite (walk_extends _ _ _ _ _ Hext E). now apply node_at_extends.
Qed.

Lemma is_dir_extends w w' p :
  extends (fs w) (fs w') -> cwd w' = cwd w ->
  is_dir w p = true -> is_dir w' p = true.
Proof.
  unfold is_dir. intros Hext Hcwd H.
  destruct (stat w p) as [[|c]|] eqn:E; try discriminate.
  now rewrite (stat_extends_dir _ _ _ Hext Hcwd E).
Qed.

Lemma read_text_extends w w' p c :
  extends (fs w) (fs w') -> cwd w' = cwd w ->
  read_text w p = Some c -> exists c', read_text w' p = Some c'.
Proof.
  unfold read_text, stat, start. intros Hext ->.
  destruct (check_path p); [discriminate|].
  destruct (walk (fs w) _ (tail p)) as [e|loc] eqn:E; [discriminate|].
  rewrite (walk_extends _ _ _ _ _ Hext E).
  destruct (node_at (fs w) loc) as [[|c0]|] eqn:En; try discriminate.
  intros _. destruct (node_at_extends_file _ _ _ _ Hext En) as [c' ->]. eauto.
Qed.

Lemma locate_extends w w' p loc :
  extends (fs w) (fs w') -> cwd w' = cwd w ->
  locate w p = Some loc -> locate w' p = Some loc.
Proof.
  unfold locate, start. intros Hext ->.
  destruct (walk (fs w) _ (tail p)) as [e|l] eqn:E; [discriminate|].
  now rewrite (walk_extends _ _ _ _ _ Hext E).
Qed.

Lemma is_dir_locate w p :
  is_dir w p = true
  <-> check_path p = None
      /\ exists loc, locate w p = Some loc /\ node_at (fs w) loc = Some Dir.
Proof.
  unfold is_dir, stat, locate.
  destruct (check_path p) as [e0|].
  { split; [discriminate | intros [H _]; discriminate]. }
  destruct (walk (fs w) (start w p) (tail p)) as [e|loc].
  - split; [discriminate | intros (_ & l & H & _); discriminate].
  - split.
    + destruct (node_at (fs w) loc) as [[|c]|] eqn:E; try discriminate. eauto.
    + intros (_ & l & [= <-] & ->). reflexivity.
Qed.

Lemma read_text_locate w p c :
  read_text w p = Some c
  <-> check_path p = None
      /\ exists loc, locate w p = Some loc /\ node_at (fs w) loc = Some (File c).
Proof.
  unfold read_text, stat, locate.
  destruct (check_path p) as [e0|].
  { split; [discriminate | intros [H _]; discriminate]. }
  destruct (walk (fs w) (start w p) (tail p)) as [e|loc].
  - split; [discriminate | intros (_ & l & H & _); discriminate].
  - split.
    + destruct (node_at (fs w) loc) as [[|c0]|] eqn:E; try discriminate.
      intros [= ->]. eauto.
    + intros (_ & l & [= <-] & ->). reflexivity.
Qed.

End Resolution.

Section Calls.

Implicit Types (m : gmap (list string) Node) (w : World) (p : Path).

Lemma rev_eq_cons {A} (l : list A) (x : A) (r : list A) :
  rev l = x :: r -> l = rev r ++ [x].
Proof. intros H. rewrite <- (rev_involutive l), H. reflexivity. Qed.

Lemma node_at_snoc m d x : node_at m (d ++ [x]) = m !! (d ++ [x]).
Proof. destruct d; reflexivity. Qed.

Lemma node_at_snoc_cons m d x rest : node_at m (d ++ x :: rest) = m !! (d ++ x :: rest).
Proof. destruct d; reflexivity. Qed.

Lemma walk_parent_inr w p init d :
  walk_parent w p init = inr d
  <-> walk (fs w) (start w p) init = inr d /\ node_at (fs w) d = Some Dir.
Proof.
  unfold walk_parent. destruct (walk (fs w) (start w p) init) as [e|d'].
  - split; [discriminate | intros [H _]; discriminate].
  - destruct (node_at (fs w) d') as [[|c]|] eqn:E.
    + split; [intros [= <-]; auto | intros [[= <-] _]; reflexivity].
    + split; [discriminate | intros [[= <-] H]; congruence].
    + split; [discriminate | intros [[= <-] H]; congruence].
Qed.

(** [os.mkdir] succeeds exactly by adding one directory to an existing one. *)
Lemma os_mkdir_inr p w w' :
  os_mkdir p w = inr w'
  <-> check_path p = None
      /\ exists init last d,
        tail p = init ++ [last]
        /\ walk (fs w) (start w p) init = inr d
        /\ node_at (fs w) d = Some Dir
        /\ last <> ".."
        /\ String.length last <= NAME_MAX
        /\ fs w !! (d ++ [last]) = None
        /\ w' = set_node w (d ++ [last]) Dir.
Proof.
  unfold os_mkdir. split.
  - destruct (check_path p); [discriminate|].
    destruct (rev (tail p)) as [|last rinit] eqn:Er; [discriminate|].
    apply rev_eq_cons in Er.
    destruct (walk_parent w p (rev rinit)) as [e|d] eqn:Ew; [discriminate|].
    apply walk_parent_inr in Ew as [Ew Hd].
    destruct (String.eqb_spec last ".."); [discriminate|].
    destruct (Nat.ltb_spec NAME_MAX (String.length last)); [discriminate|].
    destruct (fs w !! (d ++ [last])) eqn:El; [discriminate|].
    intros [= <-]. split; [reflexivity|]. exists (rev rinit), last, d. auto 10.
  - intros (-> & init & last & d & Ht & Ew & Hd & Hl & Hlen & Hn & ->).
    rewrite Ht, rev_app_distr. simpl. rewrite rev_involutive.
    assert (Hp : walk_parent w p init = inr d) by now apply walk_parent_inr.
    rewrite Hp. destruct (String.eqb_spec last ".."); [contradiction|].
    destruct (Nat.ltb_spec NAME_MAX (String.length last)); [lia|].
    now rewrite Hn.
Qed.

(** [open(p, "w")] succeeds exactly on a name in an existing directory, where
    there is no directory of that name. *)
Lemma os_open_inr p w loc :
  os_open p w = inr loc
  <-> check_path p = None
      /\ exists init last d,
        tail p = init ++ [last]
        /\ walk (fs w) (start w p) init = inr d
        /\ node_at (fs w) d = Some Dir
        /\ last <> ".."
        /\ String.length last <= NAME_MAX
        /\ fs w !! (d ++ [last]) <> Some Dir
        /\ loc = d ++ [last].
Proof.
  unfold os_open. split.
  - destruct (check_path p); [discriminate|].
    destruct (rev (tail p)) as [|last rinit] eqn:Er; [discriminate|].
    apply rev_eq_cons in Er.
    destruct (walk_parent w p (rev rinit)) as [e|d] eqn:Ew; [discriminate|].
    apply walk_parent_inr in Ew as [Ew Hd].
    destruct (String.eqb_spec last ".."); [discriminate|].
    destruct (Nat.ltb_spec NAME_MAX (String.length last)); [discriminate|].
    destruct (fs w !! (d ++ [last])) as [[|c]|] eqn:El; [discriminate| |];
      intros [= <-]; (split; [reflexivity|]);
      exists (rev rinit), last, d; rewrite El; auto 10.
  - intros (-> & init & last & d & Ht & Ew & Hd & Hl & Hlen & Hn & ->).
    rewrite Ht, rev_app_distr. simpl. rewrite rev_involutive.
    assert (Hp : walk_parent w p init = inr d) by now apply walk_parent_inr.
    rewrite Hp. destruct (String.eqb_spec last ".."); [contradiction|].
    destruct (Nat.ltb_spec NAME_MAX (String.length last)); [lia|].
    destruct (fs w !! (d ++ [last])) as [[|c]|]; [congruence | reflexivity..].
Qed.

(** The location of a path whose parent directory and last component are known. *)
Lemma locate_last w p init last d :
  tail p = init ++ [last] -> walk (fs w) (start w p) init = inr d ->
  node_at (fs w) d = Some Dir -> last <> ".." -> String.length last <= NAME_MAX ->
  locate w p = Some (d ++ [last]).
Proof.
  intros Ht Ew Hd Hl Hlen. unfold locate. rewrite Ht, walk_app, Ew.
  now rewrite (walk_step _ _ _ Hl Hlen Hd).
Qed.

Lemma os_mkdir_post p w w' :
  os_mkdir p w = inr w' ->
  adds_dirs (fs w) (fs w') /\ cwd w' = cwd w /\ stdout w' = stdout w
  /\ is_dir w' p = true.
Proof.
  intros H.
  apply os_mkdir_inr in H as (Hc & init & last & d & Ht & Ew & Hd & Hl & Hlen & Hn & ->).
  assert (Hadd : adds_dirs (fs w) (<[d ++ [last] := Dir]> (fs w)))
    by now apply adds_dirs_insert.
  split; [exact Hadd|]. split; [reflexivity|]. split; [reflexivity|].
  apply is_dir_locate. split; [exact Hc|]. exists (d ++ [last]). split.
  - apply locate_extends with (w := w); [now apply adds_dirs_extends | reflexivity |].
    now apply locate_last with init.
  - rewrite node_at_snoc. apply lookup_insert_eq.
Qed.

(** [Path.mkdir] only ever adds directories, and when it returns the path
    names a directory. *)
Lemma mkdir_fuel_post fuel p parents exist_ok w w' o :
  mkdir_fuel fuel p parents exist_ok w = (w', o) ->
  adds_dirs (fs w) (fs w') /\ cwd w' = cwd w /\ stdout w' = stdout w
  /\ (o = Done -> is_dir w' p = true).
Proof.
  revert p parents exist_ok w w' o.
  assert (Hsame : forall w, adds_dirs (fs w) (fs w) /\ cwd w = cwd w /\ stdout w = stdout w)
    by (intros; split; [apply adds_dirs_refl | auto]).
  assert (Hhandler : forall p exist_ok w w' o e,
    (if exist_ok && is_dir w p then (w, Done) else (w, Raised e)) = (w', o) ->
    adds_dirs (fs w) (fs w') /\ cwd w' = cwd w /\ stdout w' = stdout w
    /\ (o = Done -> is_dir w' p = true)).
  { intros p exist_ok w w' o e H.
    destruct exist_ok, (is_dir w p) eqn:Ed; simpl in H; injection H as <- <-;
      (split; [apply adds_dirs_refl|]); repeat split; auto; discriminate. }
  assert (Hraise : forall w w' o e,
    (w, Raised e) = (w', o) ->
    forall p, adds_dirs (fs w) (fs w') /\ cwd w' = cwd w /\ stdout w' = stdout w
    /\ (o = Done -> is_dir w' p = true)).
  { intros w w' o e [= <- <-] p.
    (split; [apply adds_dirs_refl|]); repeat split; auto; discriminate. }
  induction fuel as [|fuel IH]; intros p parents exist_ok w w' o; simpl.
  - destruct (os_mkdir p w) as [[| | | | | |]|w1] eqn:E; try apply Hhandler.
    + destruct (negb parents || bool_decide (parent p = p));
        intros H; exact (Hraise _ _ _ _ H p).
    + intros H; exact (Hraise _ _ _ _ H p).
    + intros [= <- <-]. apply os_mkdir_post in E as (H1 & H2 & H3 & H4). auto.
  - destruct (os_mkdir p w) as [[| | | | | |]|w1] eqn:E; try apply Hhandler.
    + destruct (negb parents || bool_decide (parent p = p)).
      * intros H; exact (Hraise _ _ _ _ H p).
      * destruct (mkdir_fuel fuel (parent p) true true w) as [w1 [|e]] eqn:E1.
        -- intros E2. apply IH in E1 as (A1 & B1 & C1 & _).
           apply IH in E2 as (A2 & B2 & C2 & D2).
           split; [eapply adds_dirs_trans; eassumption|].
           repeat split; [congruence | congruence | exact D2].
        -- intros [= <- <-]. apply IH in E1 as (A1 & B1 & C1 & _).
           repeat split; auto; discriminate.
    + intros H; exact (Hraise _ _ _ _ H p).
    + intros [= <- <-]. apply os_mkdir_post in E as (H1 & H2 & H3 & H4). auto.
Qed.

(** On an existing directory [os.mkdir] raises [FileExistsError]. *)
Lemma os_mkdir_exists p w :
  is_dir w p = true -> os_mkdir p w = inl FileExistsError.
Proof.
  intros Hd. apply is_dir_locate in Hd as (Hc & loc & Hloc & Hnode).
  unfold locate in Hloc. unfold os_mkdir. rewrite Hc.
  destruct (rev (tail p)) as [|last rinit] eqn:Er; [reflexivity|].
  apply rev_eq_cons in Er. rewrite Er, walk_app in Hloc.
  destruct (walk (fs w) (start w p) (rev rinit)) as [e|d] eqn:Ew; [discriminate|].
  assert (Hdd : node_at (fs w) d = Some Dir).
  { destruct (walk (fs w) d [last]) eqn:E1; [discriminate|].
    now apply walk_step_inv in E1. }
  assert (Hp : walk_parent w p (rev rinit) = inr d) by now apply walk_parent_inr.
  rewrite Hp.
  destruct (String.eqb_spec last "..") as [->|Hl]; [reflexivity|].
  simpl in Hloc. rewrite Hdd in Hloc.
  destruct (String.eqb_spec last ".."); [contradiction|].
  destruct (Nat.ltb NAME_MAX (String.length last)); [discriminate|].
  injection Hloc as <-. rewrite node_at_snoc in Hnode. now rewrite Hnode.
Qed.

(** On an existing directory [Path.mkdir(exist_ok=True)] does nothing. *)
Lemma mkdir_fuel_exists fuel p parents w :
  is_dir w p = true -> mkdir_fuel fuel p parents true w = (w, Done).
Proof.
  intros Hd. pose proof (os_mkdir_exists _ _ Hd) as E.
  destruct fuel; simpl; rewrite E, Hd; reflexivity.
Qed.

(** A [write_text] that completes puts the text in a regular file of an
    existing directory. *)
Lemma write_text_Done p data w w' :
  write_text p data w = (w', Done)
  <-> Utf8.valid data = true
      /\ exists loc, os_open p w = inr loc /\ w' = set_node w loc (File data).
Proof.
  unfold write_text. destruct (os_open p w) as [e|loc].
  - split; [discriminate | intros (_ & l & H & _); discriminate].
  - destruct (Utf8.valid data).
    + split; [intros [= <-]; eauto | intros (_ & l & [= <-] & ->); reflexivity].
    + split; [discriminate | intros [H _]; discriminate].
Qed.

Lemma os_open_locate p w loc :
  os_open p w = inr loc ->
  check_path p = None /\ locate w p = Some loc /\ fs w !! loc <> Some Dir /\ loc <> [].
Proof.
  intros H.
  apply os_open_inr in H as (Hc & init & last & d & Ht & Ew & Hd & Hl & Hlen & Hn & ->).
  split; [exact Hc|]. split; [now apply locate_last with init|]. split; [exact Hn|].
  destruct d; discriminate.
Qed.

(** Whatever its outcome, [write_text] removes nothing; when it completes the
    file holds the text. *)
Lemma write_text_post p data w w' o :
  write_text p data w = (w', o) ->
  extends (fs w) (fs w') /\ cwd w' = cwd w /\ stdout w' = stdout w
  /\ (o = Done -> read_text w' p = Some data).
Proof.
  unfold write_text. destruct (os_open p w) as [e|loc] eqn:E.
  - intros [= <- <-]. split; [apply extends_refl|]. repeat split; auto; discriminate.
  - apply os_open_locate in E as (Hc & Hloc & Hn & Hne).
    assert (Hext : forall text, extends (fs w) (<[loc := File text]> (fs w)))
      by (intros text; now apply extends_insert_file).
    destruct (Utf8.valid data); intros [= <- <-].
    + split; [apply Hext|]. split; [reflexivity|]. split; [reflexivity|]. intros _.
      apply read_text_locate. split; [exact Hc|]. exists loc. split.
      * apply locate_extends with (w := w); [apply Hext | reflexivity | exact Hloc].
      * destruct loc; [contradiction | apply lookup_insert_eq].
    + split; [apply Hext|]. repeat split; auto; discriminate.
Qed.

(** Writing again where a file was written: same location, no error. *)
Lemma write_text_again p data w w1 u :
  write_text p data w = (w1, Done) -> extends (fs w1) (fs u) -> cwd u = cwd w ->
  exists loc,
    w1 = set_node w loc (File data)
    /\ os_open p u = inr loc.
Proof.
  intros H Hext Hcwd.
  pose proof (write_text_post _ _ _ _ _ H) as (Hext1 & _).
  apply write_text_Done in H as (_ & loc & H & ->).
  apply os_open_inr in H as (Hc & init & last & d & Ht & Ew & Hd & Hl & Hlen & Hn & ->).
  exists (d ++ [last]). split; [reflexivity|].
  assert (Hwu : extends (fs w) (fs u)) by (eapply extends_trans; eassumption).
  apply os_open_inr. split; [exact Hc|]. exists init, last, d. repeat split; auto.
  - unfold start. rewrite Hcwd. now apply walk_extends with (fs w).
  - now apply node_at_extends with (fs w).
  - destruct (Hext (d ++ [last]) (File data)) as [c' Hc'];
      [apply lookup_insert_eq | congruence].
Qed.

End Calls.

(** * Facts about runs *)

Section Runs.

Implicit Types (w : World) (p : Path) (prog : list Action).

(** Whatever the outcome, a statement removes nothing and leaves the working
    directory alone. *)
Lemma step_extends a w w' o :
  step a w = (w', o) -> extends (fs w) (fs w') /\ cwd w' = cwd w.
Proof.
  destruct a as [s|p parents exist_ok|p data]; simpl.
  - intros [= <- <-]. split; [apply extends_refl | reflexivity].
  - intros H. apply mkdir_fuel_post in H as (H1 & H2 & _).
    split; [now apply adds_dirs_extends | assumption].
  - intros H. apply write_text_post in H as (H1 & H2 & _). auto.
Qed.

Lemma run_extends prog w w' o :
  run prog w = (w', o) -> extends (fs w) (fs w') /\ cwd w' = cwd w.
Proof.
  revert w. induction prog as [|a rest IH]; intros w; simpl.
  - intros [= <- <-]. split; [apply extends_refl | reflexivity].
  - destruct (step a w) as [w1 [|e]] eqn:E; apply step_extends in E as [E1 E2].
    + intros H. apply IH in H as [H1 H2].
      split; [eapply extends_trans; eassumption | congruence].
    + intros [= <- <-]. auto.
Qed.

Lemma run_app prog1 prog2 w :
  run (prog1 ++ prog2) w
  = match run prog1 w with
    | (w1, Done) => run prog2 w1
    | (w1, Raised e) => (w1, Raised e)
    end.
Proof.
  revert w. induction prog1 as [|a rest IH]; intros w; simpl; [reflexivity|].
  destruct (step a w) as [w1 [|e]]; [apply IH | reflexivity].
Qed.

Lemma step_stdout a w w' o :
  step a w = (w', o) ->
  stdout w' = stdout w ++ match a with Print s => [s] | _ => [] end.
Proof.
  destruct a as [s|p parents exist_ok|p data]; simpl.
  - intros [= <- <-]. reflexivity.
  - intros H. apply mkdir_fuel_post in H as (_ & _ & H & _). now rewrite app_nil_r.
  - intros H. apply write_text_post in H as (_ & _ & H & _). now rewrite app_nil_r.
Qed.

(** A run that completes has printed every message, in order. *)
Lemma run_stdout prog w w' :
  run prog w = (w', Done) -> stdout w' = stdout w ++ printed prog.
Proof.
  revert w. induction prog as [|a rest IH]; intros w; simpl.
  - intros [= <-]. now rewrite app_nil_r.
  - destruct (step a w) as [w1 [|e]] eqn:E; [|discriminate].
    intros H. apply IH in H. apply step_stdout in E. rewrite H, E.
    now rewrite <- app_assoc.
Qed.

(** After a run that completes, every directory asked for is a directory. *)
Lemma run_mkdir prog w w' p parents exist_ok :
  run prog w = (w', Done) -> In (Mkdir p parents exist_ok) prog -> is_dir w' p = true.
Proof.
  revert w. induction prog as [|a rest IH]; intros w; simpl; [tauto|].
  destruct (step a w) as [w1 [|e]] eqn:E; [|discriminate].
  intros Hrun [->|Hin]; [|eauto].
  simpl in E. apply mkdir_fuel_post in E as (_ & _ & _ & Hd).
  apply run_extends in Hrun as [H1 H2].
  apply is_dir_extends with w1; auto.
Qed.

(** After a run, whether it completed or not, every file whose write completed
    is a regular file. *)
Lemma run_written prog w w' o p data :
  run prog w = (w', o) -> In (p, data) (written prog) ->
  o = Done -> exists c, read_text w' p = Some c.
Proof.
  revert w. induction prog as [|a rest IH]; intros w; simpl; [tauto|].
  destruct (step a w) as [w1 [|e]] eqn:E; [|intros [= <- <-] _; discriminate].
  intros Hrun Hin Ho. apply in_app_or in Hin as [Hin|Hin]; [|eauto].
  destruct a as [s|q parents exist_ok|q data']; simpl in Hin; try tauto.
  destruct Hin as [[= -> ->]|[]].
  simpl in E. apply write_text_post in E as (_ & _ & _ & Hr). specialize (Hr eq_refl).
  apply run_extends in Hrun as [H1 H2].
  now apply read_text_extends with w1 data.
Qed.

(** Running again from the state a completed run left behind: no error, and
    the filesystem is the one the first run produced.  The statement is
    generalised to a state [t] that agrees, location by location, either with
    the first run's current state or with its final state. *)
Lemma rerun_general prog :
  exist_ok_everywhere prog ->
  forall s final t,
    run prog s = (final, Done) ->
    cwd t = cwd s ->
    extends (fs final) (fs t) ->
    (forall loc, fs t !! loc = fs s !! loc \/ fs t !! loc = fs final !! loc) ->
    exists t',
      run prog t = (t', Done) /\ fs t' = fs final /\ cwd t' = cwd t
      /\ stdout t' = stdout t ++ printed prog.
Proof.
  induction prog as [|a rest IH]; intros Hok s final t Hrun Hcwd Hext Hagree.
  - simpl in Hrun. injection Hrun as <-. exists t. simpl.
    repeat split; [|now rewrite app_nil_r].
    apply map_eq. intros loc. destruct (Hagree loc); assumption.
  - apply Forall_cons in Hok as [Ha Hok]. simpl in Hrun.
    destruct (step a s) as [s1 [|e]] eqn:E; [|discriminate].
    pose proof (run_extends _ _ _ _ Hrun) as [Hs1 Hc1].
    destruct a as [msg|p parents exist_ok|p data].
    + (* print *)
      simpl in E. injection E as <-.
      destruct (IH Hok (print msg s) final (print msg t)) as (t' & R & F & C & O); auto.
      exists t'. simpl. repeat split; auto.
      rewrite O. simpl. now rewrite <- app_assoc.
    + (* mkdir: the directory is there already *)
      subst exist_ok. simpl in E.
      pose proof (mkdir_fuel_post _ _ _ _ _ _ _ E) as (Hadd & Hcs & _ & Hd).
      assert (Hdt : is_dir t p = true).
      { apply is_dir_extends with s1; [eapply extends_trans; eassumption | congruence | auto]. }
      destruct (IH Hok s1 final t) as (t' & R & F & C & O); auto; [congruence | |].
      { intros loc. destruct (Hagree loc) as [H|H]; [|now right].
        specialize (Hadd loc). rewrite <- H in Hadd.
        destruct (fs t !! loc) as [n|] eqn:Et; [now left|].
        destruct Hadd as [Hadd|Hadd]; [left; congruence|].
        apply (Hs1 _ Dir) in Hadd. apply (Hext _ Dir) in Hadd. congruence. }
      exists t'. simpl. unfold mkdir. rewrite (mkdir_fuel_exists _ _ _ _ Hdt). auto.
    + (* write_text: the file is overwritten where it is *)
      simpl in E. pose proof (proj1 (write_text_Done _ _ _ _) E) as (Hvalid & _).
      destruct (write_text_again p data s s1 t E) as (loc & -> & Ew);
        [eapply extends_trans; eassumption | assumption |].
      set (t1 := set_node t loc (File data)) in *.
      destruct (IH Hok (set_node s loc (File data)) final t1) as (t' & R & F & C & O); auto.
      { intros loc' n Hn. subst t1. simpl.
        destruct (decide (loc = loc')) as [<-|Hne].
        - rewrite lookup_insert_eq.
          destruct (Hs1 loc (File data)) as [c' Hc']; [apply lookup_insert_eq|].
          rewrite Hc' in Hn. injection Hn as <-. eauto.
        - rewrite lookup_insert_ne by assumption. exact (Hext loc' n Hn). }
      { intros loc'. subst t1. simpl.
        destruct (decide (loc = loc')) as [<-|Hne].
        - left. now rewrite !lookup_insert_eq.
        - rewrite !lookup_insert_ne by assumption. apply Hagree. }
      exists t'. simpl. unfold write_text. rewrite Ew, Hvalid. auto.
Qed.

End Runs.

(** * The shape of the generator's script *)

Section Script.

Variables (name : string) (output_dir : Path).

Lemma written_create_plugin :
  written (create_plugin name output_dir)
  = [ (plugin_dir name output_dir </> "pyproject.toml", pyproject name (module_name name));
      (plugin_dir name output_dir </> "README.md", readme name);
      (module_dir name output_dir </> "__init__.py", init_py name);
      (tests_dir name output_dir </> "__init__.py", EmptyString);
      (tests_dir name output_dir </> ("test_" +:+ module_name name +:+ ".py"), test_py name);
      (plugin_dir name output_dir </> "pytest.ini", pytest_ini);
      (plugin_dir name output_dir </> ".gitignore", gitignore) ].
Proof. unfold create_plugin. destruct (negb _); reflexivity. Qed.

Lemma mkdir_calls_create_plugin :
  mkdir_calls (create_plugin name output_dir)
  = [ Mkdir (plugin_dir name output_dir) true true;
      Mkdir (module_dir name output_dir) true true;
      Mkdir (tests_dir name output_dir) true true ].
Proof. unfold create_plugin. destruct (negb _); reflexivity. Qed.

Lemma printed_create_plugin :
  printed (create_plugin name output_dir)
  = (if Str.startswith name "datasette-" then [] else [warning])
    ++ [ "Created plugin at: " +:+ to_string (plugin_dir name output_dir);
         nl +:+ "Next steps:";
         "  cd " +:+ to_string (plugin_dir name output_dir);
         "  pip install -e '.[test]'";
         "  pytest" ].
Proof. unfold create_plugin. destruct (Str.startswith _ _); reflexivity. Qed.

Lemma exist_ok_create_plugin : exist_ok_everywhere (create_plugin name output_dir).
Proof.
  unfold create_plugin, exist_ok_everywhere.
  destruct (negb _); repeat constructor.
Qed.

Lemma in_mkdir_calls (prog : list Action) (a : Action) :
  In a (mkdir_calls prog) -> In a prog.
Proof. unfold mkdir_calls. intros H. now apply filter_In in H. Qed.

End Script.

(** Output is only ever appended, and only by the script's own prints. *)
Lemma run_stdout_any (prog : list Action) (w w' : World) (o : Outcome) :
  run prog w = (w', o) ->
  exists more, stdout w' = stdout w ++ more /\ forall s, In s more -> In s (printed prog).
Proof.
  revert w. induction prog as [|a rest IH]; intros w; simpl.
  - intros [= <- <-]. exists []. split; [now rewrite app_nil_r | tauto].
  - destruct (step a w) as [w1 [|e]] eqn:E; pose proof (step_stdout _ _ _ _ E) as Hs.
    + intros H. apply IH in H as (more & Hm & Hin).
      exists (match a with Print s => [s] | _ => [] end ++ more). split.
      * rewrite Hm, Hs. now rewrite <- app_assoc.
      * intros s Hs'. apply in_app_or in Hs' as [?|?]; apply in_or_app; auto.
    + intros [= <- <-].
      exists (match a with Print s => [s] | _ => [] end). split; [assumption|].
      intros s Hs'. apply in_or_app. now left.
Qed.

(** A run raises only where one of its statements does. *)
Lemma run_raised_inv (prog : list Action) (w w' : World) (e : Exception) :
  run prog w = (w', Raised e) ->
  exists done a rest w1,
    prog = done ++ a :: rest /\ run done w = (w1, Done) /\ step a w1 = (w', Raised e).
Proof.
  revert w. induction prog as [|a rest IH]; intros w; simpl; [discriminate|].
  destruct (step a w) as [w1 [|e1]] eqn:E.
  - intros H. apply IH in H as (done & b & rest' & w2 & -> & Hd & Hs).
    exists (a :: done), b, rest', w2. simpl. rewrite E. auto.
  - intros [= <- <-]. exists [], a, rest, w. auto.
Qed.

(** * Names that are one path component *)

Section Components.

Implicit Types (w : World) (d : Path) (key : string).

Lemma split_no_sep (s : string) (sep : ascii) :
  Str.contains s sep = false -> Str.split s sep = [s].
Proof.
  induction s as [|c s IH]; simpl; [reflexivity|].
  destruct (Ascii.eqb c sep); simpl; [discriminate|].
  intros H. now rewrite (IH H).
Qed.

Lemma splitroot_relative (s : string) :
  Str.startswith s "/" = false -> splitroot s = (EmptyString, s).
Proof. intros H. apply after_prefix_None in H. unfold splitroot. now rewrite H. Qed.

Lemma is_component_spec (s : string) :
  is_component s = true
  <-> s <> EmptyString /\ s <> "." /\ s <> ".." /\ Str.contains s "/" = false.
Proof.
  unfold is_component. rewrite !andb_true_iff, !negb_true_iff.
  rewrite !String.eqb_neq. tauto.
Qed.

Lemma component_relative (s : string) :
  Str.contains s "/" = false -> Str.startswith s "/" = false.
Proof.
  destruct s as [|c s]; [reflexivity|]. simpl.
  destruct (Ascii.eqb c "/"); [discriminate | reflexivity].
Qed.

Lemma parse_component key :
  is_component key = true -> parse key = mkPath EmptyString [key].
Proof.
  intros H. apply is_component_spec in H as (H1 & H2 & H3 & H4).
  unfold parse. rewrite (splitroot_relative _ (component_relative _ H4)).
  rewrite (split_no_sep _ _ H4). simpl. unfold keep_component.
  apply String.eqb_neq in H1, H2. now rewrite H1, H2.
Qed.

Lemma joinpath_component d key :
  is_component key = true -> d </> key = mkPath (root d) (tail d ++ [key]).
Proof. intros H. unfold joinpath. now rewrite (parse_component _ H). Qed.

Lemma joinpath_relative d key :
  Str.startswith key "/" = false ->
  d </> key = mkPath (root d) (tail d ++ tail (parse key)).
Proof.
  intros H. unfold joinpath, parse. now rewrite (splitroot_relative _ H).
Qed.

Lemma component_not_dotdot key : is_component key = true -> key <> "..".
Proof. intros H. now apply is_component_spec in H. Qed.

Lemma hyphen_to_underscore_keeps (c x : ascii) :
  x <> "-"%char -> x <> "_"%char ->
  Ascii.eqb (hyphen_to_underscore c) x = Ascii.eqb c x.
Proof.
  intros H1 H2. unfold hyphen_to_underscore.
  destruct (Ascii.eqb_spec c "-") as [->|Hc]; [|reflexivity].
  destruct (Ascii.eqb_spec "_" x), (Ascii.eqb_spec "-" x); congruence.
Qed.

Lemma module_name_contains_slash (s : string) :
  Str.contains (module_name s) "/" = Str.contains s "/".
Proof.
  rewrite module_name_map. induction s as [|c s IH]; simpl; [reflexivity|].
  rewrite IH, hyphen_to_underscore_keeps; [reflexivity | discriminate..].
Qed.

Lemma module_name_relative (s : string) :
  Str.startswith (module_name s) "/" = Str.startswith s "/".
Proof.
  rewrite module_name_map. destruct s as [|c s]; simpl; [reflexivity|].
  rewrite hyphen_to_underscore_keeps; [reflexivity | discriminate..].
Qed.

Lemma module_name_eqb_dots (s dots : string) :
  dots = "." \/ dots = ".." ->
  String.eqb (module_name s) dots = String.eqb s dots.
Proof.
  rewrite module_name_map.
  assert (H : forall c, Ascii.eqb (hyphen_to_underscore c) "." = Ascii.eqb c ".")
    by (intros c; apply hyphen_to_underscore_keeps; discriminate).
  intros [->| ->]; destruct s as [|a [|b [|c s]]]; simpl; rewrite ?H; reflexivity.
Qed.

Lemma is_component_module_name (s : string) :
  is_component s = true -> is_component (module_name s) = true.
Proof.
  unfold is_component.
  rewrite module_name_contains_slash.
  rewrite (module_name_eqb_dots s ".") by now left.
  rewrite (module_name_eqb_dots s "..") by now right.
  intros H. rewrite !andb_true_iff in *. destruct H as [[[H1 H2] H3] H4].
  repeat split; auto. rewrite module_name_map.
  destruct s; [discriminate | reflexivity].
Qed.

Lemma is_component_test_file (m : string) :
  Str.contains m "/" = false -> is_component ("test_" +:+ m +:+ ".py") = true.
Proof.
  intros H. unfold is_component. rewrite !contains_app, H. reflexivity.
Qed.

Lemma start_joinpath w d key :
  Str.startswith key "/" = false -> start w (d </> key) = start w d.
Proof. intros H. now rewrite joinpath_relative. Qed.

(** Where a component below a directory resolves to. *)
Lemma locate_join w d D key :
  is_component key = true -> String.length key <= NAME_MAX ->
  locate w d = Some D -> node_at (fs w) D = Some Dir ->
  locate w (d </> key) = Some (D ++ [key]).
Proof.
  intros Hk Hlen Hd Hn. rewrite (joinpath_component _ _ Hk).
  unfold locate in Hd.
  destruct (walk (fs w) (start w d) (tail d)) as [e|D'] eqn:E; [discriminate|].
  injection Hd as ->.
  apply locate_last with (tail d); auto using component_not_dotdot.
Qed.

Lemma locate_join_inv w d key loc :
  is_component key = true -> locate w (d </> key) = Some loc ->
  exists D, locate w d = Some D /\ node_at (fs w) D = Some Dir /\ loc = D ++ [key].
Proof.
  intros Hk. rewrite (joinpath_component _ _ Hk). unfold locate, start. simpl.
  rewrite walk_app.
  destruct (walk (fs w) _ (tail d)) as [e|D] eqn:E; [discriminate|].
  intros H. exists D.
  destruct (walk (fs w) D [key]) as [e|l] eqn:E1; [discriminate|].
  injection H as ->.
  pose proof (walk_step_inv _ _ _ _ E1) as Hn.
  apply walk_plain in E1; [auto|].
  intros [H|[]]. now apply (component_not_dotdot _ Hk).
Qed.

End Components.

(** * Directory creation with missing parents *)

Section MissingParents.

Implicit Types (m : gmap (list string) Node) (w : World) (p : Path).

(** Along a path that no regular file obstructs, resolution either goes all
    the way or stops at a missing directory. *)
Lemma walk_unobstructed m cur comps :
  Forall (fun c => String.length c <= NAME_MAX) comps ->
  ~ In ".." comps ->
  (forall k c, node_at m (cur ++ take k comps) <> Some (File c)) ->
  walk m cur comps = inr (cur ++ comps) \/ walk m cur comps = inl FileNotFoundError.
Proof.
  revert cur. induction comps as [|x rest IH]; intros cur Hlen Hno Hfree; simpl.
  - left. now rewrite app_nil_r.
  - apply Forall_cons in Hlen as [Hx Hlen].
    destruct (node_at m cur) as [[|data]|] eqn:E.
    + destruct (String.eqb_spec x "..") as [->|Hx']; [exfalso; apply Hno; now left|].
      destruct (Nat.ltb_spec NAME_MAX (String.length x)) as [Hlt|Hge]; [lia|].
      destruct (IH (cur ++ [x])) as [H|H].
      * assumption.
      * intros Hin. apply Hno. now right.
      * intros k c. rewrite <- app_assoc. exact (Hfree (S k) c).
      * left. now rewrite H, <- app_assoc.
      * now right.
    + exfalso. apply (Hfree 0 data). simpl. now rewrite app_nil_r.
    + now right.
Qed.

Lemma list_snoc_cases {A} (l : list A) : l = [] \/ exists init last, l = init ++ [last].
Proof.
  destruct l as [|x l] using rev_ind; [now left | right; eauto].
Qed.

Lemma is_dir_start p w :
  check_path p = None -> tail p = [] -> node_at (fs w) (start w p) = Some Dir ->
  is_dir w p = true.
Proof. intros Hc Ht H. unfold is_dir, stat. rewrite Hc, Ht. simpl. now rewrite H. Qed.

Lemma join_snoc (sep : string) (init : list string) (last : string) :
  init <> [] -> Str.join sep (init ++ [last]) = Str.join sep init +:+ sep +:+ last.
Proof.
  induction init as [|x init IH]; [contradiction|]. intros _.
  destruct init as [|y init]; [reflexivity|].
  change (Str.join sep ((x :: y :: init) ++ [last]))
    with (x +:+ sep +:+ Str.join sep ((y :: init) ++ [last])).
  rewrite IH by discriminate.
  change (Str.join sep (x :: y :: init)) with (x +:+ sep +:+ Str.join sep (y :: init)).
  now rewrite !append_assoc.
Qed.

(** [str(p.parent)] is "." or a prefix of [str(p)]. *)
Lemma to_string_snoc (r : string) (init : list string) (last : string) :
  init <> [] ->
  to_string (mkPath r (init ++ [last])) = to_string (mkPath r init) +:+ "/" +:+ last.
Proof.
  intros Hne.
  assert (E : forall l : list string, l <> [] ->
            to_string (mkPath r l) = r +:+ Str.join "/" l).
  { intros l Hl. unfold to_string. cbn [root tail].
    destruct r; [|reflexivity]. destruct l; [contradiction | reflexivity]. }
  rewrite !E by (try assumption; destruct init; discriminate).
  rewrite join_snoc by assumption. now rewrite !append_assoc.
Qed.

(** [str(p.parent)] is "." or a prefix of [str(p)]. *)
Lemma to_string_parent p :
  to_string (parent p) = "." \/ exists suffix, to_string p = to_string (parent p) +:+ suffix.
Proof.
  destruct p as [r t]. unfold parent. cbn [root tail].
  destruct (list_snoc_cases t) as [->|(init & last & ->)].
  - right. exists EmptyString. simpl removelast. now rewrite append_nil_r.
  - rewrite removelast_last. destruct init as [|x init].
    + destruct r as [|a r]; [now left|]. right. exists last.
      unfold to_string. cbn [root tail app Str.join]. now rewrite append_nil_r.
    + right. exists ("/" +:+ last). apply to_string_snoc. discriminate.
Qed.

Lemma check_path_None p :
  check_path p = None
  <-> Str.contains (to_string p) NUL = false /\ String.length (to_string p) < PATH_MAX.
Proof.
  unfold check_path. destruct (Str.contains (to_string p) NUL).
  - split; [discriminate | intros [H _]; discriminate].
  - destruct (Nat.leb_spec PATH_MAX (String.length (to_string p))).
    + split; [discriminate | intros [_ H']; lia].
    + split; auto.
Qed.

(** A path that the system accepts has a parent that it accepts. *)
Lemma check_path_parent p : check_path p = None -> check_path (parent p) = None.
Proof.
  rewrite !check_path_None. intros [Hn Hl].
  destruct (to_string_parent p) as [->|(suffix & E)].
  - split; [reflexivity | unfold PATH_MAX; simpl; lia].
  - rewrite E, contains_app in Hn. rewrite E, append_length in Hl.
    apply orb_false_iff in Hn as [Hn _]. split; [assumption | lia].
Qed.

Lemma os_mkdir_unfold p w init last :
  check_path p = None ->
  tail p = init ++ [last] ->
  os_mkdir p w
  = match walk_parent w p init with
    | inl e => inl e
    | inr d =>
        if String.eqb last ".." then inl FileExistsError
        else if Nat.ltb NAME_MAX (String.length last) then inl FileNameTooLong
        else match fs w !! (d ++ [last]) with
             | Some _ => inl FileExistsError
             | None => inr (set_node w (d ++ [last]) Dir)
             end
    end.
Proof.
  intros Hc Ht. unfold os_mkdir. rewrite Hc, Ht, rev_app_distr. simpl.
  now rewrite rev_involutive.
Qed.

Lemma parent_snoc p init last :
  tail p = init ++ [last] -> parent p = mkPath (root p) init /\ parent p <> p.
Proof.
  intros Ht. unfold parent. rewrite Ht, removelast_last. split; [reflexivity|].
  intros H. apply (f_equal tail) in H. simpl in H. rewrite Ht in H.
  apply (f_equal (@List.length _)) in H. rewrite length_app in H. simpl in H. lia.
Qed.

(** [mkdir(exist_ok=True)] once the parent is a directory and no regular
    file has the name. *)
Lemma mkdir_in_parent fuel parents p w init last d :
  check_path p = None ->
  tail p = init ++ [last] -> last <> ".." -> String.length last <= NAME_MAX ->
  walk (fs w) (start w p) init = inr d -> node_at (fs w) d = Some Dir ->
  (forall c, fs w !! (d ++ [last]) <> Some (File c)) ->
  exists w', mkdir_fuel fuel p parents true w = (w', Done).
Proof.
  intros Hc Ht Hl Hlen Hw Hd Hfree.
  destruct (fs w !! (d ++ [last])) as [[|c]|] eqn:E.
  - exists w. apply mkdir_fuel_exists. apply is_dir_locate. split; [exact Hc|].
    exists (d ++ [last]). split; [now apply locate_last with init|].
    now rewrite node_at_snoc.
  - now destruct (Hfree c).
  - exists (set_node w (d ++ [last]) Dir).
    assert (Hos : os_mkdir p w = inr (set_node w (d ++ [last]) Dir)).
    { apply os_mkdir_inr. split; [exact Hc|]. exists init, last, d. auto 10. }
    destruct fuel; simpl; now rewrite Hos.
Qed.

(** [mkdir(parents=True, exist_ok=True)] succeeds whenever no regular file
    lies on the path: missing parents are created, existing directories are
    accepted. *)
Lemma mkdir_fuel_unobstructed fuel :
  forall p w,
    List.length (tail p) <= fuel -> unobstructed w p ->
    exists w', mkdir_fuel fuel p true true w = (w', Done).
Proof.
  induction fuel as [|fuel IH]; intros p w Hlen (Hc & Hnames & Hno & Hstart & Hfree).
  - destruct (tail p) eqn:Ht; [|simpl in Hlen; lia].
    exists w. now apply mkdir_fuel_exists, is_dir_start.
  - destruct (list_snoc_cases (tail p)) as [Ht|(init & last & Ht)].
    { exists w. now apply mkdir_fuel_exists, is_dir_start. }
    assert (Hl : last <> "..").
    { intros ->. apply Hno. rewrite Ht. apply in_or_app. right. now left. }
    rewrite Ht in Hnames. apply Forall_app in Hnames as [Hnames Hlast_len].
    apply Forall_cons in Hlast_len as [Hlast_len _].
    assert (Hno' : ~ In ".." init).
    { intros Hin. apply Hno. rewrite Ht. apply in_or_app. now left. }
    assert (Hfree' : forall k c, node_at (fs w) (start w p ++ take k init) <> Some (File c)).
    { intros k c. destruct (Nat.le_gt_cases k (List.length init)) as [Hk|Hk].
      - specialize (Hfree k c). rewrite Ht in Hfree.
        now rewrite take_app_le in Hfree by assumption.
      - rewrite firstn_all2 by lia.
        specialize (Hfree (List.length init) c). rewrite Ht in Hfree.
        rewrite take_app_le, firstn_all in Hfree by lia. exact Hfree. }
    assert (Hlast : forall c, fs w !! ((start w p ++ init) ++ [last]) <> Some (File c)).
    { intros c. specialize (Hfree (List.length (tail p)) c).
      rewrite firstn_all, Ht, app_assoc, node_at_snoc in Hfree. exact Hfree. }
    destruct (parent_snoc _ _ _ Ht) as [Hpar Hparne].
    (* the recursive case, shared by the two ways of getting FileNotFoundError *)
    assert (Hrec : os_mkdir p w = inl FileNotFoundError ->
                   exists w', mkdir_fuel (S fuel) p true true w = (w', Done)).
    { intros Hos. simpl. rewrite Hos. simpl.
      rewrite bool_decide_eq_false_2 by assumption.
      destruct (IH (parent p) w) as [w1 Hw1].
      - rewrite Hpar. simpl. rewrite Ht, length_app in Hlen. simpl in Hlen. lia.
      - pose proof (check_path_parent _ Hc) as Hcp.
        rewrite Hpar in Hcp |- *. unfold unobstructed, start. simpl. auto 10.
      - rewrite Hw1.
        apply mkdir_fuel_post in Hw1 as (Hadd & Hcwd & _ & Hdir).
        apply is_dir_locate in Hdir as (_ & d & Hd & Hnd); [|reflexivity].
        rewrite Hpar in Hd. unfold locate, start in Hd. simpl in Hd.
        destruct (walk (fs w1) _ init) as [e|d'] eqn:Ew; [discriminate|].
        injection Hd as ->.
        assert (Hdeq : d = start w1 p ++ init) by (eapply walk_plain; eassumption).
        apply mkdir_in_parent with init last d; auto.
        intros c Hfile. specialize (Hadd (d ++ [last])). rewrite Hdeq in Hadd, Hfile.
        assert (Hs : start w1 p = start w p) by (unfold start; now rewrite Hcwd).
        rewrite Hs in Hadd, Hfile.
        destruct (fs w !! ((start w p ++ init) ++ [last])) as [n|] eqn:En.
        + rewrite Hadd in Hfile. injection Hfile as ->. now apply (Hlast c).
        + destruct Hadd; congruence. }
    rewrite (os_mkdir_unfold _ _ _ _ Hc Ht) in Hrec.
    unfold walk_parent in Hrec.
    destruct (walk_unobstructed (fs w) (start w p) init Hnames Hno' Hfree') as [Hw|Hw];
      rewrite Hw in Hrec; [|now apply Hrec].
    destruct (node_at (fs w) (start w p ++ init)) as [[|c]|] eqn:En.
    + apply mkdir_in_parent with init last (start w p ++ init); auto.
    + exfalso. apply (Hfree' (List.length init) c). now rewrite firstn_all.
    + now apply Hrec.
Qed.

Lemma mkdir_unobstructed p w :
  unobstructed w p ->
  exists w', mkdir p true true w = (w', Done) /\ is_dir w' p = true
             /\ adds_dirs (fs w) (fs w').
Proof.
  intros H. destruct (mkdir_fuel_unobstructed _ p w (le_n _) H) as [w' Hw'].
  exists w'. split; [exact Hw'|].
  apply mkdir_fuel_post in Hw' as (H1 & _ & _ & H2). auto.
Qed.

Lemma mkdir_exists p parents w :
  is_dir w p = true -> mkdir p parents true w = (w, Done).
Proof. apply mkdir_fuel_exists. Qed.

End MissingParents.

(** * What is on disk after a run *)

Section OnDisk.

Implicit Types (w : World) (p : Path) (prog : list Action).

(** A file stays as it is while nothing is written at its location. *)
Lemma kept_through prog :
  forall s w' o l data,
    run prog s = (w', o) ->
    fs s !! l = Some (File data) ->
    (forall q data', In (q, data') (written prog) -> locate w' q <> Some l) ->
    fs w' !! l = Some (File data).
Proof.
  induction prog as [|a rest IH]; intros s w' o l data Hrun Hl Hother.
  - simpl in Hrun. now injection Hrun as <- <-.
  - pose proof (run_extends _ _ _ _ Hrun) as [Hext Hcwd].
    simpl in Hrun. destruct (step a s) as [s1 o1] eqn:E.
    assert (Hl1 : fs s1 !! l = Some (File data)).
    { destruct a as [msg|q parents exist_ok|q data']; simpl in E.
      - now injection E as <- <-.
      - apply mkdir_fuel_post in E as (Hadd & _). specialize (Hadd l).
        now rewrite Hl in Hadd.
      - unfold write_text in E. destruct (os_open q s) as [e|loc] eqn:Ew;
          [now injection E as <- <-|].
        apply os_open_locate in Ew as (_ & Hloc & _).
        assert (Hne : loc <> l).
        { intros ->. apply (Hother q data'); [simpl; now left|].
          apply locate_extends with s; auto. }
        destruct (Utf8.valid data'); injection E as <- <-; simpl;
          now rewrite lookup_insert_ne. }
    destruct o1 as [|e].
    + apply (IH s1 w' o l data Hrun Hl1). intros q data' Hin.
      apply (Hother q data'). simpl. apply in_or_app. now right.
    + now injection Hrun as <- <-.
Qed.

(** When the files written resolve to different locations, each holds the
    text written to it. *)
Lemma run_written_distinct prog :
  forall s w',
    run prog s = (w', Done) ->
    NoDup (map (fun pd => locate w' (fst pd)) (written prog)) ->
    forall p data, In (p, data) (written prog) -> read_text w' p = Some data.
Proof.
  induction prog as [|a rest IH]; intros s w' Hrun Hnd p data Hin; [destruct Hin|].
  simpl in Hrun. destruct (step a s) as [s1 [|e]] eqn:E; [|discriminate].
  pose proof (run_extends _ _ _ _ Hrun) as [Hext Hcwd].
  destruct a as [msg|q parents exist_ok|q data']; simpl in Hin, Hnd; eauto.
  apply NoDup_cons in Hnd as [Hnotin Hnd].
  destruct Hin as [[= -> ->]|Hin]; [|eauto].
  simpl in E. apply write_text_post in E as (_ & _ & _ & Hr). specialize (Hr eq_refl).
  apply read_text_locate in Hr as (Hc & l & Hloc & Hnode).
  assert (Hl : fs s1 !! l = Some (File data)) by (destruct l; [discriminate | exact Hnode]).
  assert (Hloc' : locate w' p = Some l) by (apply locate_extends with s1; auto).
  apply read_text_locate. split; [exact Hc|]. exists l. split; [assumption|].
  assert (Hk : fs w' !! l = Some (File data)).
  { apply (kept_through rest s1 w' Done l data Hrun Hl).
    intros q' d' Hq Heq. apply Hnotin. rewrite Hloc', <- Heq.
    apply list_elem_of_In.
    change (In ((fun pd => locate w' (fst pd)) (q', d'))
               (map (fun pd => locate w' (fst pd)) (written rest))).
    now apply in_map. }
  destruct l; [discriminate | exact Hk].
Qed.

Lemma append_eq_nil (a b : string) : a +:+ b = EmptyString -> a = EmptyString.
Proof. destruct a; [reflexivity | discriminate]. Qed.

Lemma unlines_nonempty (l : string) (ls : list string) :
  unlines (l :: ls) <> EmptyString.
Proof.
  unfold unlines. simpl. intros H. apply append_eq_nil in H as Hl. subst l.
  discriminate.
Qed.

End OnDisk.

(** * Texts that can be encoded *)

Section Encoding.

Lemma scan_app (q : Utf8.Pending) (a b : string) :
  Utf8.scan q (a +:+ b)
  = match Utf8.scan q a with
    | Some q' => Utf8.scan q' b
    | None => None
    end.
Proof.
  revert q. induction a as [|c a IH]; intros q; simpl; [reflexivity|].
  destruct (Utf8.next q c); [apply IH | reflexivity].
Qed.

Lemma valid_scan (s : string) :
  Utf8.valid s = true <-> Utf8.scan Utf8.Start s = Some Utf8.Start.
Proof.
  unfold Utf8.valid. destruct (Utf8.scan Utf8.Start s) as [[]|]; split; congruence.
Qed.

Lemma valid_app (a b : string) :
  Utf8.valid a = true -> Utf8.valid b = true -> Utf8.valid (a +:+ b) = true.
Proof. rewrite !valid_scan, scan_app. now intros ->. Qed.

(** An ASCII character is a sequence of its own: it can only come where a
    sequence starts. *)
Lemma next_ascii (q q' : Utf8.Pending) (c : ascii) :
  nat_of_ascii c <= 127 -> Utf8.next q c = Some q' -> q = Utf8.Start /\ q' = Utf8.Start.
Proof.
  intros Hc. unfold Utf8.next, Utf8.between.
  destruct q;
    repeat match goal with
    | |- context [Nat.leb ?a ?b] => destruct (Nat.leb_spec a b); try lia
    end; simpl; intros [= <-] || discriminate; auto.
Qed.

Lemma valid_unlines (ls : list string) :
  Forall (fun l => Utf8.valid l = true) ls -> Utf8.valid (unlines ls) = true.
Proof.
  induction 1 as [|l ls Hl _ IH]; [reflexivity|].
  change (unlines (l :: ls)) with (l +:+ nl +:+ unlines ls).
  apply valid_app; [assumption|]. now apply valid_app.
Qed.

(** [str.replace] of an ASCII text by an ASCII text keeps an encodable text
    encodable: an occurrence starts where a sequence starts. *)
Lemma scan_replace_scan (o : ascii) (old' new : string) :
  nat_of_ascii o <= 127 ->
  Utf8.valid (String o old') = true -> Utf8.valid new = true ->
  forall fuel s q,
    Utf8.scan q s = Some Utf8.Start ->
    Utf8.scan q (Str.replace_scan fuel s (String o old') new) = Some Utf8.Start.
Proof.
  intros Ho Hold Hnew. apply valid_scan in Hold, Hnew.
  induction fuel as [|fuel IH]; intros s q Hs; [exact Hs|].
  cbn [Str.replace_scan].
  destruct (Str.after_prefix s (String o old')) as [rest|] eqn:E.
  - apply after_prefix_Some in E. subst s.
    assert (Hq : q = Utf8.Start).
    { simpl in Hs. destruct (Utf8.next q o) as [q'|] eqn:En; [|discriminate].
      now apply next_ascii in En. }
    subst q. rewrite scan_app, Hold in Hs.
    rewrite scan_app, Hnew. now apply IH.
  - destruct s as [|c s]; [exact Hs|]. simpl in Hs |- *.
    destruct (Utf8.next q c); [now apply IH | discriminate].
Qed.

Lemma valid_module_name (name : string) :
  Utf8.valid name = true -> Utf8.valid (module_name name) = true.
Proof.
  rewrite !valid_scan. intros H. unfold module_name, Str.replace.
  apply scan_replace_scan; [now apply Nat.leb_le | reflexivity | reflexivity | exact H].
Qed.

Lemma valid_entry_point_key (m : string) :
  Utf8.valid m = true -> Utf8.valid (entry_point_key m) = true.
Proof.
  rewrite !valid_scan. intros H. unfold entry_point_key, Str.replace.
  apply scan_replace_scan; [now apply Nat.leb_le | reflexivity | reflexivity | exact H].
Qed.

(** The generated texts can be encoded when the name can. *)
Lemma valid_output_texts (name : string) :
  Utf8.valid name = true ->
  Forall (fun text => Utf8.valid text = true) (output_texts name).
Proof.
  intros Hn.
  pose proof (valid_module_name _ Hn) as Hm.
  pose proof (valid_entry_point_key _ Hm) as Hk.
  unfold output_texts, pyproject, readme, init_py, test_py.
  repeat (constructor;
          [first [ reflexivity
                 | apply valid_unlines;
                   repeat (constructor;
                           [repeat first [ assumption | reflexivity | apply valid_app ]|]);
                   constructor ]|]).
  constructor.
Qed.

End Encoding.

(** * A run on a fresh target *)

Section FreshTarget.

Implicit Types (w s : World) (d : Path) (key : string).

Lemma mkdir_in_dir s d D key parents exist_ok :
  is_component key = true -> String.length key <= NAME_MAX ->
  check_path (d </> key) = None ->
  locate s d = Some D -> node_at (fs s) D = Some Dir ->
  fs s !! (D ++ [key]) = None ->
  mkdir (d </> key) parents exist_ok s = (set_node s (D ++ [key]) Dir, Done).
Proof.
  intros Hk Hlen Hc Hd Hn Hnone.
  assert (Hos : os_mkdir (d </> key) s = inr (set_node s (D ++ [key]) Dir)).
  { apply os_mkdir_inr. split; [exact Hc|]. exists (tail d), key, D.
    rewrite (joinpath_component _ _ Hk). unfold locate in Hd.
    destruct (walk (fs s) (start s d) (tail d)) as [e|D'] eqn:E; [discriminate|].
    injection Hd as ->. repeat split; auto using component_not_dotdot. }
  unfold mkdir. destruct (List.length _); simpl; now rewrite Hos.
Qed.

Lemma write_in_dir s d D key data :
  is_component key = true -> String.length key <= NAME_MAX ->
  check_path (d </> key) = None -> Utf8.valid data = true ->
  locate s d = Some D -> node_at (fs s) D = Some Dir ->
  fs s !! (D ++ [key]) <> Some Dir ->
  write_text (d </> key) data s = (set_node s (D ++ [key]) (File data), Done).
Proof.
  intros Hk Hlen Hc Hv Hd Hn Hnd. apply write_text_Done. split; [exact Hv|].
  exists (D ++ [key]). split; [|reflexivity]. apply os_open_inr. split; [exact Hc|].
  exists (tail d), key, D.
  rewrite (joinpath_component _ _ Hk). unfold locate in Hd.
  destruct (walk (fs s) (start s d) (tail d)) as [e|D'] eqn:E; [discriminate|].
  injection Hd as ->. repeat split; auto using component_not_dotdot.
Qed.

Variables (name : string) (output_dir : Path) (w0 : World) (O : list string).
Hypothesis name_component : is_component name = true.
Hypothesis no_clash : ~ In (module_name name) root_file_names.
Hypothesis out_located : locate w0 output_dir = Some O.
Hypothesis out_is_dir : node_at (fs w0) O = Some Dir.
Hypothesis target_fresh : absent_below w0 (O ++ [name]).
Hypothesis name_fits : String.length name <= NAME_MAX.

Let P := O ++ [name].
Let pd := plugin_dir name output_dir.
Let m := module_name name.

Lemma ready_locate_root s :
  tree_ready w0 P m s -> locate s pd = Some P /\ node_at (fs s) P = Some Dir.
Proof using out_located out_is_dir name_component name_fits.
  intros (Hcwd & Hext & Hdirs & _). split.
  - apply locate_join; auto.
    + now apply locate_extends with w0.
    + now apply node_at_extends with (fs w0).
  - unfold P at 1. rewrite node_at_snoc.
    specialize (Hdirs [] (or_introl eq_refl)). now rewrite app_nil_r in Hdirs.
Qed.

Lemma ready_locate_sub s sub :
  tree_ready w0 P m s -> is_component sub = true -> String.length sub <= NAME_MAX ->
  In [sub] [[]; [m]; ["tests"]] ->
  locate s (pd </> sub) = Some (P ++ [sub]) /\ node_at (fs s) (P ++ [sub]) = Some Dir.
Proof using out_located out_is_dir name_component name_fits.
  intros Hr Hs Hlen Hin. destruct (ready_locate_root s Hr) as [HP HPd]. split.
  - now apply locate_join.
  - rewrite node_at_snoc. destruct Hr as (_ & _ & Hdirs & _). now apply Hdirs.
Qed.

(** Writing a file into one of the three directories succeeds and keeps the
    state ready, as long as the file does not take a directory's name. *)
Lemma ready_write s d sub key data :
  tree_ready w0 P m s ->
  In sub [[]; [m]; ["tests"]] ->
  locate s d = Some (P ++ sub) ->
  is_component key = true ->
  (sub = [] -> key <> m /\ key <> "tests") ->
  String.length key <= NAME_MAX ->
  check_path (d </> key) = None -> Utf8.valid data = true ->
  write_text (d </> key) data s = (set_node s ((P ++ sub) ++ [key]) (File data), Done)
  /\ tree_ready w0 P m (set_node s ((P ++ sub) ++ [key]) (File data)).
Proof using target_fresh.
  intros (Hcwd & Hext & Hdirs & Honly) Hsub Hd Hk Hkey Hlen Hc Hv.
  assert (Hnd : fs s !! ((P ++ sub) ++ [key]) <> Some Dir).
  { intros Hdir. apply Honly in Hdir as [(sub' & Hin' & Heq)|Hw0].
    - rewrite <- app_assoc in Heq. apply app_inv_head in Heq.
      destruct Hsub as [<-|[<-|[<-|[]]]], Hin' as [<-|[<-|[<-|[]]]];
        try discriminate; injection Heq; intros; subst; tauto.
    - rewrite <- (app_assoc P sub [key]) in Hw0. unfold P in Hw0.
      now rewrite (target_fresh (sub ++ [key])) in Hw0. }
  assert (Hnode : node_at (fs s) (P ++ sub) = Some Dir).
  { specialize (Hdirs sub Hsub). unfold P in *.
    rewrite <- app_assoc in *. simpl in *. now rewrite node_at_snoc_cons. }
  split; [now apply write_in_dir|].
  split; [exact Hcwd|]. split; [|split].
  - eapply extends_trans; [exact Hext|]. now apply extends_insert_file.
  - intros sub' Hin'. simpl. rewrite lookup_insert_ne; [now apply Hdirs|].
    intros Heq. rewrite Heq in Hnd. now apply Hnd, Hdirs.
  - intros loc Hloc. simpl in Hloc. apply Honly.
    destruct (decide ((P ++ sub) ++ [key] = loc)) as [<-|Hne].
    + rewrite lookup_insert_eq in Hloc. discriminate.
    + now rewrite lookup_insert_ne in Hloc.
Qed.

End FreshTarget.

Section FreshRun.

Implicit Types (w s : World) (d : Path) (key : string).

Lemma extends_insert_dir (mp : gmap (list string) Node) (loc : list string) :
  mp !! loc = None \/ mp !! loc = Some Dir -> extends mp (<[loc := Dir]> mp).
Proof.
  intros H loc' n Hn. destruct (decide (loc = loc')) as [<-|Hne].
  - rewrite lookup_insert_eq. destruct H as [H|H]; rewrite H in Hn; [discriminate|].
    now injection Hn as <-.
  - rewrite lookup_insert_ne by assumption. destruct n; eauto.
Qed.

(** [mkdir(exist_ok=True)] of a component below an existing directory, whether
    or not the component is already a directory. *)
Lemma mkdir_below s d D key parents :
  is_component key = true -> String.length key <= NAME_MAX ->
  check_path (d </> key) = None ->
  locate s d = Some D -> node_at (fs s) D = Some Dir ->
  fs s !! (D ++ [key]) = None \/ fs s !! (D ++ [key]) = Some Dir ->
  exists s',
    mkdir (d </> key) parents true s = (s', Done)
    /\ fs s' = <[D ++ [key] := Dir]> (fs s) /\ cwd s' = cwd s /\ stdout s' = stdout s.
Proof.
  intros Hk Hlen Hc Hd Hn [Hnone|Hdir].
  - exists (set_node s (D ++ [key]) Dir). split; [now apply mkdir_in_dir|]. auto.
  - exists s. split.
    + apply mkdir_exists, is_dir_locate. split; [exact Hc|]. exists (D ++ [key]).
      split; [now apply locate_join | now rewrite node_at_snoc].
    + split; [|auto]. symmetry. now apply insert_id.
Qed.

Lemma locate_same w w' d :
  fs w' = fs w -> cwd w' = cwd w -> locate w' d = locate w d.
Proof. intros H1 H2. unfold locate, start. now rewrite H1, H2. Qed.

Variables (name : string) (output_dir : Path) (w0 : World) (O : list string).
Hypothesis name_component : is_component name = true.
Hypothesis no_clash : ~ In (module_name name) root_file_names.
Hypothesis out_located : locate w0 output_dir = Some O.
Hypothesis out_is_dir : node_at (fs w0) O = Some Dir.
Hypothesis target_fresh : absent_below w0 (O ++ [name]).
Hypothesis name_fits : String.length name + 8 <= NAME_MAX.
Hypothesis name_encodes : Utf8.valid name = true.
Hypothesis paths_accepted :
  Forall (fun p => check_path p = None) (script_paths name output_dir).

Let P := O ++ [name].
Let pd := plugin_dir name output_dir.
Let m := module_name name.

Lemma module_name_length : String.length m = String.length name.
Proof. unfold m. now rewrite module_name_map, map_chars_length. Qed.

Lemma accepted (p : Path) : In p (script_paths name output_dir) -> check_path p = None.
Proof using paths_accepted. exact (proj1 (List.Forall_forall _ _) paths_accepted p). Qed.

Lemma fresh_below (sub : list string) : fs w0 !! (P ++ sub) = None.
Proof using target_fresh. apply target_fresh. Qed.

(** The three directories. *)
Lemma fresh_dirs (wa : World) :
  fs wa = fs w0 -> cwd wa = cwd w0 ->
  exists s3,
    run [ Mkdir pd true true; Mkdir (pd </> m) true true; Mkdir (pd </> "tests") true true ]
        wa = (s3, Done)
    /\ fs s3 = <[P ++ ["tests"] := Dir]> (<[P ++ [m] := Dir]> (<[P := Dir]> (fs w0)))
    /\ cwd s3 = cwd w0 /\ stdout s3 = stdout wa.
Proof using name_component out_located out_is_dir target_fresh name_fits paths_accepted.
  intros Hfs Hcwd.
  assert (Hm : is_component m = true) by now apply is_component_module_name.
  assert (Hlen : String.length name <= NAME_MAX) by lia.
  assert (Hlenm : String.length m <= NAME_MAX) by (rewrite module_name_length; lia).
  assert (Hlent : String.length "tests" <= NAME_MAX) by now apply Nat.leb_le.
  assert (A1 : check_path (output_dir </> name) = None)
    by (apply accepted; simpl; tauto).
  assert (A2 : check_path (pd </> m) = None) by (apply accepted; simpl; tauto).
  assert (A3 : check_path (pd </> "tests") = None) by (apply accepted; simpl; tauto).
  (* the project root *)
  destruct (mkdir_below wa output_dir O name true) as (s1 & R1 & F1 & C1 & S1); auto.
  { now rewrite (locate_same _ _ _ Hfs Hcwd). }
  { now rewrite Hfs. }
  { left. rewrite Hfs. pose proof (fresh_below []) as H. now rewrite app_nil_r in H. }
  rewrite Hfs in F1. fold P in F1. change (output_dir </> name) with pd in R1.
  assert (E1 : extends (fs w0) (fs s1)).
  { rewrite F1. apply extends_insert_dir. left.
    pose proof (fresh_below []) as H. now rewrite app_nil_r in H. }
  assert (L1 : locate s1 pd = Some P).
  { apply locate_join; auto.
    - apply locate_extends with w0; auto. congruence.
    - now apply node_at_extends with (fs w0). }
  assert (N1 : node_at (fs s1) P = Some Dir).
  { unfold P. rewrite node_at_snoc, F1. apply lookup_insert_eq. }
  (* the module directory *)
  destruct (mkdir_below s1 pd P m true) as (s2 & R2 & F2 & C2 & S2); auto.
  { left. rewrite F1, lookup_insert_ne; [apply fresh_below|].
    intros H. apply (f_equal (@List.length _)) in H. rewrite length_app in H.
    simpl in H. lia. }
  assert (E2 : extends (fs s1) (fs s2)).
  { rewrite F2. apply extends_insert_dir. left.
    rewrite F1, lookup_insert_ne; [apply fresh_below|].
    intros H. apply (f_equal (@List.length _)) in H. rewrite length_app in H.
    simpl in H. lia. }
  (* the tests directory *)
  destruct (mkdir_below s2 pd P "tests" true) as (s3 & R3 & F3 & C3 & S3); auto.
  { apply locate_extends with s1; auto. }
  { now apply node_at_extends with (fs s1). }
  { rewrite F2, F1. destruct (decide (P ++ [m] = P ++ ["tests"])) as [->|Hne].
    - right. apply lookup_insert_eq.
    - left. rewrite lookup_insert_ne by assumption.
      rewrite lookup_insert_ne; [apply fresh_below|].
      intros H. apply (f_equal (@List.length _)) in H. rewrite length_app in H.
      simpl in H. lia. }
  exists s3. split; [|split; [|split]].
  - cbn [run step]. now rewrite R1, R2, R3.
  - now rewrite F3, F2, F1.
  - congruence.
  - congruence.
Qed.

Lemma fresh_dirs_ready (s3 : World) :
  fs s3 = <[P ++ ["tests"] := Dir]> (<[P ++ [m] := Dir]> (<[P := Dir]> (fs w0))) ->
  cwd s3 = cwd w0 ->
  tree_ready w0 P m s3.
Proof using target_fresh.
  intros Hfs Hcwd. split; [assumption|]. split; [|split].
  - intros loc n Hn. rewrite Hfs.
    assert (Hdiff : forall sub, loc <> P ++ sub).
    { intros sub ->. rewrite fresh_below in Hn. discriminate. }
    rewrite !lookup_insert_ne; [destruct n; eauto | | |]; try apply not_eq_sym, Hdiff.
    rewrite <- (app_nil_r P) at 1. apply not_eq_sym, Hdiff.
  - intros sub Hin. rewrite Hfs.
    destruct Hin as [<-|[<-|[<-|[]]]]; rewrite ?app_nil_r;
      repeat (rewrite lookup_insert; case_decide; [reflexivity|]); congruence.
  - intros loc Hloc. rewrite Hfs in Hloc.
    rewrite lookup_insert in Hloc. case_decide.
    { left. exists ["tests"]. simpl. auto. }
    rewrite lookup_insert in Hloc. case_decide.
    { left. exists [m]. simpl. auto. }
    rewrite lookup_insert in Hloc. case_decide.
    { left. exists []. rewrite app_nil_r. simpl. auto. }
    now right.
Qed.

(** The seven files. *)
Lemma fresh_files (s3 : World) :
  tree_ready w0 P m s3 ->
  exists s10,
    run [ WriteText (pd </> "pyproject.toml") (pyproject name m);
          WriteText (pd </> "README.md") (readme name);
          WriteText (pd </> m </> "__init__.py") (init_py name);
          WriteText (pd </> "tests" </> "__init__.py") EmptyString;
          WriteText (pd </> "tests" </> ("test_" +:+ m +:+ ".py")) (test_py name);
          WriteText (pd </> "pytest.ini") pytest_ini;
          WriteText (pd </> ".gitignore") gitignore ] s3 = (s10, Done)
    /\ fs s10
       = <[P ++ [".gitignore"] := File gitignore]>
         (<[P ++ ["pytest.ini"] := File pytest_ini]>
         (<[P ++ ["tests"; "test_" +:+ m +:+ ".py"] := File (test_py name)]>
         (<[P ++ ["tests"; "__init__.py"] := File EmptyString]>
         (<[P ++ [m; "__init__.py"] := File (init_py name)]>
         (<[P ++ ["README.md"] := File (readme name)]>
         (<[P ++ ["pyproject.toml"] := File (pyproject name m)]> (fs s3)))))))
    /\ cwd s10 = cwd s3 /\ stdout s10 = stdout s3.
Proof using name_component no_clash out_located out_is_dir target_fresh name_fits
  name_encodes paths_accepted.
  intros R3.
  assert (Hm : is_component m = true) by now apply is_component_module_name.
  assert (Hslash : Str.contains m "/" = false) by now apply is_component_spec in Hm.
  pose proof (is_component_test_file _ Hslash) as Htest.
  assert (Hlen : String.length name <= NAME_MAX) by lia.
  assert (Hlenm : String.length m <= NAME_MAX) by (rewrite module_name_length; lia).
  assert (Hlent : String.length "tests" <= NAME_MAX) by now apply Nat.leb_le.
  assert (Hlenf : String.length ("test_" +:+ m +:+ ".py") <= NAME_MAX).
  { rewrite !append_length, module_name_length. simpl. lia. }
  assert (Hlit : forall key, In key ["pyproject.toml"; "README.md"; "__init__.py";
                                     "pytest.ini"; ".gitignore"] ->
                 String.length key <= NAME_MAX).
  { intros key Hin. simpl in Hin.
    repeat (destruct Hin as [<-|Hin]; [now apply Nat.leb_le|]). destruct Hin. }
  pose proof (valid_output_texts name name_encodes) as Hv. unfold output_texts in Hv.
  apply Forall_cons in Hv as [V1 Hv]. apply Forall_cons in Hv as [V2 Hv].
  apply Forall_cons in Hv as [V3 Hv]. apply Forall_cons in Hv as [V4 Hv].
  apply Forall_cons in Hv as [V5 Hv]. apply Forall_cons in Hv as [V6 Hv].
  apply Forall_cons in Hv as [V7 _]. fold m in V1.
  assert (Hacc : forall p, In p (output_files name output_dir) -> check_path p = None).
  { intros p Hin. apply accepted. unfold script_paths. apply in_or_app. now right. }
  unfold output_files, module_dir, tests_dir in Hacc. fold pd m in Hacc. cbn [In] in Hacc.
  assert (Hroot : forall s, tree_ready w0 P m s -> locate s pd = Some (P ++ [])).
  { intros s Hs. rewrite app_nil_r.
    now apply (ready_locate_root name output_dir w0 O name_component out_located
                 out_is_dir Hlen). }
  assert (Hmod : forall s, tree_ready w0 P m s -> locate s (pd </> m) = Some (P ++ [m])).
  { intros s Hs.
    apply (ready_locate_sub name output_dir w0 O name_component out_located out_is_dir Hlen);
      simpl; auto. }
  assert (Htests : forall s, tree_ready w0 P m s ->
            locate s (pd </> "tests") = Some (P ++ ["tests"])).
  { intros s Hs.
    apply (ready_locate_sub name output_dir w0 O name_component out_located out_is_dir Hlen);
      simpl; auto. }
  assert (Hkey : forall key, In key root_file_names ->
            @nil string = [] -> key <> m /\ key <> "tests").
  { intros key Hin _. split.
    - intros ->. now apply no_clash.
    - simpl in Hin. intuition (subst; discriminate). }
  assert (Hsub : forall (x key : string), [x] = [] -> key <> m /\ key <> "tests")
    by discriminate.
  pose proof (ready_write name w0 O target_fresh) as Hwrite. fold P m in Hwrite.
  assert (In0 : In (@nil string) [[]; [m]; ["tests"]]) by (simpl; auto).
  assert (In1 : In [m] [[]; [m]; ["tests"]]) by (simpl; auto).
  assert (In2 : In ["tests"] [[]; [m]; ["tests"]]) by (simpl; auto).
  destruct (Hwrite _ pd [] "pyproject.toml" (pyproject name m) R3 In0 (Hroot _ R3)
              eq_refl (Hkey _ (or_introl eq_refl))) as [W1 R4];
    [apply Hlit; simpl; tauto | apply Hacc; tauto | exact V1 |].
  destruct (Hwrite _ pd [] "README.md" (readme name) R4 In0 (Hroot _ R4)
              eq_refl (Hkey _ (or_intror (or_introl eq_refl)))) as [W2 R5];
    [apply Hlit; simpl; tauto | apply Hacc; tauto | exact V2 |].
  destruct (Hwrite _ (pd </> m) [m] "__init__.py" (init_py name) R5 In1 (Hmod _ R5)
              eq_refl (Hsub _ _)) as [W3 R6];
    [apply Hlit; simpl; tauto | apply Hacc; tauto | exact V3 |].
  destruct (Hwrite _ (pd </> "tests") ["tests"] "__init__.py" EmptyString R6 In2
              (Htests _ R6) eq_refl (Hsub _ _)) as [W4 R7];
    [apply Hlit; simpl; tauto | apply Hacc; tauto | exact V4 |].
  destruct (Hwrite _ (pd </> "tests") ["tests"] ("test_" +:+ m +:+ ".py") (test_py name)
              R7 In2 (Htests _ R7) Htest (Hsub _ _)) as [W5 R8];
    [exact Hlenf | apply Hacc; tauto | exact V5 |].
  destruct (Hwrite _ pd [] "pytest.ini" pytest_ini R8 In0 (Hroot _ R8)
              eq_refl (Hkey _ (or_intror (or_intror (or_introl eq_refl))))) as [W6 R9];
    [apply Hlit; simpl; tauto | apply Hacc; tauto | exact V6 |].
  destruct (Hwrite _ pd [] ".gitignore" gitignore R9 In0 (Hroot _ R9)
              eq_refl (Hkey _ (or_intror (or_intror (or_intror (or_introl eq_refl))))))
    as [W7 R10];
    [apply Hlit; simpl; tauto | apply Hacc; tauto | exact V7 |].
  eexists. split; [|split; [|split]].
  - cbn [run step]. rewrite W1, W2, W3, W4, W5, W6, W7. reflexivity.
  - cbn [fs set_node]. rewrite ?app_nil_r, <- ?app_assoc. reflexivity.
  - reflexivity.
  - reflexivity.
Qed.

(** On a fresh target in an existing output directory the run completes and
    leaves exactly the project tree, whatever the name's prefix. *)
Lemma create_plugin_on_fresh_target :
  exists w',
    run (create_plugin name output_dir) w0 = (w', Done)
    /\ fs w' = project_tree name P (fs w0)
    /\ cwd w' = cwd w0.
Proof using name_component no_clash out_located out_is_dir target_fresh name_fits
  name_encodes paths_accepted.
  assert (Hshape : create_plugin name output_dir
            = (if negb (Str.startswith name "datasette-") then [Print warning] else [])
              ++ [ Mkdir pd true true; Mkdir (pd </> m) true true;
                   Mkdir (pd </> "tests") true true ]
              ++ [ WriteText (pd </> "pyproject.toml") (pyproject name m);
                   WriteText (pd </> "README.md") (readme name);
                   WriteText (pd </> m </> "__init__.py") (init_py name);
                   WriteText (pd </> "tests" </> "__init__.py") EmptyString;
                   WriteText (pd </> "tests" </> ("test_" +:+ m +:+ ".py")) (test_py name);
                   WriteText (pd </> "pytest.ini") pytest_ini;
                   WriteText (pd </> ".gitignore") gitignore ]
              ++ [ Print ("Created plugin at: " +:+ to_string pd);
                   Print (nl +:+ "Next steps:");
                   Print ("  cd " +:+ to_string pd);
                   Print "  pip install -e '.[test]'";
                   Print "  pytest" ]) by reflexivity.
  rewrite Hshape, run_app.
  assert (Hwarn : exists wa,
            run (if negb (Str.startswith name "datasette-") then [Print warning] else []) w0
            = (wa, Done) /\ fs wa = fs w0 /\ cwd wa = cwd w0).
  { destruct (negb _); simpl; eauto. }
  destruct Hwarn as (wa & -> & Fa & Ca).
  rewrite run_app.
  destruct (fresh_dirs wa Fa Ca) as (s3 & -> & F3 & C3 & _).
  pose proof (fresh_dirs_ready s3 F3 C3) as R3.
  destruct (fresh_files s3 R3) as (s10 & Hrun & F10 & C10 & _).
  rewrite run_app, Hrun. cbn [run step print].
  eexists. split; [reflexivity|]. simpl. split; [|congruence].
  rewrite F10, F3. reflexivity.
Qed.

End FreshRun.

(** * More about the script *)

Section ScriptOrder.

Variables (name : string) (output_dir : Path).

Lemma create_plugin_shape :
  create_plugin name output_dir
  = (if Str.startswith name "datasette-" then [] else [Print warning])
    ++ fs_steps name output_dir
    ++ map Print (success_messages name output_dir).
Proof. unfold create_plugin. destruct (Str.startswith name "datasette-"); reflexivity. Qed.

Lemma run_prints (msgs : list string) (w : World) :
  run (map Print msgs) w = (mkWorld (cwd w) (fs w) (stdout w ++ msgs), Done).
Proof.
  revert w. induction msgs as [|s msgs IH]; intros w; simpl.
  - rewrite app_nil_r. now destruct w.
  - rewrite IH. simpl. now rewrite <- app_assoc.
Qed.

Lemma printed_fs_steps : printed (fs_steps name output_dir) = [].
Proof. reflexivity. Qed.

(** A run of the filesystem steps prints nothing. *)
Lemma run_fs_steps_stdout (w w' : World) (o : Outcome) :
  run (fs_steps name output_dir) w = (w', o) -> stdout w' = stdout w.
Proof.
  intros H. apply run_stdout_any in H as (more & Hm & Hin).
  destruct more as [|s more]; [now rewrite app_nil_r in Hm|].
  destruct (Hin s (or_introl eq_refl)).
Qed.

Lemma file_paths : map fst (written (create_plugin name output_dir)) = output_files name output_dir.
Proof. now rewrite written_create_plugin. Qed.

End ScriptOrder.

Lemma parse_absolute (key : string) :
  Str.startswith key "/" = true -> root (parse key) <> EmptyString.
Proof.
  intros H. apply after_prefix_startswith in H as [p1 H1].
  unfold parse, splitroot. rewrite H1.
  destruct (Str.after_prefix p1 "/") as [p2|]; [|discriminate].
  destruct (Str.startswith p2 "/"); discriminate.
Qed.

Lemma joinpath_absolute (d : Path) (key : string) :
  Str.startswith key "/" = true -> d </> key = parse key.
Proof.
  intros H. apply parse_absolute in H. unfold joinpath.
  destruct (root (parse key)); [congruence | reflexivity].
Qed.

Lemma module_name_of_prefixed (name : string) :
  Str.startswith name "datasette-" = true ->
  exists rest, name = "datasette-" +:+ rest
               /\ module_name name = "datasette_" +:+ module_name rest.
Proof.
  intros H. apply startswith_spec in H as [rest ->]. exists rest. split; [reflexivity|].
  rewrite !module_name_map, map_chars_app. reflexivity.
Qed.

Lemma prefixed_name_no_clash (name : string) :
  Str.startswith name "datasette-" = true -> ~ In (module_name name) root_file_names.
Proof.
  intros H Hin. apply module_name_of_prefixed in H as (rest & _ & Hm).
  rewrite Hm in Hin. simpl in Hin.
  destruct Hin as [H|[H|[H|[H|[]]]]]; discriminate.
Qed.

(** * Facts used for [main] *)

Section MainFacts.

Implicit Types (m : gmap (list string) Node) (w : World) (p : Path).

Lemma in_removelast {A} (x : A) (l : list A) : In x (removelast l) -> In x l.
Proof.
  induction l as [|a l IH]; simpl; [tauto|].
  destruct l as [|b l]; [simpl; tauto|].
  intros [->|H]; [now left | right; now apply IH].
Qed.

Lemma normalize_no_dotdot (comps : list string) : ~ In ".." (normalize comps).
Proof.
  unfold normalize.
  assert (H : forall acc, ~ In ".." acc ->
            ~ In ".." (fold_left (fun acc c => if String.eqb c ".." then removelast acc
                                               else acc ++ [c]) comps acc)).
  { induction comps as [|c rest IH]; intros acc Hacc; simpl; [assumption|].
    apply IH. destruct (String.eqb_spec c "..") as [->|Hc].
    - intros Hin. now apply Hacc, in_removelast.
    - intros Hin. apply in_app_or in Hin as [Hin|[Hin|[]]]; [now apply Hacc | congruence]. }
  apply H. intros [].
Qed.

(** A resolved path is absolute and free of "..": its components are its location. *)
Lemma resolve_plain w p :
  root (resolve w p) = "/" /\ ~ In ".." (tail (resolve w p))
  /\ forall w', start w' (resolve w p) = [].
Proof. split; [reflexivity|]. split; [apply normalize_no_dotdot | reflexivity]. Qed.

Lemma resolve_same_cwd w w' p : cwd w' = cwd w -> resolve w' p = resolve w p.
Proof. intros H. unfold resolve, start. now rewrite H. Qed.

Lemma stat_extends w w' p n :
  extends (fs w) (fs w') -> cwd w' = cwd w ->
  stat w p = Some n -> exists n', stat w' p = Some n'.
Proof.
  intros Hext Hcwd H. destruct n as [|c].
  - exists Dir. now apply stat_extends_dir with w.
  - assert (Hr : read_text w p = Some c) by (unfold read_text; now rewrite H).
    destruct (read_text_extends _ _ _ _ Hext Hcwd Hr) as [c' Hc'].
    unfold read_text in Hc'. destruct (stat w' p) as [[|c0]|]; try discriminate. eauto.
Qed.



(** In a tree, the directories above an entry all exist. *)
Lemma well_formed_above m :
  well_formed m ->
  forall b a n, b <> [] -> m !! (a ++ b) = Some n -> node_at m a = Some Dir.
Proof.
  intros Hwf. induction b as [|x b IH]; intros a n Hb H; [congruence|].
  destruct b as [|y b].
  - exact (proj1 (Hwf a x n H)).
  - assert (Hax : node_at m (a ++ [x]) = Some Dir).
    { apply (IH (a ++ [x]) n); [discriminate | now rewrite <- app_assoc]. }
    rewrite node_at_snoc in Hax. exact (proj1 (Hwf a x Dir Hax)).
Qed.

Lemma walk_through_dirs m comps :
  forall cur,
    ~ In ".." comps ->
    (forall a c b, comps = a ++ c :: b ->
       node_at m (cur ++ a) = Some Dir /\ String.length c <= NAME_MAX) ->
    walk m cur comps = inr (cur ++ comps).
Proof.
  induction comps as [|c rest IH]; intros cur Hno Hdirs; simpl.
  - now rewrite app_nil_r.
  - destruct (Hdirs [] c rest eq_refl) as [Hc Hlen]. rewrite app_nil_r in Hc.
    rewrite Hc. destruct (String.eqb_spec c "..") as [->|Hne];
      [exfalso; apply Hno; now left|].
    destruct (Nat.ltb_spec NAME_MAX (String.length c)) as [Hlt|Hge]; [lia|].
    rewrite IH.
    + now rewrite <- app_assoc.
    + intros Hin. apply Hno. now right.
    + intros a x b Heq. rewrite <- app_assoc.
      apply (Hdirs (c :: a) x b). simpl. now rewrite Heq.
Qed.

(** In a tree, the way to an entry leads through directories whose names the
    system accepts. *)
Lemma well_formed_walk m comps n :
  well_formed m -> ~ In ".." comps -> comps <> [] -> m !! comps = Some n ->
  walk m [] comps = inr comps.
Proof.
  intros Hwf Hno Hne H. apply (walk_through_dirs m comps []); [assumption|].
  intros a c b Heq. simpl.
  assert (Hentry : exists n', m !! (a ++ [c]) = Some n').
  { destruct b as [|y b].
    - exists n. now rewrite <- Heq.
    - exists Dir. rewrite <- node_at_snoc.
      apply (well_formed_above _ Hwf (y :: b) (a ++ [c]) n); [discriminate|].
      rewrite <- app_assoc. simpl. now rewrite <- Heq. }
  destruct Hentry as [n' Hn']. exact (Hwf a c n' Hn').
Qed.


End MainFacts.

Section MainSteps.

Implicit Types (w : World) (p d : Path).


(** What [Path.mkdir] raises for a path that the system does not accept. *)
Lemma mkdir_rejected p e parents exist_ok w :
  check_path p = Some e -> mkdir p parents exist_ok w = (w, Raised e).
Proof.
  intros Hc.
  assert (Hos : os_mkdir p w = inl e) by (unfold os_mkdir; now rewrite Hc).
  assert (Hnd : is_dir w p = false) by (unfold is_dir, stat; now rewrite Hc).
  assert (He : e = ValueError \/ e = FileNameTooLong).
  { unfold check_path in Hc. destruct (Str.contains _ _); [injection Hc; auto|].
    destruct (Nat.leb _ _); [injection Hc; auto | discriminate]. }
  unfold mkdir. destruct (List.length (tail p)); simpl; rewrite Hos;
    destruct He as [-> | ->]; rewrite ?Hnd, ?andb_false_r; reflexivity.
Qed.

(** Past a regular file nothing can be made: [mkdir] raises and changes
    nothing, whatever its flags; the exception is [NotADirectoryError] for a
    path that the system accepts. *)
Lemma mkdir_past_file p a b O c parents exist_ok w :
  tail p = a ++ b -> b <> [] ->
  walk (fs w) (start w p) a = inr O -> node_at (fs w) O = Some (File c) ->
  mkdir p parents exist_ok w = (w, Raised (past_file p)).
Proof.
  intros Ht Hb Ew Hfile. unfold past_file.
  destruct (check_path p) as [e|] eqn:Hc; [now apply mkdir_rejected|].
  assert (Hwalk : forall comps, comps <> [] ->
            walk (fs w) (start w p) (a ++ comps) = inl NotADirectoryError).
  { intros comps Hcs. rewrite walk_app, Ew. destruct comps; [congruence|].
    simpl. now rewrite Hfile. }
  destruct (list_snoc_cases b) as [Hb'|(binit & last & Hb')]; [congruence|].
  assert (Htp : tail p = (a ++ binit) ++ [last]) by now rewrite Ht, Hb', app_assoc.
  assert (Hos : os_mkdir p w = inl NotADirectoryError).
  { rewrite (os_mkdir_unfold _ _ _ _ Hc Htp). unfold walk_parent.
    destruct binit as [|x binit].
    - rewrite app_nil_r, Ew. now rewrite Hfile.
    - now rewrite Hwalk. }
  assert (Hnd : is_dir w p = false).
  { unfold is_dir, stat. rewrite Hc, Ht. now rewrite Hwalk. }
  unfold mkdir. destruct (List.length (tail p)); simpl; rewrite Hos, Hnd;
    now rewrite andb_false_r.
Qed.

Lemma mkdir_below_file d key c parents exist_ok w :
  stat w d = Some (File c) ->
  Str.startswith key "/" = false -> tail (parse key) <> [] ->
  mkdir (d </> key) parents exist_ok w = (w, Raised (past_file (d </> key))).
Proof.
  intros Hstat Hrel Hne. unfold stat in Hstat.
  destruct (check_path d); [discriminate|].
  destruct (walk (fs w) (start w d) (tail d)) as [e|O] eqn:Ew; [discriminate|].
  apply mkdir_past_file with (tail d) (tail (parse key)) O c; auto.
  - now rewrite (joinpath_relative _ _ Hrel).
  - now rewrite (start_joinpath _ _ _ Hrel).
Qed.

(** A component-wise change of characters that keeps "/" and "." goes
    through parsing. *)
Lemma split_map_chars (f : ascii -> ascii) (s : string) :
  (forall x, Ascii.eqb (f x) "/" = Ascii.eqb x "/") ->
  Str.split (Str.map_chars f s) "/" = map (Str.map_chars f) (Str.split s "/").
Proof.
  intros Hf. induction s as [|x s IH]; simpl; [reflexivity|].
  rewrite Hf, IH. destruct (Ascii.eqb x "/"); [reflexivity|].
  destruct (Str.split s "/"); reflexivity.
Qed.

Lemma after_prefix_slash_map (f : ascii -> ascii) (s : string) :
  (forall x, Ascii.eqb (f x) "/" = Ascii.eqb x "/") ->
  Str.after_prefix (Str.map_chars f s) "/"
  = option_map (Str.map_chars f) (Str.after_prefix s "/").
Proof.
  intros Hf. destruct s as [|x s]; simpl; [reflexivity|].
  rewrite Hf. destruct (Ascii.eqb x "/"); reflexivity.
Qed.

Lemma startswith_slash_map (f : ascii -> ascii) (s : string) :
  (forall x, Ascii.eqb (f x) "/" = Ascii.eqb x "/") ->
  Str.startswith (Str.map_chars f s) "/" = Str.startswith s "/".
Proof.
  intros Hf. destruct s as [|x s]; simpl; [reflexivity|].
  rewrite Hf. destruct (Ascii.eqb x "/"); reflexivity.
Qed.

Lemma keep_component_module_name (x : string) :
  keep_component (module_name x) = keep_component x.
Proof.
  unfold keep_component. rewrite (module_name_eqb_dots x ".") by now left.
  f_equal. rewrite module_name_map. destruct x; reflexivity.
Qed.

Lemma filter_map_module_name (l : list string) :
  List.filter keep_component (map module_name l)
  = map module_name (List.filter keep_component l).
Proof.
  induction l as [|x l IH]; simpl; [reflexivity|].
  rewrite keep_component_module_name. destruct (keep_component x); simpl; now rewrite IH.
Qed.

(** The module name is the plugin name with each path component rewritten:
    same root, same number of components. *)
Lemma parse_module_name (s : string) :
  parse (module_name s) = mkPath (root (parse s)) (map module_name (tail (parse s))).
Proof.
  assert (Hf : forall x, Ascii.eqb (hyphen_to_underscore x) "/" = Ascii.eqb x "/")
    by (intros x; apply hyphen_to_underscore_keeps; discriminate).
  assert (Hsplit : forall t, List.filter keep_component
                               (Str.split (Str.map_chars hyphen_to_underscore t) "/")
                             = map module_name (List.filter keep_component (Str.split t "/"))).
  { intros t. rewrite split_map_chars by assumption.
    rewrite <- filter_map_module_name. f_equal. apply map_ext. intros x.
    symmetry. apply module_name_map. }
  rewrite module_name_map. unfold parse, splitroot.
  rewrite after_prefix_slash_map by assumption.
  destruct (Str.after_prefix s "/") as [p1|]; cbn [option_map].
  - rewrite after_prefix_slash_map by assumption.
    destruct (Str.after_prefix p1 "/") as [p2|]; cbn [option_map].
    + rewrite startswith_slash_map by assumption.
      destruct (Str.startswith p2 "/"); cbn [root tail]; now rewrite Hsplit.
    + cbn [root tail]. now rewrite Hsplit.
  - cbn [root tail]. now rewrite Hsplit.
Qed.

Lemma parse_root_cases (s : string) :
  root (parse s) = EmptyString \/ root (parse s) = "/" \/ root (parse s) = "//".
Proof.
  unfold parse, splitroot.
  destruct (Str.after_prefix s "/") as [p1|]; [|now left].
  destruct (Str.after_prefix p1 "/") as [p2|]; [|right; now left].
  destruct (Str.startswith p2 "/"); tauto.
Qed.

End MainSteps.

(** * Names without ".." components *)

Section Splitting.

Lemma split_nonempty (s : string) (sep : ascii) : Str.split s sep <> [].
Proof.
  destruct s as [|c s]; simpl; [discriminate|].
  destruct (Ascii.eqb c sep); [discriminate|]. destruct (Str.split s sep); discriminate.
Qed.

(** Text without separator before a text joins its first part. *)
Lemma split_app_left (a s : string) (sep : ascii) :
  Str.contains a sep = false ->
  Str.split (a +:+ s) sep
  = match Str.split s sep with
    | h :: t => (a +:+ h) :: t
    | [] => [a]
    end.
Proof.
  induction a as [|c a IH]; simpl.
  - intros _. pose proof (split_nonempty s sep) as Hne.
    destruct (Str.split s sep); [contradiction | reflexivity].
  - destruct (Ascii.eqb c sep); simpl; [discriminate|]. intros H. rewrite (IH H).
    destruct (Str.split s sep); reflexivity.
Qed.

(** Text without separator after a text joins its last part. *)
Lemma split_app_right (s b : string) (sep : ascii) :
  Str.contains b sep = false ->
  Str.split (s +:+ b) sep
  = removelast (Str.split s sep) ++ [List.last (Str.split s sep) EmptyString +:+ b].
Proof.
  intros Hb. induction s as [|c s IH].
  - simpl. now rewrite split_no_sep.
  - change (String c s +:+ b) with (String c (s +:+ b)). cbn [Str.split].
    rewrite IH. pose proof (split_nonempty s sep) as Hne.
    destruct (Ascii.eqb c sep).
    + destruct (Str.split s sep) as [|h t]; [contradiction|]. reflexivity.
    + destruct (Str.split s sep) as [|h t]; [contradiction|].
      destruct t as [|h' t]; reflexivity.
Qed.

(** The components of "test_" + m + ".py" are those of [m], the first with
    "test_" before it and the last with ".py" after it: no ".." is added. *)
Lemma test_file_dotdot (m : string) :
  In ".." (Str.split ("test_" +:+ m +:+ ".py") "/") -> In ".." (Str.split m "/").
Proof.
  rewrite split_app_left by reflexivity.
  rewrite split_app_right by reflexivity.
  pose proof (split_nonempty m "/") as Hne.
  destruct (Str.split m "/") as [|h t] using rev_ind; [contradiction|]. clear IHt.
  rewrite removelast_last, last_last.
  assert (Hpy : forall y, ".." <> y +:+ ".py").
  { intros y H. apply (f_equal String.length) in H. rewrite append_length in H.
    simpl in H. lia. }
  destruct t as [|x t]; simpl.
  - intros [H|[]]. discriminate.
  - intros [H|H]; [discriminate|]. apply in_app_or in H as [H|[H|[]]].
    + right. apply in_or_app. now left.
    + symmetry in H. now destruct (Hpy h).
Qed.

Lemma in_split_parse (s : string) :
  In ".." (Str.split s "/") -> In ".." (tail (parse s)).
Proof.
  assert (Hkeep : forall t, In ".." (Str.split t "/") ->
            In ".." (List.filter keep_component (Str.split t "/"))).
  { intros t H. apply filter_In. now split. }
  assert (Hslash : forall t p, Str.after_prefix t "/" = Some p ->
            In ".." (Str.split t "/") -> In ".." (Str.split p "/")).
  { intros t p E. apply after_prefix_Some in E. subst t. simpl.
    intros [H|H]; [discriminate | exact H]. }
  unfold parse, splitroot. intros H.
  destruct (Str.after_prefix s "/") as [p1|] eqn:E1; [|now apply Hkeep].
  pose proof (Hslash _ _ E1 H) as H1.
  destruct (Str.after_prefix p1 "/") as [p2|] eqn:E2; [|now apply Hkeep].
  destruct (Str.startswith p2 "/"); [now apply Hkeep|].
  apply Hkeep. now apply (Hslash _ _ E2).
Qed.

Lemma parse_relative (s : string) :
  Str.startswith s "/" = false ->
  parse s = mkPath EmptyString (List.filter keep_component (Str.split s "/")).
Proof. intros H. unfold parse. now rewrite splitroot_relative. Qed.

(** The test file's name adds no ".." component. *)
Lemma test_file_no_dotdot (m : string) :
  ~ In ".." (tail (parse m)) ->
  ~ In ".." (tail (parse ("test_" +:+ m +:+ ".py"))).
Proof.
  intros Hno Hin. apply Hno. rewrite parse_relative in Hin by reflexivity.
  cbn [tail] in Hin. apply filter_In in Hin as [Hin _].
  now apply in_split_parse, test_file_dotdot.
Qed.

Lemma module_name_no_dotdot (name : string) :
  ~ In ".." (tail (parse name)) -> ~ In ".." (tail (parse (module_name name))).
Proof.
  intros Hno. rewrite parse_module_name. cbn [tail]. intros Hin.
  apply in_map_iff in Hin as (x & Hx & Hin). apply Hno.
  assert (E : String.eqb (module_name x) ".." = String.eqb x "..")
    by (apply module_name_eqb_dots; now right).
  rewrite Hx in E. simpl in E. symmetry in E. apply String.eqb_eq in E. now subst x.
Qed.

End Splitting.

(** * What a file holds when several writes go to it *)

Section LastWrite.

Implicit Types (w s : World) (p : Path) (prog : list Action).

(** A file holds the text of the last write that went to its location. *)
Lemma kept_or_overwritten prog :
  forall s w' l data,
    run prog s = (w', Done) ->
    fs s !! l = Some (File data) ->
    fs w' !! l
    = Some (File (last_text (fun q => bool_decide (locate w' q = Some l))
                            (written prog) data)).
Proof.
  induction prog as [|a rest IH]; intros s w' l data Hrun Hl.
  - simpl in Hrun. now injection Hrun as <-.
  - simpl in Hrun. destruct (step a s) as [s1 [|e]] eqn:E; [|discriminate].
    pose proof (run_extends _ _ _ _ Hrun) as [Hext Hcwd].
    pose proof (step_extends _ _ _ _ E) as [Hext0 Hcwd0].
    assert (Hall : extends (fs s) (fs w')) by (eapply extends_trans; eassumption).
    assert (Hcwd' : cwd w' = cwd s) by congruence.
    destruct a as [msg|q parents exist_ok|q d].
    + simpl in E. injection E as <-. exact (IH _ _ _ _ Hrun Hl).
    + simpl in E. apply mkdir_fuel_post in E as (Hadd & _). specialize (Hadd l).
      rewrite Hl in Hadd. exact (IH _ _ _ _ Hrun Hadd).
    + simpl in E. apply write_text_Done in E as (_ & loc & Hopen & ->).
      apply os_open_locate in Hopen as (_ & Hloc & _).
      assert (Hloc' : locate w' q = Some loc) by (apply locate_extends with s; auto).
      change (written (WriteText q d :: rest)) with ((q, d) :: written rest).
      cbn [last_text]. rewrite Hloc'.
      destruct (decide (loc = l)) as [->|Hne].
      * rewrite bool_decide_eq_true_2 by reflexivity.
        apply (IH _ _ _ _ Hrun). apply lookup_insert_eq.
      * rewrite bool_decide_eq_false_2 by congruence.
        apply (IH _ _ _ _ Hrun). simpl. now rewrite lookup_insert_ne.
Qed.

(** After a run that completed, each file written holds the text of the last
    write that went to the same location. *)
Lemma final_text prog :
  forall s w' before p data after,
    run prog s = (w', Done) ->
    written prog = before ++ (p, data) :: after ->
    exists l,
      locate w' p = Some l /\ l <> [] /\ check_path p = None
      /\ fs w' !! l
         = Some (File (last_text (fun q => bool_decide (locate w' q = Some l)) after data)).
Proof.
  induction prog as [|a rest IH]; intros s w' before p data after Hrun Hw.
  - destruct before; discriminate.
  - simpl in Hrun. destruct (step a s) as [s1 [|e]] eqn:E; [|discriminate].
    pose proof (run_extends _ _ _ _ Hrun) as [Hext Hcwd].
    pose proof (step_extends _ _ _ _ E) as [Hext0 Hcwd0].
    assert (Hall : extends (fs s) (fs w')) by (eapply extends_trans; eassumption).
    assert (Hcwd' : cwd w' = cwd s) by congruence.
    destruct a as [msg|q parents exist_ok|q d]; try exact (IH _ _ _ _ _ _ Hrun Hw).
    change (written (WriteText q d :: rest)) with ((q, d) :: written rest) in Hw.
    destruct before as [|b before]; [|injection Hw as _ Hw; exact (IH _ _ _ _ _ _ Hrun Hw)].
    injection Hw as -> -> <-.
    simpl in E. apply write_text_Done in E as (_ & loc & Hopen & ->).
    apply os_open_locate in Hopen as (Hc & Hloc & _ & Hne).
    exists loc. split; [apply locate_extends with s; auto|]. split; [exact Hne|].
    split; [exact Hc|].
    apply (kept_or_overwritten rest _ _ _ _ Hrun). apply lookup_insert_eq.
Qed.

(** When the files' locations are a common base followed by known relative
    parts, these decide which writes go to the same file. *)
Lemma last_text_agree w (B : list string) (loc : list string)
    (later : list (Path * string)) (rels : list (list string)) :
  Forall2 (fun pd rel => locate w (fst pd) = Some (B ++ rel)) later rels ->
  forall text,
    last_text (fun q => bool_decide (locate w q = Some (B ++ loc))) later text
    = last_text (fun q => bool_decide (q = loc)) (combine rels (map snd later)) text.
Proof.
  induction 1 as [|[q d] rel later rels Hq _ IH]; intros text; [reflexivity|].
  simpl in Hq |- *. rewrite Hq.
  destruct (decide (rel = loc)) as [->|Hne].
  - rewrite !bool_decide_eq_true_2 by reflexivity. apply IH.
  - rewrite !bool_decide_eq_false_2; [apply IH | assumption |].
    intros [= H]. now apply app_inv_head in H.
Qed.

Lemma on_disk_by_location prog s w' (B : list string) :
  run prog s = (w', Done) ->
  forall (later : list (Path * string)) (rels : list (list string)) before,
    written prog = before ++ later ->
    Forall2 (fun pd rel => locate w' (fst pd) = Some (B ++ rel)) later rels ->
    Forall2 (fun pd text => read_text w' (fst pd) = Some text)
            later (finals (combine rels (map snd later))).
Proof.
  intros Hrun later rels before Hw H. revert before Hw.
  induction H as [|[p data] rel later rels Hp Hlater IH]; intros before Hw; [constructor|].
  simpl. constructor.
  - destruct (final_text _ _ _ _ _ _ _ Hrun Hw) as (l & Hl & Hne & Hc & Hfs).
    simpl in Hp. rewrite Hp in Hl. injection Hl as <-.
    rewrite (last_text_agree _ _ _ _ _ Hlater) in Hfs.
    apply read_text_locate. split; [exact Hc|]. exists (B ++ rel). split; [exact Hp|].
    destruct (B ++ rel); [contradiction | exact Hfs].
  - apply (IH (before ++ [(p, data)])). now rewrite <- app_assoc.
Qed.

End LastWrite.

(** * The text printed so far does not matter *)

Section Stdout.

Implicit Types (w : World) (p : Path) (prog : list Action).

Lemma os_mkdir_with_stdout p w out :
  os_mkdir p (with_stdout w out)
  = match os_mkdir p w with
    | inl e => inl e
    | inr w' => inr (with_stdout w' out)
    end.
Proof.
  unfold os_mkdir. destruct (check_path p); [reflexivity|].
  destruct (rev (tail p)) as [|last rinit]; [reflexivity|].
  change (walk_parent (with_stdout w out) p (rev rinit)) with (walk_parent w p (rev rinit)).
  destruct (walk_parent w p (rev rinit)) as [e|d]; [reflexivity|].
  destruct (String.eqb last ".."); [reflexivity|].
  destruct (Nat.ltb NAME_MAX (String.length last)); [reflexivity|].
  change (fs (with_stdout w out)) with (fs w).
  destruct (fs w !! (d ++ [last])); reflexivity.
Qed.

Lemma mkdir_fuel_with_stdout fuel :
  forall p parents exist_ok w out,
    mkdir_fuel fuel p parents exist_ok (with_stdout w out)
    = (with_stdout (fst (mkdir_fuel fuel p parents exist_ok w)) out,
       snd (mkdir_fuel fuel p parents exist_ok w)).
Proof.
  assert (Hdir : forall w out p, is_dir (with_stdout w out) p = is_dir w p) by reflexivity.
  induction fuel as [|fuel IH]; intros p parents exist_ok w out; simpl;
    rewrite os_mkdir_with_stdout, Hdir.
  - destruct (os_mkdir p w) as [[| | | | | |]|w1]; try reflexivity;
      try (destruct (exist_ok && is_dir w p); reflexivity).
    destruct (negb parents || bool_decide (parent p = p)); reflexivity.
  - destruct (os_mkdir p w) as [[| | | | | |]|w1]; try reflexivity;
      try (destruct (exist_ok && is_dir w p); reflexivity).
    destruct (negb parents || bool_decide (parent p = p)); [reflexivity|].
    rewrite IH. destruct (mkdir_fuel fuel (parent p) true true w) as [w1 [|e]];
      [|reflexivity]. cbn [fst snd]. apply IH.
Qed.

Lemma step_with_stdout a w out :
  step a (with_stdout w out)
  = (with_stdout (fst (step a w)) (out ++ match a with Print s => [s] | _ => [] end),
     snd (step a w)).
Proof.
  destruct a as [msg|p parents exist_ok|p data]; simpl.
  - reflexivity.
  - unfold mkdir. rewrite mkdir_fuel_with_stdout. now rewrite app_nil_r.
  - unfold write_text. change (os_open p (with_stdout w out)) with (os_open p w).
    rewrite app_nil_r. destruct (os_open p w) as [e|loc]; [reflexivity|].
    destruct (Utf8.valid data); reflexivity.
Qed.

(** A run does the same whatever was printed before it: same outcome, same
    filesystem, the same messages appended. *)
Lemma run_with_stdout prog :
  forall w w' o,
    run prog w = (w', o) ->
    exists msgs,
      stdout w' = stdout w ++ msgs
      /\ forall out, run prog (with_stdout w out) = (with_stdout w' (out ++ msgs), o).
Proof.
  induction prog as [|a rest IH]; intros w w' o; simpl.
  - intros [= <- <-]. exists []. split; [now rewrite app_nil_r|].
    intros out. now rewrite app_nil_r.
  - destruct (step a w) as [w1 o1] eqn:E.
    pose proof (step_stdout _ _ _ _ E) as Hs.
    destruct o1 as [|e].
    + intros Hrun. destruct (IH _ _ _ Hrun) as (msgs & Hm & Hall).
      exists (match a with Print s => [s] | _ => [] end ++ msgs). split.
      * rewrite Hm, Hs. now rewrite <- app_assoc.
      * intros out. rewrite step_with_stdout, E. cbn [fst snd].
        rewrite Hall. now rewrite <- app_assoc.
    + intros [= <- <-]. exists (match a with Print s => [s] | _ => [] end).
      split; [exact Hs|]. intros out. rewrite step_with_stdout, E. reflexivity.
Qed.

End Stdout.

(** * Where the files of a name without ".." components are *)

Section Locations.

Implicit Types (w : World) (p d : Path) (key : string).

Lemma joinpath_no_dotdot d key :
  ~ In ".." (tail d) -> ~ In ".." (tail (parse key)) -> ~ In ".." (tail (d </> key)).
Proof.
  intros Hd Hk. unfold joinpath. destruct (root (parse key)); [|exact Hk].
  cbn [tail]. intros H. apply in_app_or in H as [H|H]; auto.
Qed.

Lemma joinpath_root_absolute d key :
  root d <> EmptyString -> root (d </> key) <> EmptyString.
Proof.
  intros Hd. unfold joinpath. destruct (root (parse key)) eqn:E; [exact Hd|].
  rewrite E. discriminate.
Qed.

Lemma locate_absolute_plain w (ps : list Path) :
  Forall (fun p => root p <> EmptyString) ps ->
  Forall (fun rel => ~ In ".." rel) (map tail ps) ->
  Forall (fun p => exists l, locate w p = Some l) ps ->
  Forall2 (fun p rel => locate w p = Some ([] ++ rel)) ps (map tail ps).
Proof.
  induction ps as [|p ps IH]; intros Hroots Hplain Hall; [constructor|].
  apply Forall_cons in Hall as [[l Hl] Hall]. apply Forall_cons in Hroots as [Hr Hroots].
  cbn [map] in Hplain |- *. apply Forall_cons in Hplain as [Hp Hplain].
  constructor; [|now apply IH].
  unfold locate, start in Hl |- *. destruct (root p); [contradiction|].
  destruct (walk (fs w) [] (tail p)) as [e|l'] eqn:E; [discriminate|].
  apply walk_plain in E; [|assumption]. now subst l'.
Qed.

Lemma locate_relative_plain w (output_dir : Path) (B : list string)
    (rels : list (list string)) :
  walk (fs w) (start w output_dir) (tail output_dir) = inr B ->
  Forall (fun rel => ~ In ".." rel) rels ->
  Forall (fun p => exists l, locate w p = Some l)
         (map (fun rel => mkPath (root output_dir) (tail output_dir ++ rel)) rels) ->
  Forall2 (fun p rel => locate w p = Some (B ++ rel))
          (map (fun rel => mkPath (root output_dir) (tail output_dir ++ rel)) rels) rels.
Proof.
  intros HB. induction rels as [|r rs IH]; intros Hplain Hall; [constructor|].
  cbn [map] in Hall |- *. apply Forall_cons in Hall as [[l Hl] Hall].
  apply Forall_cons in Hplain as [Hp Hplain].
  constructor; [|now apply IH].
  unfold locate, start in Hl |- *. cbn [root tail] in Hl |- *.
  fold (start w output_dir) in Hl |- *. rewrite walk_app, HB in Hl |- *.
  destruct (walk (fs w) B r) as [e|l'] eqn:E; [discriminate|].
  apply walk_plain in E; [|assumption]. now subst l'.
Qed.

Variable name : string.
Hypothesis name_plain : ~ In ".." (tail (parse name)).

Lemma relative_locations_plain :
  Forall (fun rel => ~ In ".." rel) (relative_locations name).
Proof using name_plain.
  pose proof (module_name_no_dotdot _ name_plain) as Hm.
  pose proof (test_file_no_dotdot _ Hm) as Ht.
  assert (Hlit : forall key, In key ["pyproject.toml"; "README.md"; "__init__.py"; "tests";
                                     "pytest.ini"; ".gitignore"] ->
                 ~ In ".." (tail (parse key))).
  { intros key Hin. simpl in Hin.
    repeat (destruct Hin as [<-|Hin]; [vm_compute; intuition discriminate|]).
    destruct Hin. }
  assert (Hhere : ~ In ".." (tail here)) by (intros []).
  unfold relative_locations, output_files, module_dir, tests_dir, plugin_dir.
  cbn [map].
  repeat (constructor;
          [repeat (apply joinpath_no_dotdot;
                   [|first [assumption | apply Hlit; simpl; tauto]]);
           assumption|]).
  constructor.
Qed.

(** For a relative name the seven paths are the output directory followed by
    the components that come from the name. *)
Lemma output_files_relative (output_dir : Path) :
  Str.startswith name "/" = false ->
  output_files name output_dir
  = map (fun rel => mkPath (root output_dir) (tail output_dir ++ rel))
        (relative_locations name).
Proof.
  intros Hrel.
  assert (Hm : Str.startswith (module_name name) "/" = false)
    by now rewrite module_name_relative.
  assert (Hjoin : forall d key, Str.startswith key "/" = false ->
            forall r t, d = mkPath r t -> d </> key = mkPath r (t ++ tail (parse key))).
  { intros d key Hk r t ->. now rewrite (joinpath_relative _ _ Hk). }
  unfold relative_locations, output_files, module_dir, tests_dir, plugin_dir.
  assert (Hout : forall key, Str.startswith key "/" = false ->
            output_dir </> key = mkPath (root output_dir) (tail output_dir ++ tail (parse key))).
  { intros key Hk. now apply joinpath_relative. }
  assert (Hhere : forall key, Str.startswith key "/" = false ->
            here </> key = mkPath EmptyString (tail (parse key))).
  { intros key Hk. now rewrite (joinpath_relative _ _ Hk). }
  rewrite (Hout name Hrel), (Hhere name Hrel).
  rewrite !(joinpath_relative _ (module_name name) Hm).
  rewrite !(joinpath_relative _ "tests" eq_refl).
  rewrite !(joinpath_relative _ "pyproject.toml" eq_refl),
          !(joinpath_relative _ "README.md" eq_refl),
          !(joinpath_relative _ "__init__.py" eq_refl),
          !(joinpath_relative _ "pytest.ini" eq_refl),
          !(joinpath_relative _ ".gitignore" eq_refl),
          !(joinpath_relative _ ("test_" +:+ module_name name +:+ ".py") eq_refl).
  cbn [map root tail]. now rewrite <- !app_assoc.
Qed.

(** For an absolute name they do not depend on the output directory. *)
Lemma output_files_absolute (output_dir : Path) :
  Str.startswith name "/" = true ->
  output_files name output_dir = output_files name here
  /\ Forall (fun p => root p <> EmptyString) (output_files name here).
Proof.
  intros Habs.
  assert (Hp : forall out, plugin_dir name out = parse name).
  { intros out. unfold plugin_dir. now apply joinpath_absolute. }
  split.
  - unfold output_files, module_dir, tests_dir. now rewrite !Hp.
  - pose proof (parse_absolute _ Habs) as Hroot.
    unfold output_files, module_dir, tests_dir. rewrite !Hp.
    repeat (constructor; [repeat apply joinpath_root_absolute; exact Hroot|]).
    constructor.
Qed.

(** The files of a run are where the name puts them, from a common base: the
    location of the output directory for a relative name, the root directory
    for an absolute one. *)
Lemma output_locations (output_dir : Path) w :
  Forall (fun p => exists l, locate w p = Some l) (output_files name output_dir) ->
  exists B,
    Forall2 (fun p rel => locate w p = Some (B ++ rel))
            (output_files name output_dir) (relative_locations name).
Proof using name_plain.
  intros Hall. pose proof relative_locations_plain as Hplain.
  destruct (Str.startswith name "/") eqn:Hrel.
  - (* absolute *)
    destruct (output_files_absolute output_dir Hrel) as [Heq Hroots].
    rewrite Heq in Hall |- *. exists []. unfold relative_locations in *.
    now apply locate_absolute_plain.
  - (* relative *)
    rewrite (output_files_relative output_dir Hrel) in Hall |- *.
    destruct (relative_locations name) as [|r rs] eqn:Hrels.
    { exists []. constructor. }
    assert (HB : exists B, walk (fs w) (start w output_dir) (tail output_dir) = inr B).
    { cbn [map] in Hall. apply Forall_cons in Hall as [[l Hl] _].
      unfold locate, start in Hl. cbn [root tail] in Hl. fold (start w output_dir) in Hl.
      rewrite walk_app in Hl.
      destruct (walk (fs w) (start w output_dir) (tail output_dir)) as [e|B];
        [discriminate | eauto]. }
    destruct HB as [B HB]. exists B. now apply locate_relative_plain.
Qed.

End Locations.

(** * The claims *)

(** C1 (as amended): the entry-point line of the manifest follows the
    [[project.entry-points.datasette]] header and reads [key = "module_name"],
    where the key is the module name with every occurrence of "datasette_"
    removed by the left-to-right scan of [str.replace], wherever it occurs.
    The key is the module name without its leading "datasette_" whenever
    "datasette_" occurs nowhere else in it. *)
Theorem entry_point_key_drops_every_occurrence (name : string) :
  let m := module_name name in
  nth_error (pyproject_lines name m) 19 = Some "[project.entry-points.datasette]"
  /\ nth_error (pyproject_lines name m) 20
     = Some (entry_point_key m +:+ " = " +:+ dq +:+ m +:+ dq)
  /\ (forall rest, entry_point_key ("datasette_" +:+ rest) = entry_point_key rest)
  /\ (forall c rest, Str.startswith (String c rest) "datasette_" = false ->
      entry_point_key (String c rest) = String c (entry_point_key rest))
  /\ (~ occurs "datasette_" m -> entry_point_key m = m)
  /\ (forall rest, m = "datasette_" +:+ rest -> ~ occurs "datasette_" rest ->
      entry_point_key m = rest /\ Str.removeprefix m "datasette_" = rest).
Proof.
  assert (Hne : "datasette_" <> EmptyString) by discriminate.
  intros m. split; [reflexivity|]. split; [reflexivity|].
  unfold entry_point_key. split; [|split; [|split]].
  - intros rest. now rewrite replace_hit.
  - intros c rest H. now apply replace_miss.
  - now apply replace_absent.
  - intros rest -> Hno. split.
    + rewrite replace_hit by assumption. now rewrite replace_absent.
    + now apply removeprefix_spec.
Qed.

(** C1, counterexample: for the name "my-datasette-plugin" the manifest reads
    [my_plugin = "my_datasette_plugin"], although the module name does not
    start with "datasette_", so stripping a leading prefix would leave it whole. *)
Lemma entry_point_key_not_a_prefix_strip :
  let name := "my-datasette-plugin" in
  let m := module_name name in
  nth_error (pyproject_lines name m) 20
  = Some ("my_plugin = " +:+ dq +:+ "my_datasette_plugin" +:+ dq)
  /\ Str.removeprefix m "datasette_" = "my_datasette_plugin"
  /\ entry_point_key m <> Str.removeprefix m "datasette_".
Proof. vm_compute. repeat split; discriminate. Qed.

(** C2: the module name is the plugin name with every hyphen replaced by an
    underscore and nothing else changed; the same rule applies at every
    position (so whatever the length) and commutes with changing case. *)
Theorem module_name_replaces_every_hyphen (name : string) :
  module_name name = Str.map_chars hyphen_to_underscore name
  /\ String.length (module_name name) = String.length name
  /\ Str.contains (module_name name) "-" = false
  /\ (forall a b, module_name (a +:+ b) = module_name a +:+ module_name b)
  /\ module_name (Str.upper name) = Str.upper (module_name name)
  /\ module_name (Str.lower name) = Str.lower (module_name name)
  /\ (forall output_dir,
      In (Mkdir (plugin_dir name output_dir </> module_name name) true true)
         (create_plugin name output_dir)).
Proof.
  repeat split.
  - apply module_name_map.
  - rewrite module_name_map. apply map_chars_length.
  - rewrite module_name_map. apply contains_map_chars, hyphen_to_underscore_no_hyphen.
  - intros a b. rewrite !module_name_map. apply map_chars_app.
  - rewrite !module_name_map. unfold Str.upper. rewrite !map_chars_compose.
    apply map_chars_ext, hyphen_upper.
  - rewrite !module_name_map. unfold Str.lower. rewrite !map_chars_compose.
    apply map_chars_ext, hyphen_lower.
  - intros output_dir. apply in_mkdir_calls. rewrite mkdir_calls_create_plugin.
    right. left. reflexivity.
Qed.



(** C7: when a directory or file creation step raises, the run ends there with
    that very error: nothing after the step is executed, nothing is undone, and
    every file written and every directory made by the completed steps is
    still in place. *)
Theorem failure_propagates_without_rollback
    (name : string) (output_dir : Path) (w w1 w2 : World)
    (done rest : list Action) (a : Action) (e : Exception) :
  create_plugin name output_dir = done ++ a :: rest ->
  run done w = (w1, Done) ->
  step a w1 = (w2, Raised e) ->
  run (create_plugin name output_dir) w = (w2, Raised e)
  /\ is_fs_action a
  /\ extends (fs w1) (fs w2)
  /\ stdout w2 = stdout w ++ printed done
  /\ (forall p data, In (p, data) (written done) -> exists c, read_text w2 p = Some c)
  /\ (forall p parents exist_ok, In (Mkdir p parents exist_ok) done -> is_dir w2 p = true).
Proof.
  intros Hprog Hdone Hstep.
  pose proof (step_extends _ _ _ _ Hstep) as [Hext Hcwd].
  assert (Hfs : is_fs_action a) by (destruct a; [discriminate | exact I..]).
  split; [|split; [|split; [|split; [|split]]]].
  - rewrite Hprog, run_app, Hdone. simpl. now rewrite Hstep.
  - exact Hfs.
  - exact Hext.
  - apply step_stdout in Hstep. apply run_stdout in Hdone. rewrite Hstep, Hdone.
    destruct a; [destruct Hfs | now rewrite app_nil_r..].
  - intros p data Hin.
    destruct (run_written _ _ _ _ _ _ Hdone Hin eq_refl) as [c Hc].
    now apply read_text_extends with w1 c.
  - intros p parents exist_ok Hin.
    apply is_dir_extends with w1; auto.
    now apply run_mkdir with done w parents exist_ok.
Qed.

Lemma failure_propagates_without_rollback_witness :
  let prog := create_plugin "pytest.ini" example_out in
  let w1 := fst (run (firstn 9 prog) example_world) in
  let w2 := fst (step (nth 9 prog (Print EmptyString)) w1) in
  run prog example_world = (w2, Raised IsADirectoryError)
  /\ is_fs_action (nth 9 prog (Print EmptyString))
  /\ extends (fs w1) (fs w2)
  /\ stdout w2 = stdout example_world ++ printed (firstn 9 prog)
  /\ (forall p data, In (p, data) (written (firstn 9 prog)) ->
      exists c, read_text w2 p = Some c)
  /\ (forall p parents exist_ok, In (Mkdir p parents exist_ok) (firstn 9 prog) ->
      is_dir w2 p = true).
Proof.
  apply (failure_propagates_without_rollback "pytest.ini" example_out example_world
           _ _ (firstn 9 (create_plugin "pytest.ini" example_out))
           (skipn 10 (create_plugin "pytest.ini" example_out))
           (nth 9 (create_plugin "pytest.ini" example_out) (Print EmptyString))
           IsADirectoryError).
  - vm_compute. reflexivity.
  - vm_compute. reflexivity.
  - vm_compute. reflexivity.
Defined.

(** C9: the warning is printed exactly when the name does not begin with the
    characters "datasette-", compared as they are; it is then the first thing
    the generator does, so it reaches the output of every run.  A name that
    begins with "Datasette-" gets the warning. *)
Theorem warning_iff_prefix_missing (name : string) (output_dir : Path) :
  (In (Print warning) (create_plugin name output_dir)
   <-> ~ exists rest, name = "datasette-" +:+ rest)
  /\ (hd_error (create_plugin name output_dir) = Some (Print warning)
      <-> Str.startswith name "datasette-" = false)
  /\ (forall w, exists more,
        stdout (fst (run (create_plugin name output_dir) w))
        = stdout w ++ (if Str.startswith name "datasette-" then [] else [warning]) ++ more
        /\ ~ In warning more)
  /\ (forall rest, In (Print warning) (create_plugin ("Datasette-" +:+ rest) output_dir)).
Proof.
  assert (Hmsg : forall s, In s [ "Created plugin at: " +:+ to_string (plugin_dir name output_dir);
                                  nl +:+ "Next steps:";
                                  "  cd " +:+ to_string (plugin_dir name output_dir);
                                  "  pip install -e '.[test]'"; "  pytest" ] ->
                           s <> warning).
  { intros s [<-|[<-|[<-|[<-|[<-|[]]]]]]; discriminate. }
  split; [|split; [|split]].
  - rewrite <- startswith_spec. unfold create_plugin.
    destruct (Str.startswith name "datasette-"); simpl.
    + split; [|intros H; now destruct H].
      intros [H|[H|[H|H]]]; try discriminate.
      repeat (destruct H as [H|H]; [discriminate|]). destruct H.
    + split; [discriminate | auto].
  - unfold create_plugin. destruct (Str.startswith name "datasette-"); simpl.
    + split; discriminate.
    + split; reflexivity.
  - intros w. destruct (run (create_plugin name output_dir) w) as [w' o] eqn:Hrun.
    unfold create_plugin in Hrun. simpl fst.
    destruct (Str.startswith name "datasette-") eqn:Hs; simpl negb in Hrun; cbv iota in Hrun.
    + apply run_stdout_any in Hrun as (more & Hm & Hin). exists more. split; [exact Hm|].
      intros Hw. apply Hin in Hw. simpl in Hw.
      repeat (destruct Hw as [Hw|Hw]; [discriminate|]). destruct Hw.
    + cbn [app run step] in Hrun.
      apply run_stdout_any in Hrun as (more & Hm & Hin). exists more. split.
      * rewrite Hm. simpl. now rewrite <- app_assoc.
      * intros Hw. apply Hin in Hw. simpl in Hw.
        repeat (destruct Hw as [Hw|Hw]; [discriminate|]). destruct Hw.
  - intros rest. left. reflexivity.
Qed.


(** Two locations below the same directory differ when their relative parts do. *)
Ltac different_location :=
  let H := fresh "Hsame" in
  intros H; apply list_elem_of_In in H; cbn [In] in H;
  repeat (destruct H as [H|H];
          [injection H as H; apply app_inv_head in H;
           injection H; intros; simpl in *; first [discriminate | congruence]|]);
  destruct H.

(** For a name that is one path component and whose module name is not
    "tests", the seven files of a run that completed are seven different
    entries below the project root, each with the text written to it. *)
Lemma component_name_on_disk
    (name : string) (output_dir : Path) (w w' : World) :
  run (create_plugin name output_dir) w = (w', Done) ->
  is_component name = true ->
  module_name name <> "tests" ->
  Forall2 (fun p text => read_text w' p = Some text)
          (output_files name output_dir) (output_texts name)
  /\ (forall i text, nth_error (output_texts name) i = Some text ->
      text = EmptyString <-> i = 3)
  /\ nth_error (output_files name output_dir) 3
     = Some (tests_dir name output_dir </> "__init__.py")
  /\ exists P,
       locate w' (plugin_dir name output_dir) = Some P
       /\ Forall (fun p => inside (plugin_dir name output_dir) p
                           /\ exists rel, rel <> [] /\ locate w' p = Some (P ++ rel))
                 (output_files name output_dir).
Proof.
  intros Hrun Hname Hm.
  pose proof (is_component_module_name _ Hname) as Hmod.
  assert (Hslash : Str.contains (module_name name) "/" = false)
    by now apply is_component_spec in Hmod.
  pose proof (is_component_test_file _ Hslash) as Htest.
  pose proof (written_create_plugin name output_dir) as Hwr.
  (* every file exists, hence resolves *)
  assert (Hex : forall p data, In (p, data) (written (create_plugin name output_dir)) ->
                 exists l, locate w' p = Some l).
  { intros p data Hin.
    destruct (run_written _ _ _ _ _ _ Hrun Hin eq_refl) as [c Hc].
    apply read_text_locate in Hc as (_ & l & Hl & _). eauto. }
  rewrite Hwr in Hex.
  (* the project root resolves to one location *)
  assert (HP : exists P, locate w' (plugin_dir name output_dir) = Some P).
  { destruct (Hex _ _ (or_introl eq_refl)) as [l Hl].
    apply locate_join_inv in Hl as (P & HP & _); [eauto | reflexivity]. }
  destruct HP as [P HP].
  assert (Hroot : forall key data,
            is_component key = true ->
            In (plugin_dir name output_dir </> key, data)
               (written (create_plugin name output_dir)) ->
            locate w' (plugin_dir name output_dir </> key) = Some (P ++ [key])).
  { intros key data Hk Hin. rewrite Hwr in Hin. destruct (Hex _ _ Hin) as [l Hl].
    apply locate_join_inv in Hl as Hl'; [|assumption].
    destruct Hl' as (D & HD & _ & ->). congruence. }
  assert (Hsub : forall dir key data,
            is_component dir = true -> is_component key = true ->
            In (plugin_dir name output_dir </> dir </> key, data)
               (written (create_plugin name output_dir)) ->
            locate w' (plugin_dir name output_dir </> dir </> key) = Some (P ++ [dir; key])).
  { intros dir key data Hd Hk Hin. rewrite Hwr in Hin. destruct (Hex _ _ Hin) as [l Hl].
    apply locate_join_inv in Hl as Hl'; [|assumption].
    destruct Hl' as (D & HD & _ & ->).
    apply locate_join_inv in HD as (D' & HD' & _ & ->); [|assumption].
    rewrite Hl, <- app_assoc. simpl. congruence. }
  rewrite Hwr in Hroot, Hsub. unfold module_dir, tests_dir in *.
  pose proof (Hroot "pyproject.toml" _ eq_refl (or_introl eq_refl)) as L1.
  pose proof (Hroot "README.md" _ eq_refl (or_intror (or_introl eq_refl))) as L2.
  pose proof (Hsub (module_name name) "__init__.py" _ Hmod eq_refl
                (or_intror (or_intror (or_introl eq_refl)))) as L3.
  pose proof (Hsub "tests" "__init__.py" _ eq_refl eq_refl
                (or_intror (or_intror (or_intror (or_introl eq_refl))))) as L4.
  pose proof (Hsub "tests" ("test_" +:+ module_name name +:+ ".py") _ eq_refl Htest
                (or_intror (or_intror (or_intror (or_intror (or_introl eq_refl)))))) as L5.
  pose proof (Hroot "pytest.ini" _ eq_refl
                (or_intror (or_intror (or_intror (or_intror (or_intror (or_introl eq_refl)))))))
    as L6.
  pose proof (Hroot ".gitignore" _ eq_refl
                (or_intror (or_intror (or_intror (or_intror (or_intror
                  (or_intror (or_introl eq_refl)))))))) as L7.
  (* the seven locations are different *)
  assert (Hnd : NoDup (map (fun pd => locate w' (fst pd))
                           (written (create_plugin name output_dir)))).
  { rewrite Hwr. unfold module_dir, tests_dir. cbn [map fst].
    rewrite L1, L2, L3, L4, L5, L6, L7.
    repeat (apply NoDup_cons_2; [different_location|]).
    apply NoDup_nil_2. }
  pose proof (run_written_distinct _ _ _ Hrun Hnd) as Hread.
  rewrite Hwr in Hread. unfold module_dir, tests_dir in Hread.
  split; [|split; [|split]].
  - unfold output_files, output_texts, module_dir, tests_dir.
    repeat (constructor; [apply Hread; simpl; tauto|]). constructor.
  - intros i text Hi.
    do 7 (destruct i as [|i]; [injection Hi as <-; split; intros H;
            try discriminate; try reflexivity;
            exfalso; revert H; apply unlines_nonempty|]).
    destruct i; discriminate.
  - reflexivity.
  - exists P. split; [assumption|].
    assert (Hin1 : forall key, is_component key = true ->
              inside (plugin_dir name output_dir) (plugin_dir name output_dir </> key)).
    { intros key Hk. rewrite (joinpath_component _ _ Hk). split; [reflexivity|].
      exists [key]. split; [discriminate | reflexivity]. }
    assert (Hin2 : forall dir key, is_component dir = true -> is_component key = true ->
              inside (plugin_dir name output_dir)
                     (plugin_dir name output_dir </> dir </> key)).
    { intros dir key Hd Hk. rewrite (joinpath_component _ key Hk).
      rewrite (joinpath_component _ dir Hd). split; [reflexivity|].
      exists [dir; key]. split; [discriminate|]. simpl. now rewrite <- app_assoc. }
    unfold output_files, module_dir, tests_dir.
    repeat (constructor;
            [split; [solve [apply Hin1; auto | apply Hin2; auto]|];
             eexists; split; [|eassumption]; discriminate|]).
    constructor.
Qed.

(** C4 (as amended): for a name that is one path component and whose module
    name is not "tests", after every run that completes each of the seven
    output files is a regular file below the project root that holds the text
    written to it; these texts are non-empty except for the test-package
    marker [tests/__init__.py], which is empty. *)
Theorem output_files_hold_their_texts
    (name : string) (output_dir : Path) (w w' : World) :
  run (create_plugin name output_dir) w = (w', Done) ->
  is_component name = true ->
  module_name name <> "tests" ->
  Forall2 (fun p text => read_text w' p = Some text)
          (output_files name output_dir) (output_texts name)
  /\ (forall i text, nth_error (output_texts name) i = Some text ->
      text = EmptyString <-> i = 3)
  /\ nth_error (output_files name output_dir) 3
     = Some (tests_dir name output_dir </> "__init__.py")
  /\ exists P,
       locate w' (plugin_dir name output_dir) = Some P
       /\ Forall (fun p => inside (plugin_dir name output_dir) p
                           /\ exists rel, rel <> [] /\ locate w' p = Some (P ++ rel))
                 (output_files name output_dir).
Proof. apply component_name_on_disk. Qed.

Lemma output_files_hold_their_texts_witness :
  let name := "datasette-my-feature" in
  let w' := fst (run (create_plugin name example_out) example_world) in
  Forall2 (fun p text => read_text w' p = Some text)
          (output_files name example_out) (output_texts name)
  /\ (forall i text, nth_error (output_texts name) i = Some text ->
      text = EmptyString <-> i = 3)
  /\ nth_error (output_files name example_out) 3
     = Some (tests_dir name example_out </> "__init__.py")
  /\ exists P,
       locate w' (plugin_dir name example_out) = Some P
       /\ Forall (fun p => inside (plugin_dir name example_out) p
                           /\ exists rel, rel <> [] /\ locate w' p = Some (P ++ rel))
                 (output_files name example_out).
Proof.
  apply (output_files_hold_their_texts "datasette-my-feature" example_out example_world).
  - vm_compute. reflexivity.
  - reflexivity.
  - discriminate.
Defined.

(** C4, counterexample: for the name "tests" the run completes, but the module
    directory is the tests directory, the module entry file is the marker
    file, and it ends up empty: the module entry file has no content. *)
Lemma module_entry_file_empty_for_tests :
  let name := "tests" in
  let result := run (create_plugin name example_out) example_world in
  snd result = Done
  /\ nth_error (output_files name example_out) 2
     = Some (module_dir name example_out </> "__init__.py")
  /\ read_text (fst result) (module_dir name example_out </> "__init__.py")
     = Some EmptyString
  /\ init_py name <> EmptyString.
Proof.
  vm_compute. repeat split. discriminate.
Qed.

(** The entries of the project tree are ten different ones when the module
    name is none of the names that the generator uses itself. *)
Lemma tree_entries_distinct (name : string) (P : list string) :
  ~ In (module_name name) ("tests" :: root_file_names) ->
  NoDup (map (app P) (tree_entries name)).
Proof.
  intros Hm.
  assert (Hne : forall x, In x ("tests" :: root_file_names) -> module_name name <> x).
  { intros x Hx Heq. apply Hm. now rewrite Heq. }
  pose proof (Hne "tests" ltac:(simpl; tauto)) as H1.
  pose proof (Hne "pyproject.toml" ltac:(simpl; tauto)) as H2.
  pose proof (Hne "README.md" ltac:(simpl; tauto)) as H3.
  pose proof (Hne "pytest.ini" ltac:(simpl; tauto)) as H4.
  pose proof (Hne ".gitignore" ltac:(simpl; tauto)) as H5.
  apply NoDup_fmap_2; [intros a b; apply app_inv_head|].
  unfold tree_entries.
  repeat (apply NoDup_cons_2;
          [let H := fresh in
           intros H; apply list_elem_of_In in H; cbn [In] in H;
           repeat (destruct H as [H|H];
                   [first [discriminate H | injection H; intros; congruence]|]);
           destruct H|]).
  apply NoDup_nil_2.
Qed.

(** C5 (as amended): for a name without the "datasette-" prefix the generator
    prints the warning first and then does what it does for a name with the
    prefix; the warning changes nothing else: the run has the outcome, the
    filesystem and the further messages that the remaining statements have
    without it.  So a missing prefix never makes the run fail, but the run
    need not complete.  When it completes, the three directory paths are
    directories, the seven file paths are regular files and the five closing
    messages follow the warning.  It completes, and adds exactly three
    directories and seven files with their texts, for a name that is one path
    component, whose module name is not "tests" nor the name of a file
    generated in the project root, and that the platform accepts, on a fresh
    target in an existing output directory. *)
Theorem warning_does_not_stop_the_run (name : string) (output_dir : Path) (w : World) :
  Str.startswith name "datasette-" = false ->
  let rest := fs_steps name output_dir ++ map Print (success_messages name output_dir) in
  (create_plugin name output_dir = Print warning :: rest
   /\ forall prefixed, Str.startswith prefixed "datasette-" = true ->
        create_plugin prefixed output_dir
        = fs_steps prefixed output_dir ++ map Print (success_messages prefixed output_dir))
  /\ (forall w1 o,
        run rest w = (w1, o) ->
        exists msgs,
          stdout w1 = stdout w ++ msgs
          /\ run (create_plugin name output_dir) w
             = (with_stdout w1 (stdout w ++ warning :: msgs), o))
  /\ (forall w',
        run (create_plugin name output_dir) w = (w', Done) ->
        stdout w' = stdout w ++ warning :: success_messages name output_dir
        /\ Forall (fun d => is_dir w' d = true)
                  [ plugin_dir name output_dir; module_dir name output_dir;
                    tests_dir name output_dir ]
        /\ Forall (fun p => exists text, read_text w' p = Some text)
                  (output_files name output_dir))
  /\ (forall O,
        is_component name = true ->
        ~ In (module_name name) ("tests" :: root_file_names) ->
        platform_accepts name output_dir ->
        locate w output_dir = Some O ->
        node_at (fs w) O = Some Dir ->
        absent_below w (O ++ [name]) ->
        exists w',
          run (create_plugin name output_dir) w = (w', Done)
          /\ fs w' = project_tree name (O ++ [name]) (fs w)
          /\ NoDup (map (app (O ++ [name])) (tree_entries name))
          /\ Forall (fun loc => fs w !! loc = None /\ exists n, fs w' !! loc = Some n)
                    (map (app (O ++ [name])) (tree_entries name))
          /\ Forall2 (fun p text => read_text w' p = Some text)
                     (output_files name output_dir) (output_texts name)).
Proof.
  intros Hprefix rest.
  assert (Hshape : create_plugin name output_dir = Print warning :: rest).
  { rewrite create_plugin_shape, Hprefix. reflexivity. }
  split; [split; [exact Hshape|]|split; [|split]].
  - intros prefixed Hp. now rewrite create_plugin_shape, Hp.
  - intros w1 o Hrest.
    destruct (run_with_stdout _ _ _ _ Hrest) as (msgs & Hm & Hall).
    exists msgs. split; [exact Hm|]. rewrite Hshape. cbn [run step].
    change (print warning w) with (with_stdout w (stdout w ++ [warning])).
    rewrite Hall. now rewrite <- app_assoc.
  - intros w' Hrun. split; [|split].
    + rewrite (run_stdout _ _ _ Hrun), printed_create_plugin, Hprefix. reflexivity.
    + pose proof (mkdir_calls_create_plugin name output_dir) as Hcalls.
      assert (Hin : forall d, In (Mkdir d true true)
                                 (mkdir_calls (create_plugin name output_dir)) ->
                    is_dir w' d = true).
      { intros d Hd. apply in_mkdir_calls in Hd. now apply run_mkdir with (1 := Hrun) in Hd. }
      rewrite Hcalls in Hin.
      repeat (constructor; [apply Hin; simpl; tauto|]). constructor.
    + assert (Hin : forall p data, In (p, data) (written (create_plugin name output_dir)) ->
                    exists text, read_text w' p = Some text).
      { intros p data Hp. exact (run_written _ _ _ _ _ _ Hrun Hp eq_refl). }
      rewrite written_create_plugin in Hin. unfold output_files.
      repeat (constructor; [eapply Hin; simpl; tauto|]). constructor.
  - intros O Hname Hclash (Hlen & Hutf & Hpaths & _) Hout Hdir Hfresh.
    assert (Hroot : ~ In (module_name name) root_file_names).
    { intros H. apply Hclash. now right. }
    assert (Htests : module_name name <> "tests").
    { intros H. apply Hclash. now left. }
    destruct (create_plugin_on_fresh_target name output_dir w O Hname Hroot Hout Hdir Hfresh
                Hlen Hutf Hpaths) as (w' & Hrun & Hfs & _).
    exists w'. split; [exact Hrun|]. split; [exact Hfs|].
    split; [now apply tree_entries_distinct|]. split.
    + apply List.Forall_forall. intros loc Hin.
      apply in_map_iff in Hin as (rel & <- & Hin). split; [apply Hfresh|].
      rewrite Hfs. unfold project_tree. unfold tree_entries in Hin. cbn [In] in Hin.
      repeat (destruct Hin as [<-|Hin];
              [rewrite ?app_nil_r;
               repeat (rewrite lookup_insert; case_decide; [eauto|]); congruence|]).
      destruct Hin.
    + now destruct (component_name_on_disk name output_dir w w' Hrun Hname Htests).
Qed.

Lemma warning_does_not_stop_the_run_witness :
  let name := "my-feature" in
  exists w',
    run (create_plugin name example_out) example_world = (w', Done)
    /\ fs w' = project_tree name (["out"] ++ [name]) (fs example_world)
    /\ NoDup (map (app (["out"] ++ [name])) (tree_entries name))
    /\ Forall (fun loc => fs example_world !! loc = None /\ exists n, fs w' !! loc = Some n)
              (map (app (["out"] ++ [name])) (tree_entries name))
    /\ Forall2 (fun p text => read_text w' p = Some text)
               (output_files name example_out) (output_texts name).
Proof.
  destruct (warning_does_not_stop_the_run "my-feature" example_out example_world eq_refl)
    as (_ & _ & _ & Hcompletes).
  apply (Hcompletes ["out"]).
  - reflexivity.
  - vm_compute. intuition discriminate.
  - split; [now apply Nat.leb_le|]. split; [reflexivity|].
    split; [repeat constructor | reflexivity].
  - reflexivity.
  - reflexivity.
  - intros suffix. unfold example_world. simpl.
    rewrite lookup_insert_ne by discriminate. apply lookup_empty.
Defined.

(** No world lets the generator complete for the name "pytest.ini": the module
    directory takes the place of the configuration file. *)
Lemma pytest_ini_never_completes (output_dir : Path) (w : World) :
  snd (run (create_plugin "pytest.ini" output_dir) w) <> Done.
Proof.
  destruct (run (create_plugin "pytest.ini" output_dir) w) as [w' o] eqn:Hrun.
  simpl. intros ->.
  assert (Hd : is_dir w' (plugin_dir "pytest.ini" output_dir </> "pytest.ini") = true).
  { apply run_mkdir with (1 := Hrun) (parents := true) (exist_ok := true).
    apply in_mkdir_calls. rewrite mkdir_calls_create_plugin. right. left. reflexivity. }
  assert (Hf : exists c, read_text w' (plugin_dir "pytest.ini" output_dir </> "pytest.ini")
                         = Some c).
  { apply run_written with (1 := Hrun) (data := pytest_ini); [|reflexivity].
    rewrite written_create_plugin. simpl. tauto. }
  destruct Hf as [c Hc]. unfold is_dir in Hd. unfold read_text in Hc.
  destruct (stat w' _) as [[|c0]|]; discriminate.
Qed.

(** C5, counterexample: the name "pytest.ini" has no prefix and is an ordinary
    file name, yet on an empty output directory the run stops with
    [IsADirectoryError] before the configuration and ignore files are written;
    and for the name "tests" the run completes, but the module directory is
    the tests directory and the module entry file is the test-package marker:
    two directories and six files. *)
Lemma warning_but_no_full_tree :
  let name := "pytest.ini" in
  let result := run (create_plugin name example_out) example_world in
  let result' := run (create_plugin "tests" example_out) example_world in
  Str.startswith name "datasette-" = false
  /\ is_component name = true
  /\ snd result = Raised IsADirectoryError
  /\ stdout (fst result) = [warning]
  /\ read_text (fst result) (plugin_dir name example_out </> "pytest.ini") = None
  /\ read_text (fst result) (plugin_dir name example_out </> ".gitignore") = None
  /\ Str.startswith "tests" "datasette-" = false
  /\ snd result' = Done
  /\ module_dir "tests" example_out = tests_dir "tests" example_out
  /\ nth_error (output_files "tests" example_out) 2
     = nth_error (output_files "tests" example_out) 3
  /\ size (dom (fs (fst result'))) = size (dom (fs example_world)) + 8.
Proof. vm_compute. repeat split. Qed.

(** For a relative name each file written has the path of the project root
    followed by components of its own, which for a name without ".." hold no
    "..". *)
Lemma written_below_root (name : string) (output_dir : Path) (p : Path) (data : string) :
  Str.startswith name "/" = false ->
  In (p, data) (written (create_plugin name output_dir)) ->
  exists rel,
    rel <> []
    /\ p = mkPath (root (plugin_dir name output_dir)) (tail (plugin_dir name output_dir) ++ rel)
    /\ (~ In ".." (tail (parse name)) -> ~ In ".." rel).
Proof.
  intros Hrel Hin.
  assert (Hmod : Str.startswith (module_name name) "/" = false)
    by now rewrite module_name_relative.
  assert (Hunder : forall key, Str.startswith key "/" = false ->
            plugin_dir name output_dir </> key
            = mkPath (root (plugin_dir name output_dir))
                     (tail (plugin_dir name output_dir) ++ tail (parse key))).
  { intros key Hk. now apply joinpath_relative. }
  assert (Hnest : forall sub key,
            Str.startswith sub "/" = false -> Str.startswith key "/" = false ->
            plugin_dir name output_dir </> sub </> key
            = mkPath (root (plugin_dir name output_dir))
                     (tail (plugin_dir name output_dir)
                      ++ (tail (parse sub) ++ tail (parse key)))).
  { intros sub key Hs Hk. rewrite (joinpath_relative _ key Hk), (Hunder sub Hs).
    cbn [root tail]. now rewrite <- app_assoc. }
  rewrite written_create_plugin in Hin. unfold module_dir, tests_dir in Hin. cbn [In] in Hin.
  destruct Hin as [H|[H|[H|[H|[H|[H|[H|[]]]]]]]]; injection H as <- _.
  - exists ["pyproject.toml"]. split; [discriminate|]. split; [now apply Hunder|].
    intros _ [H|[]]. discriminate.
  - exists ["README.md"]. split; [discriminate|]. split; [now apply Hunder|].
    intros _ [H|[]]. discriminate.
  - exists (tail (parse (module_name name)) ++ ["__init__.py"]).
    split; [now destruct (tail (parse (module_name name)))|]. split; [now apply Hnest|].
    intros Hplain H. apply in_app_or in H as [H|[H|[]]]; [|discriminate].
    now apply (module_name_no_dotdot _ Hplain).
  - exists ["tests"; "__init__.py"]. split; [discriminate|]. split; [now apply Hnest|].
    intros _ [H|[H|[]]]; discriminate.
  - exists (["tests"] ++ tail (parse ("test_" +:+ module_name name +:+ ".py"))).
    split; [discriminate|]. split; [now apply Hnest|].
    intros Hplain [H|H]; [discriminate|].
    now apply (test_file_no_dotdot _ (module_name_no_dotdot _ Hplain)).
  - exists ["pytest.ini"]. split; [discriminate|]. split; [now apply Hunder|].
    intros _ [H|[]]. discriminate.
  - exists [".gitignore"]. split; [discriminate|]. split; [now apply Hunder|].
    intros _ [H|[]]. discriminate.
Qed.

(** C6 (as amended): for a relative name without ".." components, the
    generator asks for exactly three directories, the project root
    [output_dir/name], the module directory and the tests directory below it,
    each with [parents=True, exist_ok=True]: the call does nothing and does
    not fail when the directory exists, and it succeeds, creating the missing
    parents, when the system accepts the path, the path has no ".." component
    and no regular file lies on it; and each of the seven files is written
    inside the project root: its path is the root's path followed by further
    components, and the entry it resolves to lies below the entry the root
    resolves to, in every filesystem. *)
Theorem three_directories_and_files_below_root (name : string) (output_dir : Path) :
  Str.startswith name "/" = false ->
  ~ In ".." (tail (parse name)) ->
  mkdir_calls (create_plugin name output_dir)
  = [ Mkdir (output_dir </> name) true true;
      Mkdir (output_dir </> name </> module_name name) true true;
      Mkdir (output_dir </> name </> "tests") true true ]
  /\ (forall d parents exist_ok w,
        In (Mkdir d parents exist_ok) (create_plugin name output_dir) ->
        parents = true /\ exist_ok = true
        /\ (is_dir w d = true -> mkdir d parents exist_ok w = (w, Done))
        /\ (unobstructed w d ->
            exists w', mkdir d parents exist_ok w = (w', Done) /\ is_dir w' d = true
                       /\ adds_dirs (fs w) (fs w')))
  /\ List.length (written (create_plugin name output_dir)) = 7
  /\ (forall p data, In (p, data) (written (create_plugin name output_dir)) ->
      inside (plugin_dir name output_dir) p
      /\ forall w R loc,
           locate w (plugin_dir name output_dir) = Some R ->
           locate w p = Some loc ->
           exists rel, rel <> [] /\ loc = R ++ rel).
Proof.
  intros Hrel Hplain. split; [apply mkdir_calls_create_plugin|]. split; [|split].
  - intros d parents exist_ok w Hin.
    assert (Hflags : parents = true /\ exist_ok = true).
    { assert (H : In (Mkdir d parents exist_ok) (mkdir_calls (create_plugin name output_dir))).
      { unfold mkdir_calls. apply filter_In. now split. }
      rewrite mkdir_calls_create_plugin in H. simpl in H.
      destruct H as [H|[H|[H|[]]]]; injection H; auto. }
    destruct Hflags as [-> ->]. split; [reflexivity|]. split; [reflexivity|]. split.
    + apply mkdir_exists.
    + apply mkdir_unobstructed.
  - now rewrite written_create_plugin.
  - intros p data Hin.
    destruct (written_below_root name output_dir p data Hrel Hin) as (rel & Hne & -> & Hno).
    specialize (Hno Hplain). split.
    + split; [reflexivity|]. exists rel. auto.
    + intros w R loc HR Hloc. exists rel. split; [exact Hne|].
      unfold locate, start in HR, Hloc. cbn [root tail] in Hloc.
      rewrite walk_app in Hloc.
      destruct (walk (fs w) _ (tail (plugin_dir name output_dir))) as [e|R'];
        [discriminate|].
      injection HR as ->.
      destruct (walk (fs w) R rel) as [e|l] eqn:E; [discriminate|].
      injection Hloc as ->. now apply walk_plain in E.
Qed.

Lemma three_directories_and_files_below_root_witness :
  let name := "datasette-my-feature" in
  mkdir_calls (create_plugin name example_out)
  = [ Mkdir (example_out </> name) true true;
      Mkdir (example_out </> name </> module_name name) true true;
      Mkdir (example_out </> name </> "tests") true true ]
  /\ (forall d parents exist_ok w,
        In (Mkdir d parents exist_ok) (create_plugin name example_out) ->
        parents = true /\ exist_ok = true
        /\ (is_dir w d = true -> mkdir d parents exist_ok w = (w, Done))
        /\ (unobstructed w d ->
            exists w', mkdir d parents exist_ok w = (w', Done) /\ is_dir w' d = true
                       /\ adds_dirs (fs w) (fs w')))
  /\ List.length (written (create_plugin name example_out)) = 7
  /\ (forall p data, In (p, data) (written (create_plugin name example_out)) ->
      inside (plugin_dir name example_out) p
      /\ forall w R loc,
           locate w (plugin_dir name example_out) = Some R ->
           locate w p = Some loc ->
           exists rel, rel <> [] /\ loc = R ++ rel).
Proof.
  apply (three_directories_and_files_below_root "datasette-my-feature" example_out).
  - reflexivity.
  - vm_compute. intuition discriminate.
Defined.

(** C6, counterexample: an absolute name replaces the output directory, and the
    module directory, derived from the module name, is then a sibling of the
    project root: for "/tmp/my-plugin" the module entry file is written to
    [/tmp/my_plugin/__init__.py], outside the project root [/tmp/my-plugin].
    And a ".." component leads out of the project root: for the name ".." and
    the output directory [/out/a/b] the project root is [/out/a] and the
    module entry file is written to [/out/__init__.py]. *)
Lemma name_escapes_root :
  let name := "/tmp/my-plugin" in
  let result := run (create_plugin name example_out) example_world in
  let out' := parse "/out/a/b" in
  let result' := run (create_plugin ".." out') example_nested in
  In (module_dir name example_out </> "__init__.py", init_py name)
     (written (create_plugin name example_out))
  /\ to_string (plugin_dir name example_out) = "/tmp/my-plugin"
  /\ to_string (module_dir name example_out </> "__init__.py") = "/tmp/my_plugin/__init__.py"
  /\ ~ inside (plugin_dir name example_out) (module_dir name example_out </> "__init__.py")
  /\ read_text (fst result) (module_dir name example_out </> "__init__.py")
     = Some (init_py name)
  /\ locate (fst result) (module_dir name example_out </> "__init__.py")
     = Some ["tmp"; "my_plugin"; "__init__.py"]
  /\ locate (fst result) (plugin_dir name example_out) = Some ["tmp"; "my-plugin"]
  /\ Str.startswith ".." "/" = false
  /\ snd result' = Done
  /\ In (module_dir ".." out' </> "__init__.py", init_py "..")
        (written (create_plugin ".." out'))
  /\ locate (fst result') (plugin_dir ".." out') = Some ["out"; "a"]
  /\ locate (fst result') (module_dir ".." out' </> "__init__.py")
     = Some ["out"; "__init__.py"]
  /\ read_text (fst result') (module_dir ".." out' </> "__init__.py") = Some (init_py "..").
Proof.
  split; [rewrite written_create_plugin; simpl; tauto|].
  split; [reflexivity|]. split; [reflexivity|]. split.
  - intros [_ (rel & _ & H)]. vm_compute in H. discriminate.
  - vm_compute. repeat split. tauto.
Qed.

(** What the seven files hold after a run that completed, for a name without
    ".." components: a function of the name alone. *)
Lemma on_disk_final (name : string) (output_dir : Path) (w w' : World) :
  ~ In ".." (tail (parse name)) ->
  run (create_plugin name output_dir) w = (w', Done) ->
  Forall2 (fun p text => read_text w' p = Some text)
          (output_files name output_dir) (final_texts name).
Proof.
  intros Hplain Hrun.
  pose proof (written_create_plugin name output_dir) as Hwr.
  assert (Hall : Forall (fun p => exists l, locate w' p = Some l)
                        (output_files name output_dir)).
  { apply List.Forall_forall. intros p Hin.
    rewrite <- (file_paths name output_dir) in Hin.
    apply in_map_iff in Hin as ([q data] & <- & Hin).
    destruct (run_written _ _ _ _ _ _ Hrun Hin eq_refl) as [c Hc].
    apply read_text_locate in Hc as (_ & l & Hl & _). eauto. }
  destruct (output_locations name Hplain output_dir w' Hall) as [B HB].
  pose proof (on_disk_by_location _ _ _ B Hrun (written (create_plugin name output_dir))
                (relative_locations name) [] eq_refl) as Hdisk.
  rewrite Hwr in Hdisk. unfold final_texts, output_texts.
  unfold output_files in HB |- *.
  remember (relative_locations name) as rels eqn:Hrels. clear Hrels.
  do 7 (destruct rels as [|? rels]; [inversion HB; subst;
         repeat match goal with H : Forall2 _ _ [] |- _ => inversion H; subst; clear H
                              | H : Forall2 _ (_ :: _) [] |- _ => inversion H
                              end|];
        apply Forall2_cons in HB as [? HB]).
  destruct rels; [|inversion HB]. clear HB.
  assert (Hconv : forall (L : list (Path * string)) texts,
            Forall2 (fun pd text => read_text w' (fst pd) = Some text) L texts ->
            Forall2 (fun p text => read_text w' p = Some text) (map fst L) texts)
    by (induction 1; constructor; auto).
  apply Hconv in Hdisk; [exact Hdisk|].
  repeat (constructor; [assumption|]). constructor.
Qed.

(** C8 (as amended): for a name without ".." components, the contents of the
    seven generated files are a function of the name alone: after every run
    that completed they are [final_texts name], so two runs with the same
    name in different output directories, on whatever filesystems, leave
    files with the same contents; the texts written are [output_texts name]
    in every run. *)
Theorem file_contents_depend_on_name_only
    (name : string) (out1 out2 : Path) (w1 w2 w1' w2' : World) :
  ~ In ".." (tail (parse name)) ->
  run (create_plugin name out1) w1 = (w1', Done) ->
  run (create_plugin name out2) w2 = (w2', Done) ->
  Forall2 (fun p1 p2 => exists text,
             read_text w1' p1 = Some text /\ read_text w2' p2 = Some text)
          (output_files name out1) (output_files name out2)
  /\ Forall2 (fun p text => read_text w1' p = Some text)
             (output_files name out1) (final_texts name)
  /\ Forall2 (fun p text => read_text w2' p = Some text)
             (output_files name out2) (final_texts name)
  /\ map snd (written (create_plugin name out1)) = output_texts name
  /\ map snd (written (create_plugin name out2)) = output_texts name.
Proof.
  intros Hplain Hrun1 Hrun2.
  pose proof (on_disk_final name out1 w1 w1' Hplain Hrun1) as H1.
  pose proof (on_disk_final name out2 w2 w2' Hplain Hrun2) as H2.
  split; [|split; [exact H1|split; [exact H2|]]].
  - revert H1 H2. generalize (final_texts name), (output_files name out1),
      (output_files name out2).
    intros texts ps1. revert texts.
    induction ps1 as [|p1 ps1 IH]; intros texts ps2 H1 H2.
    + inversion H1; subst. inversion H2; subst. constructor.
    + inversion H1 as [|? text ? texts' Hp1 Hps1]; subst.
      inversion H2 as [|p2 ? ps2' ? Hp2 Hps2]; subst.
      constructor; [eauto | now apply (IH texts')].
  - now rewrite !written_create_plugin.
Qed.

Lemma file_contents_depend_on_name_only_witness :
  let name := "datasette-my-feature" in
  let out1 := example_out in
  let out2 := parse "work" in
  let w1' := fst (run (create_plugin name out1) example_world) in
  let w2' := fst (run (create_plugin name out2) example_home) in
  Forall2 (fun p1 p2 => exists text,
             read_text w1' p1 = Some text /\ read_text w2' p2 = Some text)
          (output_files name out1) (output_files name out2)
  /\ Forall2 (fun p text => read_text w1' p = Some text)
             (output_files name out1) (final_texts name)
  /\ Forall2 (fun p text => read_text w2' p = Some text)
             (output_files name out2) (final_texts name)
  /\ map snd (written (create_plugin name out1)) = output_texts name
  /\ map snd (written (create_plugin name out2)) = output_texts name.
Proof.
  apply (file_contents_depend_on_name_only "datasette-my-feature" example_out (parse "work")
           example_world example_home).
  - vm_compute. intuition discriminate.
  - vm_compute. reflexivity.
  - vm_compute. reflexivity.
Defined.

(** C8, counterexample: with ".." components in the name, which files
    coincide depends on where the output directory is.  For the name
    "../../../__init__" and the output directory [/out] the project root is
    [/__init__] and the path of the test file leads back to the module entry
    file [/__init__/__init__.py], which ends up holding the test file's text;
    with the output directory [/a/b/c/d] the two are different files and the
    module entry file holds the hook stub.  Both runs complete. *)
Lemma module_entry_file_depends_on_output_dir :
  let name := "../../../__init__" in
  let out1 := parse "/out" in
  let out2 := parse "/a/b/c/d" in
  let run1 := run (create_plugin name out1) example_shallow in
  let run2 := run (create_plugin name out2) example_deep in
  snd run1 = Done /\ snd run2 = Done
  /\ nth_error (output_files name out1) 2 = Some (module_dir name out1 </> "__init__.py")
  /\ nth_error (output_files name out2) 2 = Some (module_dir name out2 </> "__init__.py")
  /\ read_text (fst run1) (module_dir name out1 </> "__init__.py") = Some (test_py name)
  /\ read_text (fst run2) (module_dir name out2 </> "__init__.py") = Some (init_py name)
  /\ test_py name <> init_py name
  /\ locate (fst run1) (module_dir name out1 </> "__init__.py")
     = Some ["__init__"; "__init__.py"]
  /\ locate (fst run1) (tests_dir name out1 </> ("test_" +:+ module_name name +:+ ".py"))
     = Some ["__init__"; "__init__.py"]
  /\ locate (fst run2) (module_dir name out2 </> "__init__.py")
     = Some ["__init__"; "__init__.py"]
  /\ locate (fst run2) (tests_dir name out2 </> ("test_" +:+ module_name name +:+ ".py"))
     = Some ["a"; "__init__"; "__init__.py"].
Proof. vm_compute. repeat split. discriminate. Qed.

(** The head of the manifest and of the module entry text, up to the line
    with the version. *)
Lemma pyproject_head (name m : string) :
  exists rest,
    pyproject name m
    = "[project]" +:+ nl +:+ "name = " +:+ dq +:+ name +:+ dq +:+ nl
      +:+ "version = " +:+ dq +:+ "0.1.0" +:+ dq +:+ nl +:+ rest.
Proof.
  unfold pyproject, pyproject_lines, unlines. cbn [fold_right].
  rewrite !append_assoc. eexists. reflexivity.
Qed.

Lemma init_py_head (name : string) :
  exists rest,
    init_py name
    = dq +:+ dq +:+ dq +:+ nl +:+ name +:+ nl +:+ nl +:+ "A Datasette plugin." +:+ nl
      +:+ dq +:+ dq +:+ dq +:+ nl +:+ nl +:+ "from datasette import hookimpl" +:+ nl +:+ nl
      +:+ "__version__ = " +:+ dq +:+ "0.1.0" +:+ dq +:+ nl +:+ rest.
Proof.
  unfold init_py, init_py_lines, unlines. cbn [fold_right].
  rewrite !append_assoc. eexists. reflexivity.
Qed.

(** Files with different names are different files. *)
Lemma different_names (w : World) (d1 d2 : Path) (key1 key2 : string) (l : list string) :
  is_component key1 = true -> is_component key2 = true -> key1 <> key2 ->
  locate w (d1 </> key1) = Some l -> locate w (d2 </> key2) <> Some l.
Proof.
  intros H1 H2 Hne Hl1 Hl2.
  apply locate_join_inv in Hl1 as (D1 & _ & _ & ->); [|assumption].
  apply locate_join_inv in Hl2 as (D2 & _ & _ & E); [|assumption].
  apply app_inj_tail in E as [_ E]. congruence.
Qed.

(** C10: in every run, once the module entry file has been written, it and
    the manifest are on disk with the same version: the manifest with the
    line [version = "0.1.0"] after its name line, the module entry file with
    the line [__version__ = "0.1.0"].  For a name that is one path component
    and whose module name is not "tests" the two files hold these texts at
    the end of every run that completes. *)
Theorem version_is_the_same_literal
    (name : string) (output_dir : Path) (w w6 : World) :
  let warned := if Str.startswith name "datasette-" then [] else [Print warning] in
  let manifest := plugin_dir name output_dir </> "pyproject.toml" in
  let module_entry := module_dir name output_dir </> "__init__.py" in
  run (warned ++ firstn 6 (fs_steps name output_dir)) w = (w6, Done) ->
  exists v rest1 rest2,
    v = "0.1.0"
    /\ (exists later,
          create_plugin name output_dir
          = (warned ++ firstn 6 (fs_steps name output_dir)) ++ later)
    /\ nth_error (fs_steps name output_dir) 3
       = Some (WriteText manifest (pyproject name (module_name name)))
    /\ nth_error (fs_steps name output_dir) 5 = Some (WriteText module_entry (init_py name))
    /\ read_text w6 manifest
       = Some ("[project]" +:+ nl +:+ "name = " +:+ dq +:+ name +:+ dq +:+ nl
               +:+ "version = " +:+ dq +:+ v +:+ dq +:+ nl +:+ rest1)
    /\ read_text w6 module_entry
       = Some (dq +:+ dq +:+ dq +:+ nl +:+ name +:+ nl +:+ nl +:+ "A Datasette plugin." +:+ nl
               +:+ dq +:+ dq +:+ dq +:+ nl +:+ nl +:+ "from datasette import hookimpl"
               +:+ nl +:+ nl +:+ "__version__ = " +:+ dq +:+ v +:+ dq +:+ nl +:+ rest2)
    /\ (forall w',
          run (create_plugin name output_dir) w = (w', Done) ->
          is_component name = true -> module_name name <> "tests" ->
          read_text w' manifest = read_text w6 manifest
          /\ read_text w' module_entry = read_text w6 module_entry).
Proof.
  intros warned manifest module_entry Hrun.
  destruct (pyproject_head name (module_name name)) as [rest1 Hp].
  destruct (init_py_head name) as [rest2 Hi].
  exists "0.1.0", rest1, rest2. rewrite <- Hp, <- Hi.
  set (prog := warned ++ firstn 6 (fs_steps name output_dir)) in *.
  assert (Hwr : written prog
                = [ (manifest, pyproject name (module_name name));
                    (plugin_dir name output_dir </> "README.md", readme name);
                    (module_entry, init_py name) ]).
  { unfold prog, warned. destruct (Str.startswith name "datasette-"); reflexivity. }
  assert (Hmanifest : read_text w6 manifest = Some (pyproject name (module_name name))).
  { destruct (final_text prog w w6 [] manifest _ _ Hrun Hwr) as (l & Hl & Hne & Hc & Hfs).
    apply read_text_locate. split; [exact Hc|]. exists l. split; [exact Hl|].
    cbn [last_text] in Hfs.
    rewrite !bool_decide_eq_false_2 in Hfs.
    - destruct l; [contradiction | exact Hfs].
    - unfold module_entry. apply different_names with (plugin_dir name output_dir)
        "pyproject.toml"; [reflexivity | reflexivity | discriminate | exact Hl].
    - apply different_names with (plugin_dir name output_dir) "pyproject.toml";
        [reflexivity | reflexivity | discriminate | exact Hl]. }
  assert (Hmodule : read_text w6 module_entry = Some (init_py name)).
  { destruct (final_text prog w w6 [ (manifest, pyproject name (module_name name));
                                     (plugin_dir name output_dir </> "README.md", readme name) ]
                module_entry _ [] Hrun Hwr) as (l & Hl & Hne & Hc & Hfs).
    apply read_text_locate. split; [exact Hc|]. exists l. split; [exact Hl|].
    destruct l; [contradiction | exact Hfs]. }
  split; [reflexivity|]. split; [|split; [reflexivity|split; [reflexivity|]]].
  - unfold prog. rewrite create_plugin_shape. fold warned.
    exists (skipn 6 (fs_steps name output_dir)
            ++ map Print (success_messages name output_dir)).
    rewrite <- !app_assoc. reflexivity.
  - split; [exact Hmanifest|]. split; [exact Hmodule|].
    intros w' Hfull Hname Hm.
    destruct (component_name_on_disk name output_dir w w' Hfull Hname Hm) as (Hall & _).
    unfold output_files, output_texts in Hall.
    apply Forall2_cons in Hall as [H0 Hall]. apply Forall2_cons in Hall as [_ Hall].
    apply Forall2_cons in Hall as [H2 _].
    fold manifest in H0. fold module_entry in H2. split; congruence.
Qed.

Lemma version_is_the_same_literal_witness :
  let name := "datasette-my-feature" in
  let prog := firstn 6 (fs_steps name example_out) in
  let w6 := fst (run prog example_world) in
  let manifest := plugin_dir name example_out </> "pyproject.toml" in
  let module_entry := module_dir name example_out </> "__init__.py" in
  exists v rest1 rest2,
    v = "0.1.0"
    /\ (exists later, create_plugin name example_out = ([] ++ prog) ++ later)
    /\ nth_error (fs_steps name example_out) 3
       = Some (WriteText manifest (pyproject name (module_name name)))
    /\ nth_error (fs_steps name example_out) 5 = Some (WriteText module_entry (init_py name))
    /\ read_text w6 manifest
       = Some ("[project]" +:+ nl +:+ "name = " +:+ dq +:+ name +:+ dq +:+ nl
               +:+ "version = " +:+ dq +:+ v +:+ dq +:+ nl +:+ rest1)
    /\ read_text w6 module_entry
       = Some (dq +:+ dq +:+ dq +:+ nl +:+ name +:+ nl +:+ nl +:+ "A Datasette plugin." +:+ nl
               +:+ dq +:+ dq +:+ dq +:+ nl +:+ nl +:+ "from datasette import hookimpl"
               +:+ nl +:+ nl +:+ "__version__ = " +:+ dq +:+ v +:+ dq +:+ nl +:+ rest2)
    /\ (forall w',
          run (create_plugin name example_out) example_world = (w', Done) ->
          is_component name = true -> module_name name <> "tests" ->
          read_text w' manifest = read_text w6 manifest
          /\ read_text w' module_entry = read_text w6 module_entry).
Proof.
  apply (version_is_the_same_literal "datasette-my-feature" example_out example_world).
  vm_compute. reflexivity.
Defined.

(** * Further properties of the script *)

(** X1: for a plugin name with the conventional prefix "datasette-" that is
    one path component and that the platform accepts (name and paths within
    the system's limits, UTF-8), a run on a fresh target in an existing
    output directory completes: no warning is printed, the five closing
    messages are, and the filesystem gains exactly the project tree. *)
Theorem conventional_name_succeeds
    (name : string) (output_dir : Path) (w : World) (O : list string) :
  Str.startswith name "datasette-" = true ->
  is_component name = true ->
  platform_accepts name output_dir ->
  locate w output_dir = Some O ->
  node_at (fs w) O = Some Dir ->
  absent_below w (O ++ [name]) ->
  exists w',
    run (create_plugin name output_dir) w = (w', Done)
    /\ stdout w' = stdout w ++ success_messages name output_dir
    /\ fs w' = project_tree name (O ++ [name]) (fs w)
    /\ cwd w' = cwd w.
Proof.
  intros Hprefix Hname (Hlen & Hutf & Hpaths & _) Hout Hdir Hfresh.
  destruct (create_plugin_on_fresh_target name output_dir w O Hname
              (prefixed_name_no_clash _ Hprefix) Hout Hdir Hfresh Hlen Hutf Hpaths)
    as (w' & Hrun & Hfs & Hcwd).
  exists w'. repeat split; auto.
  rewrite (run_stdout _ _ _ Hrun), printed_create_plugin, Hprefix. reflexivity.
Qed.

Lemma conventional_name_succeeds_witness :
  exists w',
    run (create_plugin "datasette-my-feature" example_out) example_world = (w', Done)
    /\ stdout w'
       = stdout example_world ++ success_messages "datasette-my-feature" example_out
    /\ fs w' = project_tree "datasette-my-feature" (["out"] ++ ["datasette-my-feature"])
                            (fs example_world)
    /\ cwd w' = cwd example_world.
Proof.
  apply (conventional_name_succeeds "datasette-my-feature" example_out example_world ["out"]).
  - reflexivity.
  - reflexivity.
  - split; [now apply Nat.leb_le|]. split; [reflexivity|].
    split; [repeat constructor | reflexivity].
  - reflexivity.
  - reflexivity.
  - intros suffix. unfold example_world. simpl.
    rewrite lookup_insert_ne by discriminate. apply lookup_empty.
Defined.

(** X2: the closing messages are printed only by a run that completes.  When a
    step raises, the output is what was there before plus, for a name without
    the prefix, the warning; when the run completes, the five messages follow. *)
Theorem success_messages_only_on_success (name : string) (output_dir : Path) (w : World) :
  let w' := fst (run (create_plugin name output_dir) w) in
  let warned := if Str.startswith name "datasette-" then [] else [warning] in
  match snd (run (create_plugin name output_dir) w) with
  | Done => stdout w' = stdout w ++ warned ++ success_messages name output_dir
  | Raised _ => stdout w' = stdout w ++ warned
  end.
Proof.
  cbv zeta. rewrite create_plugin_shape, run_app.
  assert (Hwarn : exists wa,
            run (if Str.startswith name "datasette-" then [] else [Print warning]) w
            = (wa, Done)
            /\ stdout wa
               = stdout w ++ (if Str.startswith name "datasette-" then [] else [warning])).
  { destruct (Str.startswith name "datasette-"); simpl; eexists; split; try reflexivity.
    now rewrite app_nil_r. }
  destruct Hwarn as (wa & -> & Hwa). rewrite run_app.
  destruct (run (fs_steps name output_dir) wa) as [s [|e]] eqn:Hfs;
    apply run_fs_steps_stdout in Hfs.
  - rewrite run_prints. cbn [fst snd stdout]. now rewrite Hfs, Hwa, <- app_assoc.
  - cbn [fst snd]. congruence.
Qed.

(** X3: the generator removes nothing and overwrites nothing but its seven
    output files: whatever the outcome, every entry that existed is still there
    with the same kind, and a regular file keeps its content unless one of the
    seven output paths resolves to it. *)
Theorem only_output_files_are_overwritten
    (name : string) (output_dir : Path) (w : World) :
  let w' := fst (run (create_plugin name output_dir) w) in
  extends (fs w) (fs w')
  /\ forall loc data,
       fs w !! loc = Some (File data) ->
       (forall p, In p (output_files name output_dir) -> locate w' p <> Some loc) ->
       fs w' !! loc = Some (File data).
Proof.
  cbv zeta. destruct (run (create_plugin name output_dir) w) as [w' o] eqn:Hrun.
  cbn [fst]. split; [now apply run_extends in Hrun|].
  intros loc data Hloc Hother.
  apply (kept_through _ _ _ _ _ _ Hrun Hloc).
  intros q data' Hin. apply (Hother q).
  rewrite <- (file_paths name output_dir).
  exact (in_map fst _ _ Hin).
Qed.

(** X4: a name equal to one of the files generated in the project root
    (pyproject.toml, README.md, pytest.ini, .gitignore) can never be
    generated: the module directory takes the file's place, and in every world
    the run raises. *)
Theorem colliding_name_never_completes (name : string) (output_dir : Path) (w : World) :
  In name root_file_names ->
  snd (run (create_plugin name output_dir) w) <> Done.
Proof.
  intros Hin.
  assert (Hm : module_name name = name).
  { simpl in Hin. destruct Hin as [<-|[<-|[<-|[<-|[]]]]]; reflexivity. }
  destruct (run (create_plugin name output_dir) w) as [w' o] eqn:Hrun.
  simpl. intros ->.
  assert (Hd : is_dir w' (plugin_dir name output_dir </> name) = true).
  { apply run_mkdir with (1 := Hrun) (parents := true) (exist_ok := true).
    apply in_mkdir_calls. rewrite mkdir_calls_create_plugin.
    unfold module_dir. rewrite Hm. right. left. reflexivity. }
  assert (Hf : exists data c,
            In (plugin_dir name output_dir </> name, data)
               (written (create_plugin name output_dir))
            /\ read_text w' (plugin_dir name output_dir </> name) = Some c).
  { assert (Hw : exists data, In (plugin_dir name output_dir </> name, data)
                                 (written (create_plugin name output_dir))).
    { rewrite written_create_plugin. simpl in Hin.
      destruct Hin as [<-|[<-|[<-|[<-|[]]]]]; eexists; simpl; eauto 10. }
    destruct Hw as [data Hw].
    destruct (run_written _ _ _ _ _ _ Hrun Hw eq_refl) as [c Hc]. eauto. }
  destruct Hf as (data & c & _ & Hc). unfold is_dir in Hd. unfold read_text in Hc.
  destruct (stat w' _) as [[|c0]|]; discriminate.
Qed.

Lemma colliding_name_never_completes_witness :
  snd (run (create_plugin "README.md" example_out) example_world) <> Done.
Proof.
  apply (colliding_name_never_completes "README.md" example_out example_world).
  simpl. tauto.
Defined.

(** X5: an absolute name makes the output directory irrelevant: [output_dir /
    name] is the name itself, so the generator does the same for every output
    directory. *)
Theorem absolute_name_ignores_output_dir (name : string) (out1 out2 : Path) :
  Str.startswith name "/" = true ->
  plugin_dir name out1 = parse name
  /\ create_plugin name out1 = create_plugin name out2.
Proof.
  intros H. assert (Hp : forall out, plugin_dir name out = parse name).
  { intros out. unfold plugin_dir. now apply joinpath_absolute. }
  split; [apply Hp|].
  unfold create_plugin, module_dir, tests_dir. now rewrite !Hp.
Qed.

Lemma absolute_name_ignores_output_dir_witness :
  plugin_dir "/tmp/my-plugin" example_out = parse "/tmp/my-plugin"
  /\ create_plugin "/tmp/my-plugin" example_out
     = create_plugin "/tmp/my-plugin" (parse "/elsewhere").
Proof.
  apply (absolute_name_ignores_output_dir "/tmp/my-plugin" example_out (parse "/elsewhere")).
  reflexivity.
Defined.

(** * Properties of [main] *)




(** X7: when [--path] names an existing regular file, [main] does not try to
    create it; for a relative name with at least one component the first
    [mkdir] then raises: nothing is written, and the only output is the
    warning a name without the prefix gets.  The exception is
    [NotADirectoryError], unless the system refuses the path of the project
    root for a null byte ([ValueError]) or its length ([OSError] with
    [ENAMETOOLONG]), as [past_file] says. *)
Theorem main_output_path_is_a_file (args : Args) (w : World) (c : string) :
  let output_dir := resolve w (parse (args_path args)) in
  let name := args_name args in
  stat w output_dir = Some (File c) ->
  Str.startswith name "/" = false ->
  tail (parse name) <> [] ->
  exists w',
    main args w = (w', Raised (past_file (plugin_dir name output_dir)))
    /\ (check_path (plugin_dir name output_dir) = None ->
        main args w = (w', Raised NotADirectoryError))
    /\ fs w' = fs w
    /\ stdout w' = stdout w ++ (if Str.startswith name "datasette-" then [] else [warning]).
Proof.
  intros output_dir name Hstat Hrel Hne.
  unfold main. fold output_dir name. unfold path_exists. rewrite Hstat.
  rewrite create_plugin_shape, run_app.
  assert (Hwarn : exists wa,
            run (if Str.startswith name "datasette-" then [] else [Print warning]) w
            = (wa, Done)
            /\ fs wa = fs w /\ cwd wa = cwd w
            /\ stdout wa
               = stdout w ++ (if Str.startswith name "datasette-" then [] else [warning])).
  { destruct (Str.startswith name "datasette-"); simpl; eexists; repeat split.
    now rewrite app_nil_r. }
  destruct Hwarn as (wa & -> & Hfs & Hcwd & Hout).
  assert (Hstat' : stat wa output_dir = Some (File c)).
  { unfold stat, start in *. now rewrite Hfs, Hcwd. }
  assert (Hmain : run (fs_steps name output_dir
                       ++ map Print (success_messages name output_dir)) wa
                  = (wa, Raised (past_file (plugin_dir name output_dir)))).
  { rewrite run_app. unfold fs_steps. cbn [run step].
    unfold plugin_dir at 1.
    now rewrite (mkdir_below_file output_dir name c true true wa Hstat' Hrel Hne). }
  exists wa. split; [exact Hmain|]. split; [|auto].
  intros Hc. rewrite Hmain. unfold past_file. now rewrite Hc.
Qed.

Lemma main_output_path_is_a_file_witness :
  exists w',
    main (mkArgs "datasette-x" "/out") example_file_world
    = (w', Raised (past_file (plugin_dir "datasette-x"
                                (resolve example_file_world (parse "/out")))))
    /\ (check_path (plugin_dir "datasette-x" (resolve example_file_world (parse "/out")))
        = None ->
        main (mkArgs "datasette-x" "/out") example_file_world
        = (w', Raised NotADirectoryError))
    /\ fs w' = fs example_file_world
    /\ stdout w' = stdout example_file_world
                   ++ (if Str.startswith "datasette-x" "datasette-" then [] else [warning]).
Proof.
  apply (main_output_path_is_a_file (mkArgs "datasette-x" "/out") example_file_world "notes").
  - reflexivity.
  - reflexivity.
  - discriminate.
Defined.

(** X8: running [main] a second time with the same arguments, after a run that
    completed: the output directory exists, so it is not created again, the
    generator completes again and the filesystem is left exactly as it was. *)
Theorem main_twice_is_main_once (args : Args) (w w1 : World) :
  main args w = (w1, Done) ->
  exists w2,
    main args w1 = (w2, Done) /\ fs w2 = fs w1 /\ cwd w2 = cwd w1
    /\ path_exists w1 (resolve w1 (parse (args_path args))) = true.
Proof.
  unfold main. set (p := parse (args_path args)). set (name := args_name args).
  intros Hmain.
  assert (Hpre : exists wm,
            (if path_exists w (resolve w p) then (w, Done)
             else mkdir (resolve w p) true false w) = (wm, Done)
            /\ run (create_plugin name (resolve w p)) wm = (w1, Done)).
  { destruct (if path_exists w (resolve w p) then (w, Done)
              else mkdir (resolve w p) true false w) as [wm [|e]];
      [eauto | discriminate]. }
  destruct Hpre as (wm & Hpre & Hrun).
  assert (Hm : cwd wm = cwd w /\ exists n, stat wm (resolve w p) = Some n).
  { unfold path_exists in Hpre. destruct (stat w (resolve w p)) as [n|] eqn:Hstat.
    - injection Hpre as <-. eauto.
    - apply mkdir_fuel_post in Hpre as (_ & Hcwd & _ & Hd). split; [assumption|].
      specialize (Hd eq_refl). unfold is_dir in Hd.
      destruct (stat wm (resolve w p)) as [[|c]|]; try discriminate. eauto. }
  destruct Hm as (Hcwdm & n & Hstat).
  pose proof (run_extends _ _ _ _ Hrun) as [Hext Hcwd1].
  assert (Hres : resolve w1 p = resolve w p) by (apply resolve_same_cwd; congruence).
  destruct (stat_extends _ _ _ _ Hext Hcwd1 Hstat) as [n' Hstat1].
  rewrite Hres. unfold path_exists at 1 2. rewrite Hstat1.
  destruct (rerun_general _ (exist_ok_create_plugin name (resolve w p)) wm w1 w1 Hrun)
    as (w2 & H1 & H2 & H3 & _); auto using extends_refl.
  exists w2. auto.
Qed.

Lemma main_twice_is_main_once_witness :
  let args := mkArgs "datasette-x" "projects" in
  let w1 := fst (main args example_home) in
  exists w2,
    main args w1 = (w2, Done) /\ fs w2 = fs w1 /\ cwd w2 = cwd w1
    /\ path_exists w1 (resolve w1 (parse (args_path args))) = true.
Proof.
  apply (main_twice_is_main_once (mkArgs "datasette-x" "projects") example_home).
  vm_compute. reflexivity.
Defined.

(** X9: the project root that [main] passes to the messages is always an
    absolute path, for every name and every [--path]: "Created plugin at:"
    and "cd" show a path that starts with "/". *)
Theorem printed_project_root_is_absolute (args : Args) (w : World) :
  let output_dir := resolve w (parse (args_path args)) in
  let shown := to_string (plugin_dir (args_name args) output_dir) in
  Str.startswith shown "/" = true
  /\ In ("Created plugin at: " +:+ shown)
        (printed (create_plugin (args_name args) output_dir))
  /\ In ("  cd " +:+ shown) (printed (create_plugin (args_name args) output_dir)).
Proof.
  intros output_dir shown. split.
  - unfold shown, plugin_dir, joinpath.
    destruct (parse_root_cases (args_name args)) as [H|[H|H]]; rewrite H.
    + reflexivity.
    + unfold to_string. now rewrite H.
    + unfold to_string. now rewrite H.
  - rewrite printed_create_plugin. split; apply in_or_app; right; simpl; tauto.
Qed.

(** X10: when a regular file lies on the way to the output directory, [main]
    stops at its own [mkdir]: the generator is not started, nothing is printed
    and nothing changes.  The exception is [NotADirectoryError], unless the
    system refuses the path of the output directory for a null byte
    ([ValueError]) or its length ([OSError] with [ENAMETOOLONG]), as
    [past_file] says. *)
Theorem main_output_dir_below_a_file (args : Args) (w : World) (k : nat) (c : string) :
  let output_dir := resolve w (parse (args_path args)) in
  well_formed (fs w) ->
  k < List.length (tail output_dir) ->
  node_at (fs w) (take k (tail output_dir)) = Some (File c) ->
  main args w = (w, Raised (past_file output_dir))
  /\ (check_path output_dir = None -> main args w = (w, Raised NotADirectoryError)).
Proof.
  intros output_dir Hwf Hk Hfile.
  destruct (resolve_plain w (parse (args_path args))) as (_ & Hno & Hstart).
  fold output_dir in Hno, Hstart.
  set (a := take k (tail output_dir)) in *.
  set (b := drop k (tail output_dir)).
  assert (Ht : tail output_dir = a ++ b) by (symmetry; apply take_drop).
  assert (Hb : b <> []).
  { intros Hb. apply (f_equal (@List.length _)) in Hb. unfold b in Hb.
    rewrite length_drop in Hb. cbn [List.length] in Hb. lia. }
  assert (Ha : fs w !! a = Some (File c)) by (destruct a; [discriminate | exact Hfile]).
  assert (Hwalk : walk (fs w) [] a = inr a).
  { apply (well_formed_walk (fs w) a (File c) Hwf); [|now destruct a | exact Ha].
    intros Hin. apply Hno. rewrite Ht. apply in_or_app. now left. }
  assert (Hstat : stat w output_dir = None).
  { unfold stat. destruct (check_path output_dir); [reflexivity|].
    rewrite Hstart, Ht, walk_app, Hwalk. destruct b; [congruence|].
    simpl. now rewrite Hfile. }
  assert (Hmain : main args w = (w, Raised (past_file output_dir))).
  { unfold main. fold output_dir. unfold path_exists. rewrite Hstat.
    rewrite (mkdir_past_file output_dir a b a c true false w); auto.
    all: now rewrite ?Hstart. }
  split; [exact Hmain|]. intros Hc. rewrite Hmain. unfold past_file. now rewrite Hc.
Qed.

Lemma main_output_dir_below_a_file_witness :
  main (mkArgs "datasette-x" "/out/sub") example_file_world
  = (example_file_world,
     Raised (past_file (resolve example_file_world (parse "/out/sub"))))
  /\ (check_path (resolve example_file_world (parse "/out/sub")) = None ->
      main (mkArgs "datasette-x" "/out/sub") example_file_world
      = (example_file_world, Raised NotADirectoryError)).
Proof.
  apply (main_output_dir_below_a_file (mkArgs "datasette-x" "/out/sub") example_file_world
           1 "notes").
  - intros loc x n H. unfold example_file_world in H. simpl in H.
    apply lookup_insert_Some in H as [[Heq _]|[_ H]].
    + destruct loc as [|y loc]; [|destruct loc; discriminate].
      injection Heq as <-. split; [reflexivity | now apply Nat.leb_le].
    + rewrite lookup_empty in H. discriminate.
  - vm_compute. lia.
  - reflexivity.
Defined.

(** X11: a relative name without any component (the empty name, ".", "./.")
    makes the output directory itself the project root, and the module
    directory too: the files are written directly into the output directory,
    the module entry file as [__init__.py] next to the manifest. *)
Theorem name_without_components_uses_output_dir (name : string) (output_dir : Path) :
  Str.startswith name "/" = false ->
  tail (parse name) = [] ->
  plugin_dir name output_dir = output_dir
  /\ module_dir name output_dir = output_dir
  /\ mkdir_calls (create_plugin name output_dir)
     = [ Mkdir output_dir true true; Mkdir output_dir true true;
         Mkdir (output_dir </> "tests") true true ]
  /\ map fst (written (create_plugin name output_dir))
     = [ output_dir </> "pyproject.toml"; output_dir </> "README.md";
         output_dir </> "__init__.py"; output_dir </> "tests" </> "__init__.py";
         output_dir </> "tests" </> ("test_" +:+ module_name name +:+ ".py");
         output_dir </> "pytest.ini"; output_dir </> ".gitignore" ].
Proof.
  intros Hrel Hnone.
  assert (Hjoin : forall key, Str.startswith key "/" = false -> tail (parse key) = [] ->
            output_dir </> key = output_dir).
  { intros key Hk Ht. rewrite (joinpath_relative _ _ Hk), Ht, app_nil_r.
    now destruct output_dir. }
  assert (Hp : plugin_dir name output_dir = output_dir) by now apply Hjoin.
  assert (Hm : module_dir name output_dir = output_dir).
  { unfold module_dir. rewrite Hp. apply Hjoin.
    - now rewrite module_name_relative.
    - rewrite parse_module_name, Hnone. reflexivity. }
  split; [exact Hp|]. split; [exact Hm|].
  rewrite mkdir_calls_create_plugin, written_create_plugin.
  unfold tests_dir. cbn [map fst]. now rewrite Hm, Hp.
Qed.

Lemma name_without_components_uses_output_dir_witness :
  plugin_dir "." example_out = example_out
  /\ module_dir "." example_out = example_out
  /\ mkdir_calls (create_plugin "." example_out)
     = [ Mkdir example_out true true; Mkdir example_out true true;
         Mkdir (example_out </> "tests") true true ]
  /\ map fst (written (create_plugin "." example_out))
     = [ example_out </> "pyproject.toml"; example_out </> "README.md";
         example_out </> "__init__.py"; example_out </> "tests" </> "__init__.py";
         example_out </> "tests" </> ("test_" +:+ module_name "." +:+ ".py");
         example_out </> "pytest.ini"; example_out </> ".gitignore" ].
Proof.
  apply (name_without_components_uses_output_dir "." example_out); reflexivity.
Defined.

(** A text that holds the name between encodable text and an ASCII
    character can be encoded only if the name can. *)
Lemma valid_embedded (a name b : string) (c : ascii) :
  Utf8.valid a = true -> nat_of_ascii c <= 127 ->
  Utf8.valid (a +:+ name +:+ String c b) = true -> Utf8.valid name = true.
Proof.
  rewrite !valid_scan. intros Ha Hc. rewrite scan_app, Ha, scan_app.
  destruct (Utf8.scan Utf8.Start name) as [q|]; [|auto].
  simpl. destruct (Utf8.next q c) as [q'|] eqn:E; [|intros [=]].
  now destruct (next_ascii _ _ _ Hc E) as [-> _].
Qed.

Lemma pyproject_needs_valid_name (name m : string) :
  Utf8.valid (pyproject name m) = true -> Utf8.valid name = true.
Proof.
  destruct (pyproject_head name m) as [rest ->].
  apply (valid_embedded ("[project]" +:+ nl +:+ "name = " +:+ dq)); [reflexivity|].
  now apply Nat.leb_le.
Qed.

(** X12: a name that is not UTF-8 is never generated.  The directories can
    be made, since file names are bytes, but the manifest holds the name and
    cannot be encoded: [write_text] opens the file and raises
    [UnicodeEncodeError], and the run ends there with an empty manifest. *)
Theorem name_not_utf8_never_completes (name : string) (output_dir : Path) (w : World) :
  Utf8.valid name = false ->
  let warned := if Str.startswith name "datasette-" then [] else [Print warning] in
  let manifest := plugin_dir name output_dir </> "pyproject.toml" in
  snd (run (create_plugin name output_dir) w) <> Done
  /\ forall w3 loc,
       run (warned ++ firstn 3 (fs_steps name output_dir)) w = (w3, Done) ->
       os_open manifest w3 = inr loc ->
       run (create_plugin name output_dir) w
       = (set_node w3 loc (File EmptyString), Raised UnicodeEncodeError).
Proof.
  intros Hname warned manifest.
  assert (Htext : Utf8.valid (pyproject name (module_name name)) = false).
  { destruct (Utf8.valid (pyproject name (module_name name))) eqn:E; [|reflexivity].
    apply pyproject_needs_valid_name in E. congruence. }
  assert (Hshape : create_plugin name output_dir
                   = (warned ++ firstn 3 (fs_steps name output_dir))
                     ++ WriteText manifest (pyproject name (module_name name))
                     :: (skipn 4 (fs_steps name output_dir)
                         ++ map Print (success_messages name output_dir))).
  { rewrite create_plugin_shape. fold warned. rewrite <- !app_assoc. reflexivity. }
  assert (Hstep : forall w3, snd (write_text manifest (pyproject name (module_name name)) w3)
                             <> Done).
  { intros w3. unfold write_text. destruct (os_open manifest w3); [discriminate|].
    rewrite Htext. discriminate. }
  split.
  - rewrite Hshape, run_app.
    destruct (run (warned ++ firstn 3 (fs_steps name output_dir)) w) as [w3 [|e]];
      [|discriminate].
    cbn [run step]. specialize (Hstep w3).
    destruct (write_text manifest _ w3) as [w4 [|e]]; [contradiction | discriminate].
  - intros w3 loc Hrun Hopen. rewrite Hshape, run_app, Hrun. cbn [run step].
    unfold write_text. now rewrite Hopen, Htext.
Qed.

Lemma name_not_utf8_never_completes_witness :
  snd (run (create_plugin ("datasette-" +:+ String "255"%char EmptyString) example_out)
           example_world) <> Done.
Proof.
  apply (name_not_utf8_never_completes ("datasette-" +:+ String "255"%char EmptyString)
           example_out example_world).
  reflexivity.
Defined.

(** X13: a name of one component with more than 247 bytes is never
    generated: the name of the test file, "test_" + module + ".py", is then
    longer than the 255 bytes a file name can have. *)
Theorem name_too_long_never_completes (name : string) (output_dir : Path) (w : World) :
  is_component name = true ->
  NAME_MAX < String.length name + 8 ->
  snd (run (create_plugin name output_dir) w) <> Done.
Proof.
  intros Hname Hlong.
  destruct (run (create_plugin name output_dir) w) as [w' o] eqn:Hrun. simpl. intros ->.
  pose proof (is_component_module_name _ Hname) as Hmod.
  assert (Hslash : Str.contains (module_name name) "/" = false)
    by now apply is_component_spec in Hmod.
  pose proof (is_component_test_file _ Hslash) as Htest.
  set (key := "test_" +:+ module_name name +:+ ".py") in *.
  assert (Hin : In (tests_dir name output_dir </> key, test_py name)
                   (written (create_plugin name output_dir))).
  { rewrite written_create_plugin. simpl. tauto. }
  destruct (run_written _ _ _ _ _ _ Hrun Hin eq_refl) as [c Hc].
  apply read_text_locate in Hc as (_ & l & Hl & _).
  unfold locate in Hl. rewrite (joinpath_component _ _ Htest) in Hl. cbn [tail] in Hl.
  destruct (walk (fs w') _ _) as [e|l'] eqn:E; [discriminate|].
  apply walk_names in E. apply Forall_app in E as [_ E].
  apply Forall_cons in E as [[E|E] _].
  - now apply (component_not_dotdot _ Htest).
  - unfold key in E. rewrite !append_length in E.
    rewrite module_name_map, map_chars_length in E. simpl in E. lia.
Qed.

Lemma name_too_long_never_completes_witness :
  snd (run (create_plugin (String.concat EmptyString (repeat "datasette-plugin" 31))
                          example_out) example_world) <> Done.
Proof.
  apply (name_too_long_never_completes
           (String.concat EmptyString (repeat "datasette-plugin" 31))
           example_out example_world).
  - reflexivity.
  - vm_compute. lia.
Defined.
